(** * Minno: Slack event ingestion, request verification and session store

    A shallow embedding of the parts of the Minno server and of its Slack
    client package that carry behavioural contracts:

    - the zod schemas of [types.ts] and the helpers of [events.ts]
      (package slack-client);
    - the [slackVerify] middleware and the [/slack/events] route of the
      server;
    - the upsert statements of [SessionService.ts] over the tables of
      [schema.sql].

    How the code is read:

    - JavaScript values are the inductive type [value]; numbers in them
      are IEEE 754 doubles. Strings are sequences of code units in the
      range 0..255, which is how Node presents HTTP header values.
    - A function that may throw returns a [completion]; a request handler
      is a state-passing function over a [World] that holds the database,
      the clock and the actions performed so far, with [try_catch] for
      [try]/[catch].
    - [crypto.createHmac(...).digest('hex')], [JSON.stringify] and the
      configured signing secret are parameters of the server: what is
      proved holds for every choice of them.
    - A table is the list of its rows; [CURRENT_TIMESTAMP] and
      [gen_random_uuid()] are inputs of a statement. The connection pool
      is not modelled: every method takes a client and releases it. *)

From Stdlib Require Import String Ascii List ZArith NArith Bool Lia.
From Stdlib Require Import Floats.PrimFloat.
From Stdlib Require Import Sorting.Permutation Sorting.Sorted.
Import ListNotations.
Local Open Scope string_scope.
Local Open Scope list_scope.
Set Warnings "-register-all".

(* ================================================================== *)
(** ** JavaScript values *)
(* ================================================================== *)

Inductive value : Type :=
| VUndefined
| VNull
| VBool (b : bool)
| VNumber (x : float)
| VString (s : string)
| VArray (xs : list value)
| VObject (props : list (string * value)).

(** Own-property lookup in a property list; the first binding of a key
    is the one an object literal with that key would hold. *)
Fixpoint lookup (k : string) (props : list (string * value)) : value :=
  match props with
  | [] => VUndefined
  | (k', v) :: rest => if String.eqb k k' then v else lookup k rest
  end.

(** [v[k]] for a value that is already known not to be null or undefined:
    objects answer from their properties, everything else has no such
    property. *)
Definition prop (v : value) (k : string) : value :=
  match v with
  | VObject props => lookup k props
  | _ => VUndefined
  end.

(** [x === "lit"] *)
Definition strict_eq_string (v : value) (lit : string) : bool :=
  match v with
  | VString s => String.eqb s lit
  | _ => false
  end.

(* ================================================================== *)
(** ** zod: the combinators the schemas of [types.ts] are built from *)
(* ================================================================== *)

Module Zod.

Inductive PathSeg : Type :=
| Key (k : string)
| Index (i : nat).

Definition Path := list PathSeg.

Inductive ZodIssue : Type :=
| invalid_type (path : Path)
| invalid_literal (path : Path)
| invalid_union (path : Path) (unionErrors : list (list ZodIssue)).

Definition ZodError := list ZodIssue.

Inductive SafeParseResult (A : Type) : Type :=
| success (data : A)
| failure (error : ZodError).
Arguments success {A} data.
Arguments failure {A} error.

(** A schema reads the value found at a path. *)
Definition ZodType (A : Type) := Path -> value -> SafeParseResult A.

Definition is_failure {A} (r : SafeParseResult A) : bool :=
  match r with
  | success _ => false
  | failure _ => true
  end.

Definition map_result {A B} (f : A -> B) (r : SafeParseResult A)
  : SafeParseResult B :=
  match r with
  | success a => success (f a)
  | failure e => failure e
  end.

(** Object parsing visits every key of the shape and reports all the
    issues it met, in shape order. *)
Definition ap_result {A B} (rf : SafeParseResult (A -> B))
           (ra : SafeParseResult A) : SafeParseResult B :=
  match rf, ra with
  | success f, success a => success (f a)
  | success _, failure e => failure e
  | failure e, success _ => failure e
  | failure e1, failure e2 => failure (e1 ++ e2)
  end.

Definition pure {A} (a : A) : ZodType A := fun _ _ => success a.

Definition ap {A B} (tf : ZodType (A -> B)) (ta : ZodType A) : ZodType B :=
  fun p v => ap_result (tf p v) (ta p v).

Definition string : ZodType String.string :=
  fun p v =>
    match v with
    | VString s => success s
    | _ => failure [invalid_type p]
    end.

(** [z.number()] refuses NaN. *)
Definition number : ZodType float :=
  fun p v =>
    match v with
    | VNumber x => if PrimFloat.is_nan x then failure [invalid_type p]
                   else success x
    | _ => failure [invalid_type p]
    end.

Definition boolean : ZodType bool :=
  fun p v =>
    match v with
    | VBool b => success b
    | _ => failure [invalid_type p]
    end.

Definition literal (lit : String.string) : ZodType String.string :=
  fun p v =>
    if strict_eq_string v lit then success lit
    else failure [invalid_literal p].

Definition optional {A} (t : ZodType A) : ZodType (option A) :=
  fun p v =>
    match v with
    | VUndefined => success None
    | _ => map_result Some (t p v)
    end.

Definition nullable {A} (t : ZodType A) : ZodType (option A) :=
  fun p v =>
    match v with
    | VNull => success None
    | _ => map_result Some (t p v)
    end.

Fixpoint array_items {A} (t : ZodType A) (p : Path) (i : nat)
         (xs : list value) : SafeParseResult (list A) :=
  match xs with
  | [] => success []
  | x :: rest =>
      ap_result (map_result cons (t (p ++ [Index i]) x))
                (array_items t p (S i) rest)
  end.

Definition array {A} (t : ZodType A) : ZodType (list A) :=
  fun p v =>
    match v with
    | VArray xs => array_items t p 0 xs
    | _ => failure [invalid_type p]
    end.

(** One key of an object shape. *)
Definition field {A} (k : String.string) (t : ZodType A) : ZodType A :=
  fun p v => t (p ++ [Key k]) (prop v k).

(** [z.object({...})]: the input must be an object (not an array, not
    null); unknown keys are dropped because only the shape is read. *)
Definition object {A} (shape : ZodType A) : ZodType A :=
  fun p v =>
    match v with
    | VObject _ => shape p v
    | _ => failure [invalid_type p]
    end.

(** [z.union([...])]: the first option that accepts the input wins; when
    none does, one [invalid_union] issue carries every option's error. *)
Fixpoint union_from {A} (options : list (ZodType A))
         (errs : list ZodError) (p : Path) (v : value)
  : SafeParseResult A :=
  match options with
  | [] => failure [invalid_union p (rev errs)]
  | o :: rest =>
      match o p v with
      | success d => success d
      | failure e => union_from rest (e :: errs) p v
      end
  end.

Definition union {A} (options : list (ZodType A)) : ZodType A :=
  union_from options [].

Definition safeParse {A} (t : ZodType A) (v : value) : SafeParseResult A :=
  t [] v.

End Zod.

Declare Scope zod_scope.
Delimit Scope zod_scope with zod.
Notation "f <$> t" := (Zod.ap (Zod.pure f) t)
  (at level 61, left associativity) : zod_scope.
Notation "tf <*> t" := (Zod.ap tf t)
  (at level 61, left associativity) : zod_scope.

(* ================================================================== *)
(** ** Exceptions and results of calls that may throw *)
(* ================================================================== *)

Inductive Exn : Type :=
| ZodErrorExn (issues : Zod.ZodError)
| RangeError (message : string)
| TypeError (message : string)
| DatabaseError (message : string).

Inductive completion (A : Type) : Type :=
| Returned (a : A)
| Thrown (e : Exn).
Arguments Returned {A} a.
Arguments Thrown {A} e.

(** [schema.parse(data)] *)
Definition zod_parse {A} (t : Zod.ZodType A) (v : value) : completion A :=
  match Zod.safeParse t v with
  | Zod.success d => Returned d
  | Zod.failure e => Thrown (ZodErrorExn e)
  end.

(* ================================================================== *)
(** ** packages/slack-client: [types.ts] *)
(* ================================================================== *)

Module AppMentionEvent.
Record t : Type := mk {
  user : string;
  text : string;
  ts : string;
  channel : string;
  event_ts : string;
  thread_ts : option string
}.
End AppMentionEvent.

Module MessageEvent.
Record t : Type := mk {
  subtype : option string;
  user : option string;
  text : string;
  ts : string;
  channel : string;
  event_ts : string;
  thread_ts : option string;
  bot_id : option string
}.
End MessageEvent.

Module ReactionItem.
Record t : Type := mk {
  type : string;
  channel : string;
  ts : string
}.
End ReactionItem.

Module ReactionAddedEvent.
Record t : Type := mk {
  user : string;
  reaction : string;
  item : ReactionItem.t;
  event_ts : string
}.
End ReactionAddedEvent.

(** [SlackEvent]: the union of the three event shapes; the constructor
    is the [type] tag. *)
Inductive SlackEvent : Type :=
| AppMention (e : AppMentionEvent.t)
| Message (e : MessageEvent.t)
| ReactionAdded (e : ReactionAddedEvent.t).

(** [event.type] *)
Definition event_type (e : SlackEvent) : string :=
  match e with
  | AppMention _ => "app_mention"
  | Message _ => "message"
  | ReactionAdded _ => "reaction_added"
  end.

Module Authorization.
Record t : Type := mk {
  enterprise_id : option (option string);
  team_id : string;
  user_id : string;
  is_bot : bool;
  is_enterprise_install : option bool
}.
End Authorization.

Module SlackEventWrapper.
Record t : Type := mk {
  token : string;
  team_id : string;
  api_app_id : string;
  event : SlackEvent;
  event_id : string;
  event_time : float;
  authorizations : option (list Authorization.t)
}.
End SlackEventWrapper.

Section Schemas.
Import Zod.
Local Open Scope zod_scope.

Definition AppMentionEventSchema : ZodType AppMentionEvent.t :=
  object (
    (fun (_ : String.string) => AppMentionEvent.mk)
      <$> field "type" (literal "app_mention")
      <*> field "user" string
      <*> field "text" string
      <*> field "ts" string
      <*> field "channel" string
      <*> field "event_ts" string
      <*> field "thread_ts" (optional string)).

Definition MessageEventSchema : ZodType MessageEvent.t :=
  object (
    (fun (_ : String.string) => MessageEvent.mk)
      <$> field "type" (literal "message")
      <*> field "subtype" (optional string)
      <*> field "user" (optional string)
      <*> field "text" string
      <*> field "ts" string
      <*> field "channel" string
      <*> field "event_ts" string
      <*> field "thread_ts" (optional string)
      <*> field "bot_id" (optional string)).

Definition ReactionItemSchema : ZodType ReactionItem.t :=
  object (
    ReactionItem.mk
      <$> field "type" string
      <*> field "channel" string
      <*> field "ts" string).

Definition ReactionAddedEventSchema : ZodType ReactionAddedEvent.t :=
  object (
    (fun (_ : String.string) => ReactionAddedEvent.mk)
      <$> field "type" (literal "reaction_added")
      <*> field "user" string
      <*> field "reaction" string
      <*> field "item" ReactionItemSchema
      <*> field "event_ts" string).

Definition SlackEventSchema : ZodType SlackEvent :=
  union [ AppMention <$> AppMentionEventSchema;
          Message <$> MessageEventSchema;
          ReactionAdded <$> ReactionAddedEventSchema ].

Definition AuthorizationSchema : ZodType Authorization.t :=
  object (
    Authorization.mk
      <$> field "enterprise_id" (optional (nullable string))
      <*> field "team_id" string
      <*> field "user_id" string
      <*> field "is_bot" boolean
      <*> field "is_enterprise_install" (optional boolean)).

Definition SlackEventWrapperSchema : ZodType SlackEventWrapper.t :=
  object (
    (fun token team_id api_app_id event (_ : String.string) =>
       SlackEventWrapper.mk token team_id api_app_id event)
      <$> field "token" string
      <*> field "team_id" string
      <*> field "api_app_id" string
      <*> field "event" SlackEventSchema
      <*> field "type" (literal "event_callback")
      <*> field "event_id" string
      <*> field "event_time" number
      <*> field "authorizations" (optional (array AuthorizationSchema))).

End Schemas.

(* ================================================================== *)
(** ** packages/slack-client: [events.ts] *)
(* ================================================================== *)

Definition parseSlackEventWrapper (body : value)
  : completion SlackEventWrapper.t :=
  zod_parse SlackEventWrapperSchema body.

Definition extractEvent (wrapper : SlackEventWrapper.t) : SlackEvent :=
  SlackEventWrapper.event wrapper.

Definition isAppMentionEvent (event : SlackEvent) : bool :=
  String.eqb (event_type event) "app_mention".

Definition isMessageEvent (event : SlackEvent) : bool :=
  String.eqb (event_type event) "message".

Definition isReactionAddedEvent (event : SlackEvent) : bool :=
  String.eqb (event_type event) "reaction_added".

(** [event.thread_ts !== undefined && event.thread_ts !== event.ts] *)
Definition isThreadMessage (event : MessageEvent.t) : bool :=
  match MessageEvent.thread_ts event with
  | None => false
  | Some thread_ts => negb (String.eqb thread_ts (MessageEvent.ts event))
  end.

Definition isBotMessage (event : MessageEvent.t) : bool :=
  match MessageEvent.bot_id event with
  | None => false
  | Some _ => true
  end.

Definition isUserMessage (event : MessageEvent.t) : bool :=
  negb (isBotMessage event).

(** The event kinds the union knows. *)
Definition known_event_types : list string :=
  ["app_mention"; "message"; "reaction_added"].

(* ================================================================== *)
(** ** apps/minno-server: [schema.sql] *)
(* ================================================================== *)

(** [TIMESTAMP] columns hold an instant; [CURRENT_TIMESTAMP] is an input
    of every statement. [UUID] keys are opaque; [gen_random_uuid()] is an
    input of every insertion. Text values are taken to fit their
    [VARCHAR] columns. *)
Definition Timestamp := Z.
Definition UUID := string.

(** ['active' | 'completed' | 'failed' | 'archived'] *)
Inductive Status : Type := active | completed | failed | archived.

(** A JSON document held in a [JSONB] column. Writing
    [JSON.stringify(doc)] into the column and reading it back is taken
    to give [doc] again. *)
Definition Jsonb := list (string * value).

Module Workspaces.
Record row : Type := mk {
  id : UUID;
  slack_team_id : string;
  slack_team_name : string;
  notion_workspace_id : option string;
  created_at : Timestamp;
  updated_at : Timestamp
}.
End Workspaces.

Module MinnoSessions.
Record row : Type := mk {
  id : UUID;
  workspace_id : UUID;
  slack_channel_id : string;
  slack_thread_ts : string;
  notion_project_id : option string;
  notion_task_id : option string;
  context : option Jsonb;
  status : option Status;
  created_at : Timestamp;
  updated_at : Timestamp
}.
End MinnoSessions.

Record Database : Type := mkDatabase {
  workspaces : list Workspaces.row;
  minno_sessions : list MinnoSessions.row
}.

(** [slack_team_id VARCHAR(255) UNIQUE NOT NULL] *)
Definition unique_slack_team_id (tbl : list Workspaces.row) : Prop :=
  NoDup (map Workspaces.slack_team_id tbl).

Definition thread_key (r : MinnoSessions.row) : string * string :=
  (MinnoSessions.slack_channel_id r, MinnoSessions.slack_thread_ts r).

(** [CONSTRAINT unique_slack_thread UNIQUE(slack_channel_id, slack_thread_ts)] *)
Definition unique_slack_thread (tbl : list MinnoSessions.row) : Prop :=
  NoDup (map thread_key tbl).

(** SQL [COALESCE(a, b)] on nullable values. *)
Definition COALESCE {A} (a b : option A) : option A :=
  match a with
  | Some x => Some x
  | None => b
  end.

(** The rows a [WHERE] clause selects. *)
Definition select {A} (where_ : A -> bool) (tbl : list A) : list A :=
  filter where_ tbl.

(** [ON CONFLICT ... DO UPDATE]: the row that conflicts with the proposed
    one, if any, is replaced by its update, which is also what
    [RETURNING *] gives. *)
Fixpoint update_conflicting {A} (conflicts : A -> bool) (set : A -> A)
         (tbl : list A) : option (list A * A) :=
  match tbl with
  | [] => None
  | r :: rest =>
      if conflicts r then Some (set r :: rest, set r)
      else match update_conflicting conflicts set rest with
           | Some (rest', r') => Some (r :: rest', r')
           | None => None
           end
  end.

(** The trigger function [update_updated_at_column], installed
    [BEFORE UPDATE] on [workspaces] and on [minno_sessions]. *)
Definition workspaces_update_updated_at_column (now : Timestamp)
           (NEW : Workspaces.row) : Workspaces.row :=
  Workspaces.mk (Workspaces.id NEW) (Workspaces.slack_team_id NEW)
                (Workspaces.slack_team_name NEW)
                (Workspaces.notion_workspace_id NEW)
                (Workspaces.created_at NEW) now.

Definition minno_sessions_update_updated_at_column (now : Timestamp)
           (NEW : MinnoSessions.row) : MinnoSessions.row :=
  MinnoSessions.mk (MinnoSessions.id NEW) (MinnoSessions.workspace_id NEW)
                   (MinnoSessions.slack_channel_id NEW)
                   (MinnoSessions.slack_thread_ts NEW)
                   (MinnoSessions.notion_project_id NEW)
                   (MinnoSessions.notion_task_id NEW)
                   (MinnoSessions.context NEW)
                   (MinnoSessions.status NEW)
                   (MinnoSessions.created_at NEW) now.

(* ================================================================== *)
(** ** apps/minno-server: [SessionService.ts] *)
(* ================================================================== *)

Module Workspace.
Record t : Type := mk {
  id : string;
  slackTeamId : string;
  slackTeamName : string;
  notionWorkspaceId : option string;
  createdAt : Timestamp;
  updatedAt : Timestamp
}.
End Workspace.

Module MinnoSession.
Record t : Type := mk {
  id : string;
  workspaceId : string;
  slackChannelId : string;
  slackThreadTs : string;
  notionProjectId : option string;
  notionTaskId : option string;
  context : option Jsonb;
  status : option Status;
  createdAt : Timestamp;
  updatedAt : Timestamp
}.
End MinnoSession.

(** The optional [data] argument of [upsertMinnoSession]. *)
Module SessionData.
Record t : Type := mk {
  notionProjectId : option string;
  notionTaskId : option string;
  context : option Jsonb;
  status : option Status
}.
End SessionData.

Module SessionService.

(** [WHERE slack_team_id = $1], which is also the conflict test of
    [ON CONFLICT (slack_team_id)]. *)
Definition team_is (slackTeamId : string) (r : Workspaces.row) : bool :=
  String.eqb (Workspaces.slack_team_id r) slackTeamId.

(** [WHERE slack_channel_id = $1 AND slack_thread_ts = $2], which is also
    the conflict test of [ON CONFLICT (slack_channel_id, slack_thread_ts)]. *)
Definition thread_is (slackChannelId slackThreadTs : string)
           (r : MinnoSessions.row) : bool :=
  String.eqb (MinnoSessions.slack_channel_id r) slackChannelId
  && String.eqb (MinnoSessions.slack_thread_ts r) slackThreadTs.

(** The [DO UPDATE SET] clause of [upsertWorkspace], followed by the
    trigger. *)
Definition workspace_do_update (now : Timestamp) (p2 : string)
           (p3 : option string) (r : Workspaces.row) : Workspaces.row :=
  workspaces_update_updated_at_column now
    (Workspaces.mk (Workspaces.id r) (Workspaces.slack_team_id r)
                   p2
                   (COALESCE p3 (Workspaces.notion_workspace_id r))
                   (Workspaces.created_at r) now).

(** The [DO UPDATE SET] clause of [upsertMinnoSession], followed by the
    trigger. *)
Definition minno_session_do_update (now : Timestamp)
           (p4 p5 : option string) (p6 : option Jsonb) (p7 : option Status)
           (r : MinnoSessions.row) : MinnoSessions.row :=
  minno_sessions_update_updated_at_column now
    (MinnoSessions.mk
       (MinnoSessions.id r) (MinnoSessions.workspace_id r)
       (MinnoSessions.slack_channel_id r)
       (MinnoSessions.slack_thread_ts r)
       (COALESCE p4 (MinnoSessions.notion_project_id r))
       (COALESCE p5 (MinnoSessions.notion_task_id r))
       (COALESCE p6 (MinnoSessions.context r))
       (COALESCE p7 (MinnoSessions.status r))
       (MinnoSessions.created_at r) now).

Definition mapRowToWorkspace (r : Workspaces.row) : Workspace.t :=
  Workspace.mk (Workspaces.id r) (Workspaces.slack_team_id r)
               (Workspaces.slack_team_name r)
               (Workspaces.notion_workspace_id r)
               (Workspaces.created_at r) (Workspaces.updated_at r).

Definition mapRowToMinnoSession (r : MinnoSessions.row) : MinnoSession.t :=
  MinnoSession.mk (MinnoSessions.id r) (MinnoSessions.workspace_id r)
                  (MinnoSessions.slack_channel_id r)
                  (MinnoSessions.slack_thread_ts r)
                  (MinnoSessions.notion_project_id r)
                  (MinnoSessions.notion_task_id r)
                  (MinnoSessions.context r)
                  (MinnoSessions.status r)
                  (MinnoSessions.created_at r)
                  (MinnoSessions.updated_at r).

(** The statement of [upsertWorkspace]:
<<
    INSERT INTO workspaces (slack_team_id, slack_team_name, notion_workspace_id)
    VALUES ($1, $2, $3)
    ON CONFLICT (slack_team_id) DO UPDATE SET
      slack_team_name = $2,
      notion_workspace_id = COALESCE($3, workspaces.notion_workspace_id),
      updated_at = CURRENT_TIMESTAMP
    RETURNING *
>> *)
Definition upsert_workspace_sql (now : Timestamp) (new_id : UUID)
           (p1 p2 : string) (p3 : option string)
           (tbl : list Workspaces.row)
  : list Workspaces.row * Workspaces.row :=
  match
    update_conflicting (team_is p1) (workspace_do_update now p2 p3) tbl
  with
  | Some (tbl', r') => (tbl', r')
  | None =>
      let r := Workspaces.mk new_id p1 p2 p3 now now in
      (tbl ++ [r], r)
  end.

Definition upsertWorkspace (now : Timestamp) (new_id : UUID)
           (slackTeamId slackTeamName : string)
           (notionWorkspaceId : option string)
           (db : Database) : Database * Workspace.t :=
  let (tbl', r) :=
    upsert_workspace_sql now new_id slackTeamId slackTeamName
                         notionWorkspaceId (workspaces db) in
  (mkDatabase tbl' (minno_sessions db), mapRowToWorkspace r).

(** The statement of [upsertMinnoSession]:
<<
    INSERT INTO minno_sessions
      (workspace_id, slack_channel_id, slack_thread_ts,
       notion_project_id, notion_task_id, context, status)
    VALUES ($1, $2, $3, $4, $5, $6, $7)
    ON CONFLICT (slack_channel_id, slack_thread_ts) DO UPDATE SET
      notion_project_id = COALESCE($4, minno_sessions.notion_project_id),
      notion_task_id = COALESCE($5, minno_sessions.notion_task_id),
      context = COALESCE($6, minno_sessions.context),
      status = COALESCE($7, minno_sessions.status),
      updated_at = CURRENT_TIMESTAMP
    RETURNING *
>>
    A row that does not conflict is inserted only when its
    [workspace_id] references a workspace. *)
Definition upsert_minno_session_sql (now : Timestamp) (new_id : UUID)
           (p1 : UUID) (p2 p3 : string) (p4 p5 : option string)
           (p6 : option Jsonb) (p7 : option Status)
           (db : Database) : completion (Database * MinnoSessions.row) :=
  match
    update_conflicting (thread_is p2 p3)
                       (minno_session_do_update now p4 p5 p6 p7)
                       (minno_sessions db)
  with
  | Some (tbl', r') => Returned (mkDatabase (workspaces db) tbl', r')
  | None =>
      if existsb (fun w => String.eqb (Workspaces.id w) p1) (workspaces db)
      then
        let r := MinnoSessions.mk new_id p1 p2 p3 p4 p5 p6 p7 now now in
        Returned (mkDatabase (workspaces db) (minno_sessions db ++ [r]), r)
      else
        Thrown (DatabaseError
          "insert or update on table minno_sessions violates foreign key constraint")
  end.

(** [data?.field] *)
Definition data_field {A} (data : option SessionData.t)
           (f : SessionData.t -> option A) : option A :=
  match data with
  | Some d => f d
  | None => None
  end.

(** [x || dflt] on an optional enumeration value *)
Definition or_default {A} (x : option A) (dflt : A) : A :=
  match x with
  | Some a => a
  | None => dflt
  end.

Definition upsertMinnoSession (now : Timestamp) (new_id : UUID)
           (workspaceId slackChannelId slackThreadTs : string)
           (data : option SessionData.t)
           (db : Database) : completion (Database * MinnoSession.t) :=
  match
    upsert_minno_session_sql now new_id
      workspaceId slackChannelId slackThreadTs
      (data_field data SessionData.notionProjectId)
      (data_field data SessionData.notionTaskId)
      (* data?.context ? JSON.stringify(data.context) : null *)
      (data_field data SessionData.context)
      (* data?.status || 'active' *)
      (Some (or_default (data_field data SessionData.status) active))
      db
  with
  | Returned (db', r) => Returned (db', mapRowToMinnoSession r)
  | Thrown e => Thrown e
  end.

(** [SELECT * FROM minno_sessions WHERE slack_channel_id = $1 AND
    slack_thread_ts = $2] *)
Definition getMinnoSessionByThread (slackChannelId slackThreadTs : string)
           (db : Database) : option MinnoSession.t :=
  match
    select (thread_is slackChannelId slackThreadTs) (minno_sessions db)
  with
  | r :: _ => Some (mapRowToMinnoSession r)
  | [] => None
  end.

(** [SELECT * FROM workspaces WHERE slack_team_id = $1] *)
Definition getWorkspaceBySlackTeamId (slackTeamId : string)
           (db : Database) : option Workspace.t :=
  match select (team_is slackTeamId) (workspaces db) with
  | r :: _ => Some (mapRowToWorkspace r)
  | [] => None
  end.

End SessionService.

(* ================================================================== *)
(** ** The JavaScript runtime as the server uses it *)
(* ================================================================== *)

(** The numbers of the freshness check: whole seconds, or NaN when
    [parseInt] finds no digits. Integers are exact in a double up to
    2^53, far beyond any clock reading in seconds; a digit string whose
    value is beyond that is rounded, and is then further than any window
    from the clock whether rounded or not. *)
Inductive number : Type :=
| Num (n : Z)
| NaN.

Definition number_sub (a b : number) : number :=
  match a, b with
  | Num x, Num y => Num (x - y)
  | _, _ => NaN
  end.

Definition Math_abs (a : number) : number :=
  match a with
  | Num x => Num (Z.abs x)
  | NaN => NaN
  end.

(** [a > b]: false as soon as one side is NaN. *)
Definition number_gt (a b : number) : bool :=
  match a, b with
  | Num x, Num y => (y <? x)%Z
  | _, _ => false
  end.

(** White space that [parseInt] skips, among code units below 256:
    TAB, LF, VT, FF, CR, SP and NBSP. *)
Definition is_white_space (c : ascii) : bool :=
  let n := N_of_ascii c in
  ((9 <=? n) && (n <=? 13) || (n =? 32) || (n =? 160))%N.

Fixpoint trim_start (s : string) : string :=
  match s with
  | String c rest => if is_white_space c then trim_start rest else s
  | EmptyString => EmptyString
  end.

Definition digit_value (c : ascii) : option Z :=
  let n := Z.of_N (N_of_ascii c) in
  if ((48 <=? n) && (n <=? 57))%Z then Some (n - 48)%Z else None.

(** The value of the longest prefix of decimal digits, if there is one. *)
Fixpoint leading_digits (s : string) (acc : option Z) : option Z :=
  match s with
  | String c rest =>
      match digit_value c with
      | Some d =>
          leading_digits rest
            (Some (10 * match acc with Some a => a | None => 0 end + d)%Z)
      | None => acc
      end
  | EmptyString => acc
  end.

(** [parseInt(s, 10)] *)
Definition parseInt (s : string) : number :=
  let t := trim_start s in
  let (sign, digits) :=
    match t with
    | String "-" rest => ((-1)%Z, rest)
    | String "+" rest => (1%Z, rest)
    | _ => (1%Z, t)
    end in
  match leading_digits digits None with
  | Some m => Num (sign * m)%Z
  | None => NaN
  end.

(** [Buffer.from(s)]: the UTF-8 bytes of [s]. A code unit below 128 is
    one byte, one from 128 to 255 is two. *)
Definition utf8_char (c : ascii) : list N :=
  let n := N_of_ascii c in
  if (n <? 128)%N then [n]
  else [(192 + n / 64)%N; (128 + n mod 64)%N].

Fixpoint Buffer_from (s : string) : list N :=
  match s with
  | EmptyString => []
  | String c rest => utf8_char c ++ Buffer_from rest
  end.

Fixpoint bytes_eqb (a b : list N) : bool :=
  match a, b with
  | [], [] => true
  | x :: a', y :: b' => (x =? y)%N && bytes_eqb a' b'
  | _, _ => false
  end.

(** [crypto.timingSafeEqual(a, b)] throws when the byte lengths differ. *)
Definition timingSafeEqual (a b : list N) : completion bool :=
  if Nat.eqb (List.length a) (List.length b)
  then Returned (bytes_eqb a b)
  else Thrown (RangeError "Input buffers must have the same byte length").

(** Truthiness of a value of type [string | undefined]. *)
Definition truthy (h : option string) : bool :=
  match h with
  | None => false
  | Some EmptyString => false
  | Some (String _ _) => true
  end.

(** A header value read [as string] once it is known to be truthy. *)
Definition as_string (h : option string) : string :=
  match h with
  | Some s => s
  | None => EmptyString
  end.

(* ================================================================== *)
(** ** apps/minno-server: requests, responses and handlers *)
(* ================================================================== *)

Record Request : Type := mkRequest {
  headers : list (string * string);
  body : value
}.

(** [req.headers[name]] *)
Fixpoint header_lookup (name : string) (hs : list (string * string))
  : option string :=
  match hs with
  | [] => None
  | (k, v) :: rest => if String.eqb name k then Some v else header_lookup name rest
  end.

Inductive ResBody : Type :=
| BodyEmpty
| BodyText (text : string)
| BodyJson (v : value).

(** What a handler does that the outside can see, in order. *)
Inductive Action : Type :=
| CreateHmac (key data : string)
| TimingSafeEqual (a b : list N)
| ResSend (status : Z) (payload : ResBody)
| ConsoleLog (message : string) (arg : value)
| ConsoleError (message : string) (error : Exn).

(** The process a request is handled in: the database behind the
    session service, the clock reading [Date.now()] in milliseconds, and
    the actions performed so far. *)
Record World : Type := mkWorld {
  db : Database;
  Date_now : Z;
  log : list Action
}.

Definition Handler (A : Type) : Type := World -> World * completion A.

Definition ret {A} (a : A) : Handler A := fun w => (w, Returned a).

Definition bind {A B} (m : Handler A) (k : A -> Handler B) : Handler B :=
  fun w =>
    match m w with
    | (w', Returned a) => k a w'
    | (w', Thrown e) => (w', Thrown e)
    end.

Definition throw {A} (e : Exn) : Handler A := fun w => (w, Thrown e).

(** [try { m } catch (error) { h error }] *)
Definition try_catch {A} (m : Handler A) (h : Exn -> Handler A) : Handler A :=
  fun w =>
    match m w with
    | (w', Returned a) => (w', Returned a)
    | (w', Thrown e) => h e w'
    end.

Definition emit (a : Action) : Handler unit :=
  fun w => (mkWorld (db w) (Date_now w) (log w ++ [a]), Returned tt).

Definition lift {A} (c : completion A) : Handler A := fun w => (w, c).

(** [Date.now()] *)
Definition read_clock : Handler Z := fun w => (w, Returned (Date_now w)).

Declare Scope handler_scope.
Delimit Scope handler_scope with handler.
Notation "x <- m ;; k" := (bind m (fun x => k))
  (at level 100, m at next level, right associativity) : handler_scope.
Notation "m ;; k" := (bind m (fun _ => k))
  (at level 100, right associativity) : handler_scope.
Notation "' pat <- m ;; k" :=
  (bind m (fun x => match x with pat => k end))
  (at level 100, pat pattern, m at next level, right associativity)
  : handler_scope.

(** [res.status(status).send(text)] *)
Definition res_status_send (status : Z) (text : string) : Handler unit :=
  emit (ResSend status (BodyText text)).

(** [res.status(200).send()] *)
Definition res_status_send_empty (status : Z) : Handler unit :=
  emit (ResSend status BodyEmpty).

(** [res.json(v)]: the status is the default one, 200. *)
Definition res_json (v : value) : Handler unit :=
  emit (ResSend 200 (BodyJson v)).

Section Server.
Local Open Scope handler_scope.

(** [crypto.createHmac('sha256', key).update(data).digest('hex')] *)
Variable hmac_sha256_hex : string -> string -> string.
(** The text [`${JSON.stringify(v)}`] *)
Variable JSON_stringify : value -> string.
(** [config.slack.signingSecret], when the variable is set; the routes
    without that are in [Configured]. *)
Variable signingSecret : string.

(** The signature Slack's scheme gives a timestamp and a body text. *)
Definition sign (secret timestamp body_text : string) : string :=
  ("v0=" ++
     hmac_sha256_hex secret ("v0:" ++ timestamp ++ ":" ++ body_text))%string.

(** middleware/slackVerify.ts *)
Definition slackVerify (next : Handler unit) (req : Request)
  : Handler unit :=
  let signature := header_lookup "x-slack-signature" (headers req) in
  let timestamp := header_lookup "x-slack-request-timestamp" (headers req) in
  if negb (truthy signature) || negb (truthy timestamp)
  then res_status_send 400 "Missing Slack signature headers"
  else
    let signature := as_string signature in
    let timestamp := as_string timestamp in
    ms <- read_clock ;;
    let time := Num (ms / 1000) in
    let requestTime := parseInt timestamp in
    if number_gt (Math_abs (number_sub time requestTime)) (Num 300)
    then res_status_send 400 "Request timestamp is too old"
    else
      let body := JSON_stringify (body req) in
      let sigBasestring := ("v0:" ++ timestamp ++ ":" ++ body)%string in
      emit (CreateHmac signingSecret sigBasestring) ;;
      let mySignature :=
        ("v0=" ++ hmac_sha256_hex signingSecret sigBasestring)%string in
      try_catch
        (emit (TimingSafeEqual (Buffer_from signature)
                               (Buffer_from mySignature)) ;;
         equal <- lift (timingSafeEqual (Buffer_from signature)
                                        (Buffer_from mySignature)) ;;
         if equal : bool then next
         else res_status_send 401 "Invalid signature")
        (fun _ => res_status_send 401 "Invalid signature").

(** The world after some more actions. *)
Definition logged (w : World) (actions : list Action) : World :=
  mkWorld (db w) (Date_now w) (log w ++ actions).

(** [next()] as [slackVerify] calls it: inside the [try] block whose
    handler answers 401. *)
Definition next_in_try (next : Handler unit) : Handler unit :=
  try_catch next (fun _ => res_status_send 401 "Invalid signature").

(** The freshness test of the middleware, on the clock of a world. *)
Definition too_old (w : World) (timestamp : string) : bool :=
  number_gt
    (Math_abs (number_sub (Num (Date_now w / 1000)) (parseInt timestamp)))
    (Num 300).

(** [sigBasestring] and [mySignature] for a timestamp header and a
    request. *)
Definition sigBasestring (timestamp : string) (req : Request) : string :=
  ("v0:" ++ timestamp ++ ":" ++ JSON_stringify (body req))%string.

Definition mySignature (timestamp : string) (req : Request) : string :=
  sign signingSecret timestamp (JSON_stringify (body req)).

(** The calls made to [crypto] when a signature is compared. *)
Definition comparison (timestamp signature : string) (req : Request)
  : list Action :=
  [ CreateHmac signingSecret (sigBasestring timestamp req);
    TimingSafeEqual (Buffer_from signature)
                    (Buffer_from (mySignature timestamp req)) ].

Definition invalid_signature : Action :=
  ResSend 401 (BodyText "Invalid signature").

(** [const { type, challenge, event } = req.body] throws on [null] and
    [undefined]. *)
Definition destructure (v : value) : Handler (value * value * value) :=
  match v with
  | VUndefined | VNull =>
      throw (TypeError "Cannot destructure property 'type' of 'req.body'")
  | _ => ret (prop v "type", prop v "challenge", prop v "event")
  end.

(** routes/slack.ts: the handler of [POST /events] *)
Definition events_handler (req : Request) : Handler unit :=
  try_catch
    ('(type, challenge, event) <- destructure (body req) ;;
     if strict_eq_string type "url_verification"
     then res_json (VObject [("challenge", challenge)])
     else
       res_status_send_empty 200 ;;
       if strict_eq_string type "event_callback"
       then emit (ConsoleLog "Received Slack event:" event)
       else ret tt)
    (fun error => emit (ConsoleError "Error handling Slack event:" error)).

(** [router.post('/events', slackVerify, async (req, res) => ...)] *)
Definition post_events (req : Request) : Handler unit :=
  slackVerify (events_handler req) req.

End Server.



(* ================================================================== *)
(** ** apps/minno-server: the interactive route *)
(* ================================================================== *)

(** The responses among some actions. *)
Definition is_response (a : Action) : bool :=
  match a with
  | ResSend _ _ => true
  | _ => false
  end.

Definition responses (actions : list Action) : list Action :=
  filter is_response actions.

(** [v.k] where [v] may be [null] or [undefined]: reading a property of
    these throws. *)
Definition member (v : value) (k : string) : Handler value :=
  match v with
  | VUndefined | VNull =>
      throw (TypeError "Cannot read properties of undefined")
  | _ => ret (prop v k)
  end.

Section Interactive.
Local Open Scope handler_scope.

(** [JSON.parse(v)], which throws on text that is not JSON *)
Variable JSON_parse : value -> completion value.

(** routes/slack.ts: the handler of [POST /interactive] *)
Definition interactive_handler (req : Request) : Handler unit :=
  try_catch
    (text <- member (body req) "payload" ;;
     payload <- lift (JSON_parse text) ;;
     res_status_send_empty 200 ;;
     emit (ConsoleLog "Received Slack interactive event:" payload))
    (fun error =>
       emit (ConsoleError "Error handling Slack interactive event:" error)).

End Interactive.

(** The keys of the shape of [SlackEventWrapperSchema]. *)
Definition wrapper_keys : list string :=
  ["token"; "team_id"; "api_app_id"; "event"; "type"; "event_id";
   "event_time"; "authorizations"].

(** A value of type [string | undefined] as an optional field holds it. *)
Definition optional_string (v : value) (o : option string) : Prop :=
  match o with
  | None => v = VUndefined
  | Some s => v = VString s
  end.

(* ================================================================== *)
(** ** What a payload must hold to be read as a typed event *)
(* ================================================================== *)

(** The fields of an app-mention payload against a typed event. *)
Definition app_mention_fields (v : value) (e : AppMentionEvent.t) : Prop :=
  prop v "type" = VString "app_mention"
  /\ prop v "user" = VString (AppMentionEvent.user e)
  /\ prop v "text" = VString (AppMentionEvent.text e)
  /\ prop v "ts" = VString (AppMentionEvent.ts e)
  /\ prop v "channel" = VString (AppMentionEvent.channel e)
  /\ prop v "event_ts" = VString (AppMentionEvent.event_ts e)
  /\ optional_string (prop v "thread_ts") (AppMentionEvent.thread_ts e).

Definition message_fields (v : value) (e : MessageEvent.t) : Prop :=
  prop v "type" = VString "message"
  /\ optional_string (prop v "subtype") (MessageEvent.subtype e)
  /\ optional_string (prop v "user") (MessageEvent.user e)
  /\ prop v "text" = VString (MessageEvent.text e)
  /\ prop v "ts" = VString (MessageEvent.ts e)
  /\ prop v "channel" = VString (MessageEvent.channel e)
  /\ prop v "event_ts" = VString (MessageEvent.event_ts e)
  /\ optional_string (prop v "thread_ts") (MessageEvent.thread_ts e)
  /\ optional_string (prop v "bot_id") (MessageEvent.bot_id e).

Definition reaction_added_fields (v : value) (e : ReactionAddedEvent.t)
  : Prop :=
  prop v "type" = VString "reaction_added"
  /\ prop v "user" = VString (ReactionAddedEvent.user e)
  /\ prop v "reaction" = VString (ReactionAddedEvent.reaction e)
  /\ (exists props, prop v "item" = VObject props)
  /\ prop (prop v "item") "type"
     = VString (ReactionItem.type (ReactionAddedEvent.item e))
  /\ prop (prop v "item") "channel"
     = VString (ReactionItem.channel (ReactionAddedEvent.item e))
  /\ prop (prop v "item") "ts"
     = VString (ReactionItem.ts (ReactionAddedEvent.item e))
  /\ prop v "event_ts" = VString (ReactionAddedEvent.event_ts e).

Definition event_fields (v : value) (e : SlackEvent) : Prop :=
  (exists props, v = VObject props)
  /\ match e with
     | AppMention a => app_mention_fields v a
     | Message m => message_fields v m
     | ReactionAdded r => reaction_added_fields v r
     end.

(* ================================================================== *)
(** ** packages/slack-client: messages and [SlackClient.getThreadHistory] *)
(* ================================================================== *)

Module BlockText.
Record t : Type := mk {
  type : string;
  text : string;
  emoji : option bool
}.
End BlockText.

Module Block.
Record t : Type := mk {
  type : string;
  block_id : option string;
  elements : option (list value);
  text : option BlockText.t;
  accessory : option value;
  fields : option (list value)
}.
End Block.

Module MessageFile.
Record t : Type := mk {
  id : string;
  name : string;
  mimetype : string;
  url_private : string;
  url_private_download : string
}.
End MessageFile.

Module SlackMessage.
Record t : Type := mk {
  subtype : option string;
  text : string;
  user : option string;
  bot_id : option string;
  ts : string;
  thread_ts : option string;
  channel : string;
  blocks : option (list Block.t);
  files : option (list MessageFile.t)
}.
End SlackMessage.

Section MessageSchemas.
Import Zod.
Local Open Scope zod_scope.

(** [z.any()] accepts every value. *)
Definition any : ZodType value := fun _ v => success v.

(** [z.any().optional()]: an absent value is absent in the result. *)
Definition optional_any : ZodType (option value) :=
  fun _ v =>
    match v with
    | VUndefined => success None
    | _ => success (Some v)
    end.

Definition BlockTextSchema : ZodType BlockText.t :=
  object (
    BlockText.mk
      <$> field "type" string
      <*> field "text" string
      <*> field "emoji" (optional boolean)).

Definition BlockSchema : ZodType Block.t :=
  object (
    Block.mk
      <$> field "type" string
      <*> field "block_id" (optional string)
      <*> field "elements" (optional (array any))
      <*> field "text" (optional BlockTextSchema)
      <*> field "accessory" optional_any
      <*> field "fields" (optional (array any))).

Definition MessageFileSchema : ZodType MessageFile.t :=
  object (
    MessageFile.mk
      <$> field "id" string
      <*> field "name" string
      <*> field "mimetype" string
      <*> field "url_private" string
      <*> field "url_private_download" string).

Definition MessageSchema : ZodType SlackMessage.t :=
  object (
    (fun (_ : String.string) => SlackMessage.mk)
      <$> field "type" (literal "message")
      <*> field "subtype" (optional string)
      <*> field "text" string
      <*> field "user" (optional string)
      <*> field "bot_id" (optional string)
      <*> field "ts" string
      <*> field "thread_ts" (optional string)
      <*> field "channel" string
      <*> field "blocks" (optional (array BlockSchema))
      <*> field "files" (optional (array MessageFileSchema))).

End MessageSchemas.

(** What [await this.client.conversations.replies(...)] gives: the
    [ok] flag, the error code and the messages, each an object. *)
Module RepliesResponse.
Record t : Type := mk {
  ok : bool;
  error : option string;
  messages : option (list (list (string * value)))
}.
End RepliesResponse.

(** An exception of the client: one it raises itself with
    [new Error(message)], or one that came out of a call. *)
Inductive ClientError : Type :=
| Error (message : string)
| Raised (e : Exn).

Inductive outcome (A : Type) : Type :=
| Done (a : A)
| Failed (error : ClientError).
Arguments Done {A} a.
Arguments Failed {A} error.

(** [`${x}`] for [x] of type [string | undefined] *)
Definition interpolate (x : option string) : string :=
  match x with
  | Some s => s
  | None => "undefined"
  end.

(** [{ ...msg, channel }]: the properties of [msg] with [channel] set;
    the binding put first is the one [lookup] finds. *)
Definition with_channel (msg : list (string * value)) (channel : string)
  : value :=
  VObject (("channel", VString channel) :: msg).

(** The loop of [getThreadHistory]: a message that fails validation is
    warned about, with the error, and left out. The result is the errors
    warned about and the messages, each in the order of the replies. *)
Fixpoint parse_replies (channel : string)
         (msgs : list (list (string * value)))
  : list Exn * list SlackMessage.t :=
  match msgs with
  | [] => ([], [])
  | msg :: rest =>
      let (warnings, messages) := parse_replies channel rest in
      match zod_parse MessageSchema (with_channel msg channel) with
      | Returned parsed => (warnings, parsed :: messages)
      | Thrown error => (error :: warnings, messages)
      end
  end.

(** [SlackClient.getThreadHistory], from the response of the API call on. *)
Definition getThreadHistory (channel : string)
           (result : completion RepliesResponse.t)
  : outcome (list Exn * list SlackMessage.t) :=
  match result with
  | Thrown e => Failed (Raised e)
  | Returned result =>
      if negb (RepliesResponse.ok result)
      then Failed (Error ("Failed to get thread history: "
                          ++ interpolate (RepliesResponse.error result)))
      else
        Done (parse_replies channel
                (match RepliesResponse.messages result with
                 | Some msgs => msgs
                 | None => []
                 end))
  end.

(* ================================================================== *)
(** ** apps/minno-server: messages, status and retention *)
(* ================================================================== *)

(** ['user' | 'assistant' | 'tool' | 'system'] *)
Module Role.
Inductive t : Type := user | assistant | tool | system.
End Role.

Module ConversationMessages.
Record row : Type := mk {
  id : UUID;
  session_id : UUID;
  role : Role.t;
  content : string;
  metadata : option Jsonb;
  timestamp : Timestamp;
  slack_message_ts : option string
}.
End ConversationMessages.

Module ConversationMessage.
Record t : Type := mk {
  id : string;
  sessionId : string;
  role : Role.t;
  content : string;
  metadata : option Jsonb;
  timestamp : Timestamp;
  slackMessageTs : option string
}.
End ConversationMessage.

(** The tables of [schema.sql] that the session service reads and
    writes: those of [Database], and [conversation_messages]. *)
Record Tables : Type := mkTables {
  database : Database;
  conversation_messages : list ConversationMessages.row
}.

(** [workspace_id UUID NOT NULL REFERENCES workspaces(id)] *)
Definition sessions_reference_workspaces (d : Database) : Prop :=
  forall s, In s (minno_sessions d) ->
    exists w, In w (workspaces d)
              /\ Workspaces.id w = MinnoSessions.workspace_id s.

(** [id UUID PRIMARY KEY] on [workspaces] *)
Definition unique_workspace_ids (d : Database) : Prop :=
  NoDup (map Workspaces.id (workspaces d)).

(** [id UUID PRIMARY KEY] on [minno_sessions] *)
Definition unique_session_ids (d : Database) : Prop :=
  NoDup (map MinnoSessions.id (minno_sessions d)).

(** [session_id UUID NOT NULL REFERENCES minno_sessions(id)] *)
Definition messages_reference_sessions (t : Tables) : Prop :=
  forall m, In m (conversation_messages t) ->
    exists s, In s (minno_sessions (database t))
              /\ MinnoSessions.id s = ConversationMessages.session_id m.

(** [ORDER BY]: the rows in the order [le] gives. Rows that [le] does not
    tell apart come out in the order the query found them; SQL leaves
    their order open. *)
Fixpoint insert_ordered {A} (le : A -> A -> bool) (x : A) (l : list A)
  : list A :=
  match l with
  | [] => [x]
  | y :: rest => if le x y then x :: l else y :: insert_ordered le x rest
  end.

Fixpoint order_by {A} (le : A -> A -> bool) (l : list A) : list A :=
  match l with
  | [] => []
  | x :: rest => insert_ordered le x (order_by le rest)
  end.

(** [ORDER BY updated_at DESC] on sessions *)
Definition updated_at_desc (a b : MinnoSessions.row) : bool :=
  (MinnoSessions.updated_at b <=? MinnoSessions.updated_at a)%Z.

(** [ORDER BY timestamp ASC] and [ORDER BY timestamp DESC] on messages *)
Definition timestamp_asc (a b : ConversationMessages.row) : bool :=
  (ConversationMessages.timestamp a <=? ConversationMessages.timestamp b)%Z.

Definition timestamp_desc (a b : ConversationMessages.row) : bool :=
  (ConversationMessages.timestamp b <=? ConversationMessages.timestamp a)%Z.

Definition status_eqb (a b : Status) : bool :=
  match a, b with
  | active, active | completed, completed
  | failed, failed | archived, archived => true
  | _, _ => false
  end.

(** [status = 'x'] on the nullable column: a [NULL] status is equal to
    nothing. *)
Definition status_is (x : Status) (r : MinnoSessions.row) : bool :=
  match MinnoSessions.status r with
  | Some s => status_eqb s x
  | None => false
  end.

Module SessionStore.

Definition mapRowToMessage (r : ConversationMessages.row)
  : ConversationMessage.t :=
  ConversationMessage.mk
    (ConversationMessages.id r) (ConversationMessages.session_id r)
    (ConversationMessages.role r) (ConversationMessages.content r)
    (ConversationMessages.metadata r) (ConversationMessages.timestamp r)
    (ConversationMessages.slack_message_ts r).

(** [SELECT * FROM workspaces WHERE id = $1] *)
Definition getWorkspace (id : string) (db : Database) : option Workspace.t :=
  match
    select (fun r => String.eqb (Workspaces.id r) id) (workspaces db)
  with
  | r :: _ => Some (SessionService.mapRowToWorkspace r)
  | [] => None
  end.

(** [SELECT * FROM minno_sessions WHERE workspace_id = $1 AND status = $2
    ORDER BY updated_at DESC], with [$2 = 'active'] *)
Definition getActiveSessionsForWorkspace (workspaceId : string)
           (db : Database) : list MinnoSession.t :=
  map SessionService.mapRowToMinnoSession
      (order_by updated_at_desc
         (select (fun r =>
                    String.eqb (MinnoSessions.workspace_id r) workspaceId
                    && status_is active r)
                 (minno_sessions db))).

(** The row after [SET status = $2, updated_at = CURRENT_TIMESTAMP] and
    the trigger. *)
Definition set_status (now : Timestamp) (status : Status)
           (r : MinnoSessions.row) : MinnoSessions.row :=
  minno_sessions_update_updated_at_column now
    (MinnoSessions.mk
       (MinnoSessions.id r) (MinnoSessions.workspace_id r)
       (MinnoSessions.slack_channel_id r) (MinnoSessions.slack_thread_ts r)
       (MinnoSessions.notion_project_id r) (MinnoSessions.notion_task_id r)
       (MinnoSessions.context r) (Some status)
       (MinnoSessions.created_at r) now).

(** [UPDATE ... WHERE cond RETURNING *]: the table after the update and
    the rows that were updated. *)
Definition update_where {A} (cond : A -> bool) (set : A -> A)
           (tbl : list A) : list A * list A :=
  (map (fun r => if cond r then set r else r) tbl,
   map set (select cond tbl)).

(** [UPDATE minno_sessions SET status = $2, updated_at = CURRENT_TIMESTAMP
    WHERE id = $1 RETURNING *], then [throw new Error('Session not
    found')] when no row came back. The id is compared as text, which is
    how the database compares an id written as it prints them
    ([printed_uuid]); what it does with another spelling, or with a text
    that spells no uuid, is not followed. *)
Definition updateSessionStatus (now : Timestamp) (sessionId : string)
           (status : Status) (db : Database)
  : outcome (Database * MinnoSession.t) :=
  let (tbl', rows) :=
    update_where (fun r => String.eqb (MinnoSessions.id r) sessionId)
                 (set_status now status) (minno_sessions db) in
  match rows with
  | [] => Failed (Error "Session not found")
  | r :: _ =>
      Done (mkDatabase (workspaces db) tbl',
            SessionService.mapRowToMinnoSession r)
  end.

(** [INSERT INTO conversation_messages (session_id, role, content,
    metadata, slack_message_ts) VALUES ($1, $2, $3, $4, $5) RETURNING *].
    The row is inserted only when its [session_id] references a
    session. The metadata is held as it is passed; the form the JSONB
    column gives the document is not followed. *)
Definition addMessage (now : Timestamp) (new_id : UUID)
           (sessionId : string) (role : Role.t) (content : string)
           (metadata : option Jsonb) (slackMessageTs : option string)
           (t : Tables) : outcome (Tables * ConversationMessage.t) :=
  if existsb (fun s => String.eqb (MinnoSessions.id s) sessionId)
             (minno_sessions (database t))
  then
    let r := ConversationMessages.mk new_id sessionId role content
                                     metadata now slackMessageTs in
    Done (mkTables (database t) (conversation_messages t ++ [r]),
          mapRowToMessage r)
  else
    Failed (Raised (DatabaseError
      "insert or update on table conversation_messages violates foreign key constraint")).

Definition of_session (sessionId : string) (r : ConversationMessages.row)
  : bool :=
  String.eqb (ConversationMessages.session_id r) sessionId.

(** [SELECT * FROM conversation_messages WHERE session_id = $1
    ORDER BY timestamp ASC] *)
Definition getSessionMessages (sessionId : string) (t : Tables)
  : list ConversationMessage.t :=
  map mapRowToMessage
      (order_by timestamp_asc
         (select (of_session sessionId) (conversation_messages t))).

(** [SELECT * FROM conversation_messages WHERE session_id = $1
    ORDER BY timestamp DESC LIMIT $2], then [rows.reverse()]. The limit
    is 10 when none is given; it is a whole number. The database reads
    it as a [bigint]: it refuses a negative one, and one from 2^63 on. *)
Definition getRecentMessages (sessionId : string) (limit : option Z)
           (t : Tables) : outcome (list ConversationMessage.t) :=
  let limit := match limit with Some n => n | None => 10%Z end in
  if (limit <? 0)%Z
  then Failed (Raised (DatabaseError "LIMIT must not be negative"))
  else if (9223372036854775807 <? limit)%Z
  then Failed (Raised (DatabaseError "value is out of range for type bigint"))
  else
    Done (map mapRowToMessage
            (rev (firstn (Z.to_nat limit)
                    (order_by timestamp_desc
                       (select (of_session sessionId)
                               (conversation_messages t)))))).

End SessionStore.

(** database/queries.sql: the cleanup statements. [cutoff] is the
    instant [NOW() - INTERVAL '...'] of the statement. *)
Module Cleanup.

(** [DELETE FROM t WHERE cond]: the rows that stay. *)
Definition delete_where {A} (cond : A -> bool) (tbl : list A) : list A :=
  filter (fun r => negb (cond r)) tbl.

(** [ON DELETE CASCADE] from [minno_sessions] to
    [conversation_messages]: the messages of the deleted sessions go
    with them. *)
Definition cascade (deleted : list MinnoSessions.row)
           (msgs : list ConversationMessages.row)
  : list ConversationMessages.row :=
  delete_where
    (fun m =>
       existsb (fun s => String.eqb (MinnoSessions.id s)
                                    (ConversationMessages.session_id m))
               deleted)
    msgs.

Definition older_than (cutoff : Timestamp) (r : MinnoSessions.row) : bool :=
  (MinnoSessions.updated_at r <? cutoff)%Z.

(** [DELETE FROM minno_sessions WHERE cond], with the cascade. *)
Definition delete_sessions (cond : MinnoSessions.row -> bool) (t : Tables)
  : Tables :=
  mkTables
    (mkDatabase (workspaces (database t))
                (delete_where cond (minno_sessions (database t))))
    (cascade (select cond (minno_sessions (database t)))
             (conversation_messages t)).

(** [UPDATE minno_sessions SET status = 'archived'
    WHERE status = 'completed' AND updated_at < cutoff]; the trigger sets
    [updated_at]. *)
Definition archive_completed (now cutoff : Timestamp) (t : Tables) : Tables :=
  mkTables
    (mkDatabase
       (workspaces (database t))
       (map (fun r =>
               if status_is completed r && older_than cutoff r
               then minno_sessions_update_updated_at_column now
                      (MinnoSessions.mk
                         (MinnoSessions.id r) (MinnoSessions.workspace_id r)
                         (MinnoSessions.slack_channel_id r)
                         (MinnoSessions.slack_thread_ts r)
                         (MinnoSessions.notion_project_id r)
                         (MinnoSessions.notion_task_id r)
                         (MinnoSessions.context r) (Some archived)
                         (MinnoSessions.created_at r)
                         (MinnoSessions.updated_at r))
               else r)
            (minno_sessions (database t))))
    (conversation_messages t).

(** [DELETE FROM minno_sessions WHERE status = 'archived'
    AND updated_at < cutoff] *)
Definition delete_archived (cutoff : Timestamp) (t : Tables) : Tables :=
  delete_sessions (fun r => status_is archived r && older_than cutoff r) t.

(** [DELETE FROM minno_sessions ms WHERE NOT EXISTS (SELECT 1 FROM
    conversation_messages cm WHERE cm.session_id = ms.id)] *)
Definition delete_sessions_without_messages (t : Tables) : Tables :=
  delete_sessions
    (fun s =>
       negb (existsb
               (fun m => String.eqb (ConversationMessages.session_id m)
                                    (MinnoSessions.id s))
               (conversation_messages t)))
    t.

End Cleanup.

(* ------------------------------------------------------------------ *)
(** ** apps/minno-server: [SessionService.runMigrations] *)

(** [s.endsWith(suffix)] *)
Fixpoint endsWith (s suffix : string) : bool :=
  String.eqb s suffix
  || match s with
     | String _ rest => endsWith rest suffix
     | EmptyString => false
     end.

(** [\d] *)
Definition is_digit (c : ascii) : bool :=
  match digit_value c with
  | Some _ => true
  | None => false
  end.

(** [/^\d{3}_/.test(f)] *)
Definition three_digits_underscore (f : string) : bool :=
  match f with
  | String a (String b (String c (String d _))) =>
      is_digit a && is_digit b && is_digit c && Ascii.eqb d "_"
  | _ => false
  end.

(** [f => f.endsWith('.sql') && /^\d{3}_/.test(f)] *)
Definition is_migration_file (f : string) : bool :=
  endsWith f ".sql" && three_digits_underscore f.

(** [files.sort()]: ascending by code units. *)
Definition sort (files : list string) : list string :=
  order_by String.leb files.

(** The number that the three digits at the start of a file name write. *)
Definition migration_number (f : string) : Z :=
  match f with
  | String a (String b (String c _)) =>
      match digit_value a, digit_value b, digit_value c with
      | Some x, Some y, Some z => (100 * x + 10 * y + z)%Z
      | _, _, _ => 0%Z
      end
  | _ => 0%Z
  end.

Module Migrations.

Section Run.

(** The database apart from the [migrations] table, and what a query
    fails with. *)
Variables (Schema Err : Type).

(** [client.query(migration)]: the statements of a migration file, run
    on the database. They leave the [migrations] table alone. *)
Variable client_query : string -> Schema -> Err + Schema.

(** [fs.readFileSync(join(migrationsDir, file), 'utf-8')] *)
Variable readFileSync : string -> Err + string.

(** The error of an [INSERT] that breaks [name VARCHAR(255) UNIQUE]. *)
Variable unique_violation : Err.

(** The names in the [migrations] table, if the table exists, and the
    rest of the database. *)
Record Pg : Type := mkPg {
  migrations : option (list string);
  schema : Schema
}.

Inductive Output : Type :=
| Log (line : string)
| LogError (message : string) (error : Err)
| Release.

(** [CREATE TABLE IF NOT EXISTS migrations (...)], then
    [SELECT name FROM migrations] *)
Definition applied_names (pg : Pg) : list string :=
  match migrations pg with
  | Some names => names
  | None => []
  end.

(** [appliedNames.has(file)] *)
Definition has (names : list string) (file : string) : bool :=
  existsb (String.eqb file) names.

(** [INSERT INTO migrations (name) VALUES ($1)] *)
Definition insert_name (file : string) (names : list string)
  : Err + list string :=
  if has names file then inl unique_violation else inr (names ++ [file]).

(** The loop over [files]. A migration and the row that records it are
    one transaction: when either fails, [ROLLBACK] leaves the database as
    it was at [BEGIN] and the error is thrown on. *)
Fixpoint run_files (appliedNames : list string) (files : list string)
         (st : list string * Schema) (out : list Output)
  : (list string * Schema) * list Output * option Err :=
  match files with
  | [] => (st, out, None)
  | file :: rest =>
      if has appliedNames file
      then run_files appliedNames rest st out
      else
        let out := out ++ [Log ("Running migration: " ++ file)] in
        match readFileSync file with
        | inl error => (st, out, Some error)
        | inr migration =>
            match client_query migration (snd st) with
            | inl error => (st, out, Some error)
            | inr schema' =>
                match insert_name file (fst st) with
                | inl error => (st, out, Some error)
                | inr names' =>
                    run_files appliedNames rest (names', schema')
                      (out ++ [Log ("Migration " ++ file ++ " completed")])
                end
            end
        end
  end.

(** [runMigrations()], for the names [fs.readdirSync(migrationsDir)]
    gives: the database and the output afterwards, and the error thrown,
    if one is. The connection is taken to work: [pool.connect()] and the
    statements of the service itself ([CREATE TABLE IF NOT EXISTS],
    [SELECT], [BEGIN], [COMMIT], [ROLLBACK]) succeed; what can fail is
    reading a file, running it, and recording it. *)
Definition runMigrations (dir : list string) (pg : Pg)
  : Pg * list Output * option Err :=
  let appliedNames := applied_names pg in
  let files := sort (filter is_migration_file dir) in
  match run_files appliedNames files (appliedNames, schema pg) [] with
  | (st, out, None) =>
      (mkPg (Some (fst st)) (snd st), out ++ [Release], None)
  | (st, out, Some error) =>
      (mkPg (Some (fst st)) (snd st),
       out ++ [LogError "Error running migrations:" error; Release],
       Some error)
  end.

(** The migrations [files], read and run one after the other. *)
Fixpoint run_all (files : list string) (s : Schema) : option Schema :=
  match files with
  | [] => Some s
  | file :: rest =>
      match readFileSync file with
      | inr migration =>
          match client_query migration s with
          | inr s' => run_all rest s'
          | inl _ => None
          end
      | inl _ => None
      end
  end.

(** Reading or running the migration [file] on [s] fails with [error]. *)
Definition fails_on (file : string) (s : Schema) (error : Err) : Prop :=
  readFileSync file = inl error
  \/ exists migration,
       readFileSync file = inr migration
       /\ client_query migration s = inl error.

End Run.

Arguments migrations {Schema} p.
Arguments schema {Schema} p.
Arguments mkPg {Schema} migrations schema.
Arguments Log {Err} line.
Arguments LogError {Err} message error.
Arguments Release {Err}.
Arguments applied_names {Schema} pg.

End Migrations.

(* ================================================================== *)
(** ** apps/minno-server: [app.ts] and [config.ts] around the routes *)
(* ================================================================== *)


(** The routes with the signing secret as [config.ts] gives it:
    [process.env.SLACK_SIGNING_SECRET!], which is [undefined] when the
    variable is not set; [validateConfig] refuses that in production
    only. *)
Module Configured.

Section Routes.
Local Open Scope handler_scope.

Variable hmac_sha256_hex : string -> string -> string.
Variable JSON_stringify : value -> string.
Variable JSON_parse : value -> completion value.
(** [config.slack.signingSecret] *)
Variable signingSecret : option string.

(** [crypto.createHmac('sha256', key).update(data).digest('hex')];
    [createHmac] throws when the key is [undefined]. *)
Definition createHmac_digest (key : option string) (data : string)
  : Handler string :=
  match key with
  | None =>
      throw (TypeError
               "The key argument must be of type string. Received undefined")
  | Some key =>
      emit (CreateHmac key data) ;;
      ret (hmac_sha256_hex key data)
  end.

(** middleware/slackVerify.ts *)
Definition slackVerify (next : Handler unit) (req : Request)
  : Handler unit :=
  let signature := header_lookup "x-slack-signature" (headers req) in
  let timestamp := header_lookup "x-slack-request-timestamp" (headers req) in
  if negb (truthy signature) || negb (truthy timestamp)
  then res_status_send 400 "Missing Slack signature headers"
  else
    let signature := as_string signature in
    let timestamp := as_string timestamp in
    ms <- read_clock ;;
    let time := Num (ms / 1000) in
    let requestTime := parseInt timestamp in
    if number_gt (Math_abs (number_sub time requestTime)) (Num 300)
    then res_status_send 400 "Request timestamp is too old"
    else
      let body := JSON_stringify (body req) in
      let sigBasestring := ("v0:" ++ timestamp ++ ":" ++ body)%string in
      digest <- createHmac_digest signingSecret sigBasestring ;;
      let mySignature := ("v0=" ++ digest)%string in
      try_catch
        (emit (TimingSafeEqual (Buffer_from signature)
                               (Buffer_from mySignature)) ;;
         equal <- lift (timingSafeEqual (Buffer_from signature)
                                        (Buffer_from mySignature)) ;;
         if equal : bool then next
         else res_status_send 401 "Invalid signature")
        (fun _ => res_status_send 401 "Invalid signature").

(** [router.post('/events', slackVerify, async (req, res) => ...)] *)
Definition post_events (req : Request) : Handler unit :=
  slackVerify (events_handler req) req.

(** [router.post('/interactive', slackVerify, async (req, res) => ...)] *)
Definition post_interactive (req : Request) : Handler unit :=
  slackVerify (interactive_handler JSON_parse req) req.

(** The request reaches the signature: both headers are there and not
    empty, and the timestamp passes the freshness test. *)
Definition reaches_signature (req : Request) (w : World)
           (signature T : string) : Prop :=
  header_lookup "x-slack-signature" (headers req) = Some signature
  /\ header_lookup "x-slack-request-timestamp" (headers req) = Some T
  /\ signature <> EmptyString /\ T <> EmptyString
  /\ too_old w T = false.

(** The request verifies: the secret is set, and the signature header is
    the signature computed under it. *)
Definition verifies (req : Request) (w : World)
           (key signature T : string) : Prop :=
  signingSecret = Some key
  /\ reaches_signature req w signature T
  /\ signature = mySignature hmac_sha256_hex JSON_stringify key T req.

End Routes.

End Configured.

(* ================================================================== *)
(** ** The text of a uuid *)
(* ================================================================== *)

(** [0-9a-f] *)
Definition is_lower_hex (c : ascii) : bool :=
  let n := N_of_ascii c in
  ((48 <=? n) && (n <=? 57) || (97 <=? n) && (n <=? 102))%N.

Fixpoint all_lower_hex (n : nat) (s : string) : option string :=
  match n, s with
  | O, rest => Some rest
  | S n', String c rest =>
      if is_lower_hex c then all_lower_hex n' rest else None
  | S _, EmptyString => None
  end.

(** A hyphen after the digits, or the end of the text when [last]. *)
Definition after_group (last : bool) (s : option string) : option string :=
  match s with
  | Some EmptyString => if last then Some EmptyString else None
  | Some (String c rest) =>
      if last then None
      else if Ascii.eqb c "-" then Some rest else None
  | None => None
  end.

Definition hex_group (n : nat) (last : bool) (s : option string)
  : option string :=
  match s with
  | Some r => after_group last (all_lower_hex n r)
  | None => None
  end.

(** The form in which the database prints a [UUID], and in which the
    ids of the rows are held: groups of 8, 4, 4, 4 and 12 lower-case
    hexadecimal digits with hyphens between. The database reads other
    spellings of a uuid too, and refuses a text that spells none. *)
Definition printed_uuid (s : string) : bool :=
  match
    hex_group 12 true
      (hex_group 4 false
         (hex_group 4 false
            (hex_group 4 false
               (hex_group 8 false (Some s)))))
  with
  | Some _ => true
  | None => false
  end.

(* ================================================================== *)
(** ** Sample data *)
(* ================================================================== *)

(** An envelope that is well formed in every respect except for the kind
    of its event, which is one Slack added later. *)
Definition channel_created_envelope : value :=
  VObject [
    ("token", VString "tok");
    ("team_id", VString "T1234567890");
    ("api_app_id", VString "A1");
    ("event", VObject [
       ("type", VString "channel_created");
       ("user", VString "U1");
       ("text", VString "hello");
       ("ts", VString "1700000000.000100");
       ("channel", VString "C1");
       ("event_ts", VString "1700000000.000100")]);
    ("type", VString "event_callback");
    ("event_id", VString "Ev1");
    ("event_time", VNumber 1700000000%float)].

(** Text between double quotes; the quote is character 34. *)
Definition quoted (s : string) : string :=
  String "034"%char (s ++ String "034"%char "")%string.

(** The handshake Slack sends when a URL is configured, and the text
    [JSON.stringify] gives for it. *)
Definition url_verification_body : value :=
  VObject [("type", VString "url_verification");
           ("challenge", VString "abc123")].

Definition url_verification_text : string :=
  ("{" ++ quoted "type" ++ ":" ++ quoted "url_verification" ++ ","
       ++ quoted "challenge" ++ ":" ++ quoted "abc123" ++ "}")%string.

Definition sample_secret : string := "8f742231b10e8888abcd99yyyzzz85a5".

(** The two library functions on the sample requests: [JSON.stringify] on
    the handshake body, and the HMAC-SHA256 digests, in hexadecimal, of
    the three base strings signed below under the sample secret. Outside
    these entries the tables hold a filler; the properties are proved for
    every pair of functions. *)
Definition sample_JSON_stringify (v : value) : string :=
  match v with
  | VObject [(k1, VString v1); (k2, VString v2)] =>
      if String.eqb k1 "type" && String.eqb v1 "url_verification"
         && String.eqb k2 "challenge" && String.eqb v2 "abc123"
      then url_verification_text
      else "null"
  | _ => "null"
  end.

Definition sample_hmac_sha256_hex (key data : string) : string :=
  if negb (String.eqb key sample_secret)
  then "0000000000000000000000000000000000000000000000000000000000000000"
  else if String.eqb data ("v0:1700000000:" ++ url_verification_text)
  then "0820d1f03f8e8c698eef6a014237b02c6e69159aa17a451e75c118119baa517d"
  else if String.eqb data ("v0:1699990000:" ++ url_verification_text)
  then "a706cd308dfabcaaa85a06199c06653dbcb92a123ab52f1ee22ae79d6597d8c1"
  else if String.eqb data ("v0:soon:" ++ url_verification_text)
  then "85148807f4dc57ee3eeac9cb40be86ea11092975d10dd117f8126916ca7ea5fd"
  else "0000000000000000000000000000000000000000000000000000000000000000".

Definition slack_request (signature timestamp : string) : Request :=
  mkRequest [("x-slack-signature", signature);
             ("x-slack-request-timestamp", timestamp)]
            url_verification_body.

(** Signed at 1700000000, two minutes before the clock of the sample
    world. *)
Definition signed_request : Request :=
  slack_request
    "v0=0820d1f03f8e8c698eef6a014237b02c6e69159aa17a451e75c118119baa517d"
    "1700000000".


(** Correctly signed, but nearly three hours before the clock. *)
Definition stale_request : Request :=
  slack_request
    "v0=a706cd308dfabcaaa85a06199c06653dbcb92a123ab52f1ee22ae79d6597d8c1"
    "1699990000".

Definition no_timestamp_request : Request :=
  mkRequest
    [("x-slack-signature",
      "v0=0820d1f03f8e8c698eef6a014237b02c6e69159aa17a451e75c118119baa517d")]
    url_verification_body.

Definition short_signature_request : Request :=
  slack_request "v0=abc" "1700000000".

(** Correctly signed over a timestamp header that holds no number. *)
Definition unparseable_timestamp_request : Request :=
  slack_request
    "v0=85148807f4dc57ee3eeac9cb40be86ea11092975d10dd117f8126916ca7ea5fd"
    "soon".

Definition acme : Workspaces.row :=
  Workspaces.mk "00000000-0000-0000-0000-000000000001" "T1234567890"
                "Acme Corp" (Some "notion-workspace-1")
                1697408000%Z 1699913600%Z.

(** A session that was completed, with a context and a Notion task. *)
Definition completed_session : MinnoSessions.row :=
  MinnoSessions.mk "10000000-0000-0000-0000-000000000001"
                   "00000000-0000-0000-0000-000000000001"
                   "C1234567890" "1699900000.000100"
                   (Some "notion-project-1") (Some "notion-task-1")
                   (Some [("lastMessageId", VString "msg-42")])
                   (Some completed)
                   1699900000%Z 1699903600%Z.

Definition sample_db : Database := mkDatabase [acme] [completed_session].

Definition sample_world : World := mkWorld sample_db 1700000123456 [].

(** An [app_mention] in its envelope, as the fields of the body. *)
Definition mention_props : list (string * value) :=
  [("token", VString "tok");
   ("team_id", VString "T1234567890");
   ("api_app_id", VString "A1");
   ("event", VObject [
      ("type", VString "app_mention");
      ("user", VString "U1");
      ("text", VString "<@U0> hello");
      ("ts", VString "1700000000.000100");
      ("channel", VString "C1");
      ("event_ts", VString "1700000000.000100")]);
   ("type", VString "event_callback");
   ("event_id", VString "Ev1");
   ("event_time", VNumber 1700000000%float)].

Definition mention_wrapper : SlackEventWrapper.t :=
  SlackEventWrapper.mk "tok" "T1234567890" "A1"
    (AppMention (AppMentionEvent.mk "U1" "<@U0> hello" "1700000000.000100"
                                    "C1" "1700000000.000100" None))
    "Ev1" 1700000000%float None.

(** A reply of a user in a thread. *)
Definition thread_reply : value :=
  VObject [("type", VString "message");
           ("user", VString "U1");
           ("text", VString "and another thing");
           ("ts", VString "1700000060.000200");
           ("channel", VString "C1");
           ("event_ts", VString "1700000060.000200");
           ("thread_ts", VString "1700000000.000100")].

Definition thread_reply_event : MessageEvent.t :=
  MessageEvent.mk None (Some "U1") "and another thing" "1700000060.000200"
                  "C1" "1700000060.000200" (Some "1700000000.000100") None.

(** What [conversations.replies] gave for a thread of two messages, the
    second one without its text. *)
Definition two_replies : RepliesResponse.t :=
  RepliesResponse.mk true None
    (Some [[("type", VString "message");
            ("text", VString "hello");
            ("user", VString "U1");
            ("ts", VString "1700000000.000100")];
           [("type", VString "message");
            ("user", VString "U1");
            ("ts", VString "1700000060.000200")]]).

(** The sample database with the two messages of the completed session
    and a second session, archived long ago, with one message. *)
Definition archived_session : MinnoSessions.row :=
  MinnoSessions.mk "10000000-0000-0000-0000-000000000002"
                   "00000000-0000-0000-0000-000000000001"
                   "C1234567890" "1690000000.000100"
                   None None None (Some archived)
                   1690000000%Z 1690003600%Z.

Definition question : ConversationMessages.row :=
  ConversationMessages.mk "20000000-0000-0000-0000-000000000001"
                          "10000000-0000-0000-0000-000000000001"
                          Role.user "What is left to do?" None
                          1699900100%Z (Some "1699900000.000100").

Definition answer : ConversationMessages.row :=
  ConversationMessages.mk "20000000-0000-0000-0000-000000000002"
                          "10000000-0000-0000-0000-000000000001"
                          Role.assistant "Two tasks are open." None
                          1699900200%Z None.

Definition old_note : ConversationMessages.row :=
  ConversationMessages.mk "20000000-0000-0000-0000-000000000003"
                          "10000000-0000-0000-0000-000000000002"
                          Role.system "archived" None
                          1690000100%Z None.

Definition sample_tables : Tables :=
  mkTables (mkDatabase [acme] [completed_session; archived_session])
           [question; answer; old_note].

(** A migrations directory, and a database that keeps the statements run
    on it: a file holds its own name as text, an unnumbered file is
    there too, and the statements of [003_broken.sql] fail. *)
Definition sample_dir : list string :=
  ["README.md"; "002_add_indexes.sql"; "001_init.sql"].

Definition broken_dir : list string :=
  ["003_broken.sql"; "004_later.sql"; "002_add_indexes.sql"].

Definition sample_readFileSync (file : string) : string + string :=
  inr file.

Definition sample_client_query (migration : string) (run : list string)
  : string + list string :=
  if String.eqb migration "003_broken.sql"
  then inl "syntax error"
  else inr (run ++ [migration]).

Definition sample_pg : Migrations.Pg (list string) :=
  Migrations.mkPg (Some ["001_init.sql"]) ["001_init.sql"].

(** The handshake as a client may spell it, with a space after each
    colon and comma; [JSON.parse] reads the same value from both
    spellings. *)
Definition url_verification_spaced_text : string :=
  ("{" ++ quoted "type" ++ ": " ++ quoted "url_verification" ++ ", "
       ++ quoted "challenge" ++ ": " ++ quoted "abc123" ++ "}")%string.


(** The table of digests with two more entries under the sample secret:
    for the spaced handshake signed at 1700000000, and for the handshake
    signed at 1699999823. *)
Definition sample_hmac_sha256_hex_more (key data : string) : string :=
  if String.eqb key sample_secret
     && String.eqb data ("v0:1700000000:" ++ url_verification_spaced_text)
  then "9db00ba41f486fcab4fab26a52eb60064e46847a52a7cb460e8763082ea8459d"
  else if String.eqb key sample_secret
          && String.eqb data ("v0:1699999823:" ++ url_verification_text)
  then "416bb17b1c02c782275b80763a38dfaa444d3e0e006b062295f06025d4338379"
  else sample_hmac_sha256_hex key data.



(** Correctly signed 300.456 seconds before the clock of the sample
    world. *)
Definition just_stale_request : Request :=
  slack_request
    "v0=416bb17b1c02c782275b80763a38dfaa444d3e0e006b062295f06025d4338379"
    "1699999823".

(* ================================================================== *)
(** * Properties *)
(* ================================================================== *)

(** ** The event schema fails closed *)

Section ZodFacts.
Import Zod.

Lemma strict_eq_string_true v lit :
  strict_eq_string v lit = true <-> v = VString lit.
Proof.
  destruct v; simpl; try (split; [discriminate | intros H; discriminate H]).
  rewrite String.eqb_eq. split; [intros -> | intros [= ->]]; reflexivity.
Qed.

Lemma literal_rejects lit p v :
  v <> VString lit -> is_failure (literal lit p v) = true.
Proof.
  intros H. unfold literal.
  destruct (strict_eq_string v lit) eqn:E; [|reflexivity].
  apply strict_eq_string_true in E. contradiction.
Qed.

Lemma ap_failure_l {A B} (tf : ZodType (A -> B)) (ta : ZodType A) p v :
  is_failure (tf p v) = true -> is_failure (ap tf ta p v) = true.
Proof.
  unfold ap. destruct (tf p v); [discriminate|].
  intros _. destruct (ta p v); reflexivity.
Qed.

Lemma ap_failure_r {A B} (tf : ZodType (A -> B)) (ta : ZodType A) p v :
  is_failure (ta p v) = true -> is_failure (ap tf ta p v) = true.
Proof.
  unfold ap. destruct (ta p v); [discriminate|].
  intros _. destruct (tf p v); reflexivity.
Qed.

Lemma object_failure {A} (shape : ZodType A) p v :
  (forall props, v = VObject props -> is_failure (shape p v) = true) ->
  is_failure (object shape p v) = true.
Proof.
  intros H. destruct v; try reflexivity. simpl. eapply H. reflexivity.
Qed.

Lemma field_failure {A} k (t : ZodType A) p v :
  is_failure (t (p ++ [Key k]) (prop v k)) = true ->
  is_failure (field k t p v) = true.
Proof. exact (fun H => H). Qed.

Lemma union_from_all_fail {A} (options : list (ZodType A)) p v :
  Forall (fun o => is_failure (o p v) = true) options ->
  forall errs, is_failure (union_from options errs p v) = true.
Proof.
  induction 1 as [|o rest Ho _ IH]; intros errs; simpl.
  - reflexivity.
  - destruct (o p v); [discriminate Ho | apply IH].
Qed.

Lemma union_all_fail {A} (options : list (ZodType A)) p v :
  Forall (fun o => is_failure (o p v) = true) options ->
  is_failure (union options p v) = true.
Proof. intros H. apply union_from_all_fail. exact H. Qed.

(** A shape whose first key is a literal tag fails on any other tag. *)
Ltac find_tag :=
  first [ solve [ apply ap_failure_r, field_failure, literal_rejects;
                  assumption ]
        | apply ap_failure_l; find_tag ].

Ltac tag_mismatch := apply object_failure; intros props ->; find_tag.

Lemma AppMentionEventSchema_tag p v :
  prop v "type" <> VString "app_mention" ->
  is_failure (AppMentionEventSchema p v) = true.
Proof. intros H. unfold AppMentionEventSchema. tag_mismatch. Qed.

Lemma MessageEventSchema_tag p v :
  prop v "type" <> VString "message" ->
  is_failure (MessageEventSchema p v) = true.
Proof. intros H. unfold MessageEventSchema. tag_mismatch. Qed.

Lemma ReactionAddedEventSchema_tag p v :
  prop v "type" <> VString "reaction_added" ->
  is_failure (ReactionAddedEventSchema p v) = true.
Proof. intros H. unfold ReactionAddedEventSchema. tag_mismatch. Qed.

Lemma SlackEventSchema_unknown_tag p v :
  ~ In (prop v "type") (map VString known_event_types) ->
  is_failure (SlackEventSchema p v) = true.
Proof.
  intros H. unfold SlackEventSchema. apply union_all_fail.
  repeat constructor; apply ap_failure_r.
  - apply AppMentionEventSchema_tag. intros E. apply H. simpl. auto.
  - apply MessageEventSchema_tag. intros E. apply H. simpl. auto.
  - apply ReactionAddedEventSchema_tag. intros E. apply H. simpl. auto.
Qed.

Lemma SlackEventWrapperSchema_unknown_tag p body :
  ~ In (prop (prop body "event") "type") (map VString known_event_types) ->
  is_failure (SlackEventWrapperSchema p body) = true.
Proof.
  intros H. unfold SlackEventWrapperSchema.
  apply object_failure; intros props ->.
  do 4 apply ap_failure_l.
  apply ap_failure_r, field_failure, SlackEventSchema_unknown_tag.
  exact H.
Qed.

End ZodFacts.

(** C1. Whatever the envelope, when the [type] of its nested event is not
    one of app_mention, message and reaction_added (also when the event or
    its type is missing or is not a string), [parseSlackEventWrapper]
    throws a validation error; it returns no envelope. *)
Theorem parseSlackEventWrapper_rejects_unknown_event_type :
  forall body : value,
    ~ In (prop (prop body "event") "type") (map VString known_event_types) ->
    exists issues,
      parseSlackEventWrapper body = Thrown (ZodErrorExn issues).
Proof.
  intros body H.
  pose proof (SlackEventWrapperSchema_unknown_tag [] body H) as F.
  unfold parseSlackEventWrapper, zod_parse, Zod.safeParse.
  destruct (SlackEventWrapperSchema [] body) as [d|issues].
  - discriminate F.
  - exists issues. reflexivity.
Qed.

Lemma parseSlackEventWrapper_rejects_unknown_event_type_witness :
  exists issues,
    parseSlackEventWrapper channel_created_envelope
    = Thrown (ZodErrorExn issues).
Proof.
  apply parseSlackEventWrapper_rejects_unknown_event_type.
  simpl. intros [E|[E|[E|[]]]]; discriminate E.
Defined.

(** The same envelope with a known kind is accepted, and the event comes
    back with the fields it was sent with. *)
Example parseSlackEventWrapper_accepts_mention :
  match
    parseSlackEventWrapper
      (VObject [
         ("token", VString "tok");
         ("team_id", VString "T1234567890");
         ("api_app_id", VString "A1");
         ("event", VObject [
            ("type", VString "app_mention");
            ("user", VString "U1");
            ("text", VString "hello");
            ("ts", VString "1700000000.000100");
            ("channel", VString "C1");
            ("event_ts", VString "1700000000.000100")]);
         ("type", VString "event_callback");
         ("event_id", VString "Ev1");
         ("event_time", VNumber 1700000000%float)])
  with
  | Returned w =>
      extractEvent w
      = AppMention (AppMentionEvent.mk "U1" "hello" "1700000000.000100" "C1"
                                       "1700000000.000100" None)
      /\ isAppMentionEvent (extractEvent w) = true
  | Thrown _ => False
  end.
Proof. vm_compute. split; reflexivity. Qed.

(** ** Thread replies *)

(** C5. A message whose [thread_ts] equals its own [ts] is the root of
    its thread and is not a thread message; a message that has a
    [thread_ts] different from its [ts] is one. *)
Theorem isThreadMessage_root_and_reply :
  forall event : MessageEvent.t,
    (MessageEvent.thread_ts event = Some (MessageEvent.ts event) ->
     isThreadMessage event = false)
    /\ (forall parent,
           MessageEvent.thread_ts event = Some parent ->
           parent <> MessageEvent.ts event ->
           isThreadMessage event = true).
Proof.
  intros event. unfold isThreadMessage. split.
  - intros ->. rewrite String.eqb_refl. reflexivity.
  - intros parent -> Hne.
    destruct (String.eqb_spec parent (MessageEvent.ts event)) as [E|_].
    + contradiction.
    + reflexivity.
Qed.

Lemma isThreadMessage_root_and_reply_witness :
  isThreadMessage
    (MessageEvent.mk None (Some "U1") "root" "1700000000.000100" "C1"
                     "1700000000.000100" (Some "1700000000.000100") None)
  = false
  /\ isThreadMessage
       (MessageEvent.mk None (Some "U1") "reply" "1700000050.000200" "C1"
                        "1700000050.000200" (Some "1700000000.000100") None)
     = true.
Proof.
  split.
  - apply (proj1 (isThreadMessage_root_and_reply _)). reflexivity.
  - apply (proj2 (isThreadMessage_root_and_reply _) "1700000000.000100").
    + reflexivity.
    + simpl. discriminate.
Defined.

(** ** Buffers, the comparator and bit flips *)

Lemma bytes_eqb_eq a b : bytes_eqb a b = true <-> a = b.
Proof.
  revert b. induction a as [|x a IH]; intros [|y b]; simpl;
    try (split; congruence).
  rewrite andb_true_iff, N.eqb_eq, IH.
  split; [intros [-> ->]; reflexivity | intros [= -> ->]; auto].
Qed.

Lemma N_of_ascii_inj c1 c2 : N_of_ascii c1 = N_of_ascii c2 -> c1 = c2.
Proof.
  intros E. rewrite <- (ascii_N_embedding c1), <- (ascii_N_embedding c2).
  now rewrite E.
Qed.

Lemma utf8_char_inj c1 c2 r1 r2 :
  utf8_char c1 ++ r1 = utf8_char c2 ++ r2 -> c1 = c2 /\ r1 = r2.
Proof.
  unfold utf8_char.
  assert (D1 := N.div_mod (N_of_ascii c1) 64 ltac:(discriminate)).
  assert (D2 := N.div_mod (N_of_ascii c2) 64 ltac:(discriminate)).
  remember (192 + N_of_ascii c1 / 64)%N as h1 eqn:Hh1.
  remember (128 + N_of_ascii c1 mod 64)%N as l1 eqn:Hl1.
  remember (192 + N_of_ascii c2 / 64)%N as h2 eqn:Hh2.
  remember (128 + N_of_ascii c2 mod 64)%N as l2 eqn:Hl2.
  destruct (N.ltb_spec (N_of_ascii c1) 128) as [L1|L1],
           (N.ltb_spec (N_of_ascii c2) 128) as [L2|L2];
    cbn [app]; intros E.
  - injection E as E1 E2. split; [apply N_of_ascii_inj|]; assumption.
  - exfalso. injection E as E1 _.
    pose proof (N.le_0_l (N_of_ascii c2 / 64)). subst. lia.
  - exfalso. injection E as E1 _.
    pose proof (N.le_0_l (N_of_ascii c1 / 64)). subst. lia.
  - injection E as E1 E2 E3. subst h1 h2 l1 l2.
    split; [apply N_of_ascii_inj; lia | assumption].
Qed.

Lemma utf8_char_not_nil c r : utf8_char c ++ r <> [].
Proof. unfold utf8_char. destruct (_ <? _)%N; discriminate. Qed.

Lemma Buffer_from_inj a : forall b, Buffer_from a = Buffer_from b -> a = b.
Proof.
  induction a as [|c a IH]; intros [|d b]; simpl; intros E.
  - reflexivity.
  - symmetry in E. now apply utf8_char_not_nil in E.
  - now apply utf8_char_not_nil in E.
  - apply utf8_char_inj in E as [-> E]. f_equal. now apply IH.
Qed.

Lemma timingSafeEqual_same s :
  timingSafeEqual (Buffer_from s) (Buffer_from s) = Returned true.
Proof.
  unfold timingSafeEqual. rewrite Nat.eqb_refl.
  f_equal. now apply bytes_eqb_eq.
Qed.

(** On different strings the comparator answers [false] or throws. *)
Lemma timingSafeEqual_diff a b :
  a <> b ->
  timingSafeEqual (Buffer_from a) (Buffer_from b) <> Returned true.
Proof.
  intros Hne. unfold timingSafeEqual.
  destruct (Nat.eqb _ _); [|discriminate].
  intros [= E]. apply bytes_eqb_eq, Buffer_from_inj in E. contradiction.
Qed.




Lemma parseInt_empty : parseInt "" = NaN.
Proof. reflexivity. Qed.

Example parseInt_samples :
  parseInt "1700000000" = Num 1700000000
  /\ parseInt "  42abc" = Num 42
  /\ parseInt "-17.9" = Num (-17)
  /\ parseInt "+5" = Num 5
  /\ parseInt "1e3" = Num 1
  /\ parseInt "soon" = NaN
  /\ parseInt "- 5" = NaN.
Proof. repeat split. Qed.

Example Buffer_from_samples :
  Buffer_from "v0=" = [118; 48; 61]%N
  /\ Buffer_from (String (ascii_of_nat 233) "") = [195; 169]%N.
Proof. split; reflexivity. Qed.

Example timingSafeEqual_samples :
  timingSafeEqual (Buffer_from "v0=abc") (Buffer_from "v0=abc")
  = Returned true
  /\ timingSafeEqual (Buffer_from "v0=abc") (Buffer_from "v0=abd")
     = Returned false
  /\ timingSafeEqual (Buffer_from "v0=abc") (Buffer_from "v0=abcd")
     = Thrown (RangeError "Input buffers must have the same byte length").
Proof. repeat split. Qed.

(** ** The signature verifier *)

Section VerifyFacts.

Variable hmac_sha256_hex : string -> string -> string.
Variable JSON_stringify : value -> string.
Variable signingSecret : string.

Local Open Scope Z_scope.

Local Notation "'verify'" :=
  (slackVerify hmac_sha256_hex JSON_stringify signingSecret).
Local Notation "'computed'" :=
  (mySignature hmac_sha256_hex JSON_stringify signingSecret).
Local Notation "'compared'" :=
  (comparison hmac_sha256_hex JSON_stringify signingSecret).

Lemma logged_logged w xs ys : logged (logged w xs) ys = logged w (xs ++ ys).
Proof. unfold logged. simpl. now rewrite app_assoc. Qed.

Lemma emit_logged a w : emit a w = (logged w [a], Returned tt).
Proof. reflexivity. Qed.

(** The headers are missing: 400, and nothing else happens. *)
Lemma slackVerify_missing next req w :
  truthy (header_lookup "x-slack-signature" (headers req)) = false
  \/ truthy (header_lookup "x-slack-request-timestamp" (headers req)) = false ->
  verify next req w
  = (logged w [ResSend 400 (BodyText "Missing Slack signature headers")],
     Returned tt).
Proof.
  intros H. unfold slackVerify.
  destruct H as [H|H]; rewrite H; [reflexivity|].
  rewrite orb_true_r. reflexivity.
Qed.

(** Both headers are there and the timestamp is too old: 400, and nothing
    else happens. *)
Lemma slackVerify_too_old next req w signature T :
  header_lookup "x-slack-signature" (headers req) = Some signature ->
  header_lookup "x-slack-request-timestamp" (headers req) = Some T ->
  signature <> "" -> T <> "" ->
  too_old w T = true ->
  verify next req w
  = (logged w [ResSend 400 (BodyText "Request timestamp is too old")],
     Returned tt).
Proof.
  intros Hs Ht Hs0 Ht0 Hold. unfold slackVerify. rewrite Hs, Ht.
  destruct signature as [|c1 s1]; [contradiction|].
  destruct T as [|c2 T']; [contradiction|].
  cbn [truthy negb orb as_string].
  unfold bind, read_clock. unfold too_old in Hold. rewrite Hold. reflexivity.
Qed.

(** Both headers are there and the timestamp passes the freshness test:
    the signature is computed and compared; [next] runs when it is the
    computed one, and the answer is 401 otherwise. *)
Lemma slackVerify_compares next req w signature T :
  header_lookup "x-slack-signature" (headers req) = Some signature ->
  header_lookup "x-slack-request-timestamp" (headers req) = Some T ->
  signature <> "" -> T <> "" ->
  too_old w T = false ->
  verify next req w
  = if String.eqb signature (computed T req)
    then next_in_try next (logged w (compared T signature req))
    else (logged w (compared T signature req ++ [invalid_signature]),
          Returned tt).
Proof.
  intros Hs Ht Hs0 Ht0 Hold. unfold slackVerify. rewrite Hs, Ht.
  destruct signature as [|c1 s1]; [contradiction|].
  destruct T as [|c2 T']; [contradiction|].
  cbn [truthy negb orb as_string].
  unfold bind at 1. unfold read_clock. unfold too_old in Hold. rewrite Hold.
  unfold bind at 1. rewrite emit_logged.
  unfold try_catch, bind. rewrite emit_logged, logged_logged.
  unfold lift, comparison, mySignature, sigBasestring, sign. cbn [app].
  set (mine := ("v0=" ++ hmac_sha256_hex signingSecret _)%string).
  set (sig := String c1 s1).
  destruct (String.eqb_spec sig mine) as [E|E].
  - rewrite E, timingSafeEqual_same. unfold next_in_try, try_catch.
    reflexivity.
  - pose proof (timingSafeEqual_diff sig mine E) as D.
    destruct (timingSafeEqual (Buffer_from sig) (Buffer_from mine))
      as [[|]|e].
    + contradiction D. reflexivity.
    + unfold res_status_send. rewrite emit_logged, logged_logged.
      reflexivity.
    + unfold res_status_send. rewrite emit_logged, logged_logged.
      reflexivity.
Qed.


Lemma too_old_true_stale w T t :
  parseInt T = Num t ->
  300 < Z.abs (Date_now w / 1000 - t) ->
  too_old w T = true.
Proof.
  intros HT Hstale. unfold too_old. rewrite HT. simpl.
  apply Z.ltb_lt. exact Hstale.
Qed.

Lemma too_old_false_NaN w T : parseInt T = NaN -> too_old w T = false.
Proof. intros HT. unfold too_old. rewrite HT. reflexivity. Qed.

Lemma parseInt_Num_nonempty T t : parseInt T = Num t -> T <> "".
Proof. intros H ->. discriminate H. Qed.

Lemma computed_nonempty T req : computed T req <> "".
Proof. unfold mySignature, sign. discriminate. Qed.




(** C3. A request without timestamp header, or whose timestamp is more
    than 300 seconds before or after the clock, is answered 400 whatever
    its signature header is; the next handler does not run, and the
    answer is given before any signature is computed or compared. *)
Theorem slackVerify_rejects_absent_or_stale_timestamp :
  forall (next : Handler unit) (req : Request) (w : World),
    (header_lookup "x-slack-request-timestamp" (headers req) = None
     \/ exists T t,
          header_lookup "x-slack-request-timestamp" (headers req) = Some T
          /\ parseInt T = Num t
          /\ 300 < Z.abs (Date_now w / 1000 - t)) ->
    exists message,
      verify next req w
      = (logged w [ResSend 400 (BodyText message)], Returned tt).
Proof.
  intros next req w [Hnone | (T & t & Ht & HT & Hstale)].
  - eexists. apply slackVerify_missing. right. rewrite Hnone. reflexivity.
  - destruct (header_lookup "x-slack-signature" (headers req))
      as [signature|] eqn:Hs.
    + destruct signature as [|c s].
      * eexists. apply slackVerify_missing. left. rewrite Hs. reflexivity.
      * eexists.
        apply (slackVerify_too_old next req w (String c s) T Hs Ht).
        -- discriminate.
        -- exact (parseInt_Num_nonempty T t HT).
        -- exact (too_old_true_stale w T t HT Hstale).
    + eexists. apply slackVerify_missing. left. rewrite Hs. reflexivity.
Qed.

(** C4. When the request reaches the comparison (both headers are there
    and the timestamp passes the freshness test) and the bytes of the
    signature header are not as many as those of the computed signature,
    the comparator throws, the exception is caught, and the answer is
    401. *)
Theorem slackVerify_length_mismatch_is_401 :
  forall (next : Handler unit) (req : Request) (w : World)
         (T signature : string),
    header_lookup "x-slack-signature" (headers req) = Some signature ->
    header_lookup "x-slack-request-timestamp" (headers req) = Some T ->
    signature <> "" -> T <> "" ->
    too_old w T = false ->
    List.length (Buffer_from signature)
    <> List.length (Buffer_from (computed T req)) ->
    (exists message,
        timingSafeEqual (Buffer_from signature) (Buffer_from (computed T req))
        = Thrown (RangeError message))
    /\ verify next req w
       = (logged w (compared T signature req ++ [invalid_signature]),
          Returned tt).
Proof.
  intros next req w T signature Hs Ht Hs0 Ht0 Hold Hlen. split.
  - unfold timingSafeEqual.
    destruct (Nat.eqb_spec (List.length (Buffer_from signature))
                (List.length (Buffer_from (computed T req)))) as [E|_].
    + contradiction.
    + eexists. reflexivity.
  - rewrite (slackVerify_compares next req w signature T Hs Ht); auto.
    destruct (String.eqb_spec signature (computed T req)) as [E|_].
    + exfalso. apply Hlen. rewrite E. reflexivity.
    + reflexivity.
Qed.

(** C10. When the timestamp header is there but [parseInt] finds no
    number in it, the freshness test does not reject the request: the
    comparison with 300 is false, no 400 is sent, and the signature is
    computed and compared as for a fresh timestamp. *)
Theorem slackVerify_unparseable_timestamp_not_rejected :
  forall (next : Handler unit) (req : Request) (w : World)
         (T signature : string),
    header_lookup "x-slack-signature" (headers req) = Some signature ->
    header_lookup "x-slack-request-timestamp" (headers req) = Some T ->
    signature <> "" -> T <> "" ->
    parseInt T = NaN ->
    too_old w T = false
    /\ verify next req w
       = if String.eqb signature (computed T req)
         then next_in_try next (logged w (compared T signature req))
         else (logged w (compared T signature req ++ [invalid_signature]),
               Returned tt).
Proof.
  intros next req w T signature Hs Ht Hs0 Ht0 HT.
  pose proof (too_old_false_NaN w T HT) as Hold.
  split; [exact Hold|].
  apply slackVerify_compares; assumption.
Qed.

(** ** The events route *)

(** C9. A POST to [/slack/events] that passes the verifier and whose body
    has [type] equal to url_verification is answered 200 with the JSON
    object whose [challenge] is the one of the body; nothing is sent or
    logged after that, and the database is the one before the request. *)
Theorem post_events_url_verification_echoes_challenge :
  forall (req : Request) (w : World) (T signature : string),
    header_lookup "x-slack-signature" (headers req) = Some signature ->
    header_lookup "x-slack-request-timestamp" (headers req) = Some T ->
    T <> "" ->
    too_old w T = false ->
    signature = computed T req ->
    prop (body req) "type" = VString "url_verification" ->
    post_events hmac_sha256_hex JSON_stringify signingSecret req w
    = (logged w
         (compared T signature req
          ++ [ResSend 200
                (BodyJson
                   (VObject [("challenge", prop (body req) "challenge")]))]),
       Returned tt)
    /\ db (fst (post_events hmac_sha256_hex JSON_stringify signingSecret
                            req w))
       = db w.
Proof.
  intros req w T signature Hs Ht Ht0 Hold Hsig Htype.
  assert (post_events hmac_sha256_hex JSON_stringify signingSecret req w
          = (logged w
               (compared T signature req
                ++ [ResSend 200
                      (BodyJson
                         (VObject
                            [("challenge", prop (body req) "challenge")]))]),
             Returned tt)) as E.
  { unfold post_events.
    rewrite (slackVerify_compares _ req w signature T Hs Ht); auto.
    - rewrite <- Hsig, String.eqb_refl.
      unfold next_in_try, events_handler, try_catch, bind, destructure.
      destruct (body req) as [| | | | |xs|props]; try discriminate Htype.
      unfold ret. rewrite Htype.
      cbn [strict_eq_string]. rewrite String.eqb_refl.
      unfold res_json. rewrite emit_logged, logged_logged. reflexivity.
    - rewrite Hsig. apply computed_nonempty. }
  split; [exact E|]. rewrite E. reflexivity.
Qed.

End VerifyFacts.

(** ** Upserts *)

Section UpdateConflicting.

Context {A K : Type} (key : A -> K) (k : K).
Context (conflicts : A -> bool) (set : A -> A).
Hypothesis conflicts_key : forall r, conflicts r = true <-> key r = k.
Hypothesis set_key : forall r, key (set r) = key r.

Lemma conflicts_false r : key r <> k -> conflicts r = false.
Proof.
  intros H. destruct (conflicts r) eqn:E; [|reflexivity].
  apply conflicts_key in E. contradiction.
Qed.

Lemma NoDup_key_unique (tbl : list A) a b :
  NoDup (map key tbl) -> In a tbl -> In b tbl -> key a = key b -> a = b.
Proof.
  induction tbl as [|x tbl IH]; simpl; intros ND Ha Hb E; [contradiction|].
  apply NoDup_cons_iff in ND as [Hx ND'].
  destruct Ha as [->|Ha], Hb as [->|Hb].
  - reflexivity.
  - exfalso. apply Hx. rewrite E. now apply in_map.
  - exfalso. apply Hx. rewrite <- E. now apply in_map.
  - now apply IH.
Qed.

Lemma filter_none (tbl : list A) :
  (forall r, In r tbl -> key r <> k) -> filter conflicts tbl = [].
Proof.
  induction tbl as [|x tbl IH]; simpl; intros H; [reflexivity|].
  rewrite (conflicts_false x) by (apply H; now left).
  apply IH. intros r Hr. apply H. now right.
Qed.

(** No row has the key: nothing conflicts. *)
Lemma update_conflicting_miss (tbl : list A) :
  (forall r, In r tbl -> key r <> k) ->
  update_conflicting conflicts set tbl = None.
Proof.
  induction tbl as [|x tbl IH]; simpl; intros H; [reflexivity|].
  rewrite (conflicts_false x) by (apply H; now left).
  rewrite IH; [reflexivity|]. intros r Hr. apply H. now right.
Qed.

(** A row has the key, and keys are unique: that row is updated in place,
    and it is then the only row with the key. *)
Lemma update_conflicting_hit (tbl : list A) r :
  NoDup (map key tbl) -> In r tbl -> key r = k ->
  exists tbl',
    update_conflicting conflicts set tbl = Some (tbl', set r)
    /\ map key tbl' = map key tbl
    /\ filter conflicts tbl' = [set r]
    /\ List.length tbl' = List.length tbl.
Proof.
  induction tbl as [|x tbl IH]; simpl; intros ND Hin Hk; [contradiction|].
  apply NoDup_cons_iff in ND as [Hx ND'].
  destruct (conflicts x) eqn:Cx.
  - apply conflicts_key in Cx.
    assert (x = r) as ->.
    { destruct Hin as [E|Hin]; [exact E|].
      exfalso. apply Hx. rewrite Cx, <- Hk. now apply in_map. }
    exists (set r :: tbl). simpl.
    rewrite set_key.
    rewrite (proj2 (conflicts_key (set r))) by (rewrite set_key; exact Hk).
    rewrite filter_none; [auto|].
    intros y Hy E. apply Hx. rewrite Hk, <- E. now apply in_map.
  - destruct Hin as [->|Hin].
    + apply conflicts_key in Hk. congruence.
    + destruct (IH ND' Hin Hk) as (tbl' & -> & Hkeys & Hfilter & Hlen).
      exists (x :: tbl'). simpl. rewrite Cx, Hkeys, Hfilter, Hlen. auto.
Qed.

(** Either way of the two. *)
Lemma key_present_or_absent (tbl : list A) :
  (exists r, In r tbl /\ key r = k) \/ (forall r, In r tbl -> key r <> k).
Proof.
  induction tbl as [|x tbl [(r & Hr & Hk)|IH]].
  - right. intros r [].
  - left. exists r. split; [now right | exact Hk].
  - destruct (conflicts x) eqn:Cx.
    + left. exists x. split; [now left | now apply conflicts_key].
    + right. intros r [->|Hr]; [|now apply IH].
      intros E. apply conflicts_key in E. congruence.
Qed.

(** A new row with the key, appended to a table without it. *)
Lemma append_new_row (tbl : list A) r :
  NoDup (map key tbl) -> (forall x, In x tbl -> key x <> k) -> key r = k ->
  NoDup (map key (tbl ++ [r])) /\ filter conflicts (tbl ++ [r]) = [r].
Proof.
  intros ND Habs Hk. split.
  - rewrite map_app. simpl.
    apply NoDup_app; [exact ND | repeat constructor; intros [] | ].
    intros y Hy [<-|[]].
    apply in_map_iff in Hy as (x & Ex & Hx).
    apply (Habs x Hx). now rewrite Ex.
  - rewrite filter_app, (filter_none tbl Habs). simpl.
    now rewrite (proj2 (conflicts_key r) Hk).
Qed.

End UpdateConflicting.

Section SessionServiceFacts.

Import SessionService.
Local Open Scope Z_scope.

Lemma team_is_key team r :
  team_is team r = true <-> Workspaces.slack_team_id r = team.
Proof. unfold team_is. apply String.eqb_eq. Qed.

Lemma thread_is_key c t r :
  thread_is c t r = true <-> thread_key r = (c, t).
Proof.
  unfold thread_is, thread_key.
  rewrite andb_true_iff, !String.eqb_eq.
  split; [intros [-> ->]; reflexivity | intros [= -> ->]; auto].
Qed.

Lemma workspace_do_update_key now p2 p3 r :
  Workspaces.slack_team_id (workspace_do_update now p2 p3 r)
  = Workspaces.slack_team_id r.
Proof. reflexivity. Qed.

Lemma minno_session_do_update_key now p4 p5 p6 p7 r :
  thread_key (minno_session_do_update now p4 p5 p6 p7 r) = thread_key r.
Proof. reflexivity. Qed.

(** What the statement of [upsertWorkspace] does to a table that obeys its
    uniqueness constraint. *)
Lemma upsert_workspace_sql_spec now new_id team name link tbl :
  unique_slack_team_id tbl ->
  let tbl' := fst (upsert_workspace_sql now new_id team name link tbl) in
  let r' := snd (upsert_workspace_sql now new_id team name link tbl) in
  unique_slack_team_id tbl'
  /\ select (team_is team) tbl' = [r']
  /\ ((exists r,
          In r tbl /\ Workspaces.slack_team_id r = team
          /\ r' = workspace_do_update now name link r
          /\ List.length tbl' = List.length tbl)
      \/ ((forall r, In r tbl -> Workspaces.slack_team_id r <> team)
          /\ r' = Workspaces.mk new_id team name link now now
          /\ tbl' = tbl ++ [r'])).
Proof.
  intros U. unfold upsert_workspace_sql.
  destruct (key_present_or_absent Workspaces.slack_team_id team
              (team_is team) (team_is_key team) tbl)
    as [(r & Hr & Hk)|Habs].
  - destruct (update_conflicting_hit Workspaces.slack_team_id team
                (team_is team) (workspace_do_update now name link)
                (team_is_key team) (workspace_do_update_key now name link)
                tbl r U Hr Hk) as (tbl' & -> & Hkeys & Hfilter & Hlen).
    simpl. unfold unique_slack_team_id. rewrite Hkeys.
    repeat split; [exact U | exact Hfilter |].
    left. exists r. auto.
  - rewrite (update_conflicting_miss Workspaces.slack_team_id team
               (team_is team) (workspace_do_update now name link)
               (team_is_key team) tbl Habs).
    simpl.
    destruct (append_new_row Workspaces.slack_team_id team (team_is team)
                (team_is_key team) tbl
                (Workspaces.mk new_id team name link now now) U Habs
                eq_refl) as [U' F].
    repeat split; [exact U' | exact F |].
    right. auto.
Qed.

(** What the statement of [upsertMinnoSession] does when a row of the
    thread exists. *)
Lemma upsert_minno_session_sql_conflict now new_id p1 p4 p5 p6 p7 db r :
  unique_slack_thread (minno_sessions db) ->
  In r (minno_sessions db) ->
  exists tbl',
    upsert_minno_session_sql now new_id p1
      (MinnoSessions.slack_channel_id r) (MinnoSessions.slack_thread_ts r)
      p4 p5 p6 p7 db
    = Returned (mkDatabase (workspaces db) tbl',
                minno_session_do_update now p4 p5 p6 p7 r)
    /\ unique_slack_thread tbl'
    /\ select (thread_is (MinnoSessions.slack_channel_id r)
                         (MinnoSessions.slack_thread_ts r)) tbl'
       = [minno_session_do_update now p4 p5 p6 p7 r]
    /\ List.length tbl' = List.length (minno_sessions db).
Proof.
  intros U Hr. unfold upsert_minno_session_sql.
  destruct (update_conflicting_hit thread_key
              (MinnoSessions.slack_channel_id r,
               MinnoSessions.slack_thread_ts r)
              (thread_is (MinnoSessions.slack_channel_id r)
                         (MinnoSessions.slack_thread_ts r))
              (minno_session_do_update now p4 p5 p6 p7)
              (thread_is_key _ _)
              (minno_session_do_update_key now p4 p5 p6 p7)
              (minno_sessions db) r U Hr eq_refl)
    as (tbl' & -> & Hkeys & Hfilter & Hlen).
  exists tbl'. unfold unique_slack_thread. rewrite Hkeys. auto.
Qed.

(** C8. Two calls of [upsertWorkspace] for one Slack team leave exactly
    one row of that team, whatever the table held before; the second
    call updates the row of the first: [updated_at] is the time of the
    second call, later than that of the first when the clock has moved
    on, the name is the one of the second call, and a second call without
    Notion workspace keeps the link the row had. *)
Theorem upsertWorkspace_twice_one_row_link_kept :
  forall (db : Database) (now1 now2 : Timestamp) (id1 id2 : UUID)
         (team name1 name2 : string) (link1 link2 : option string),
    unique_slack_team_id (workspaces db) ->
    let first := upsertWorkspace now1 id1 team name1 link1 db in
    let second := upsertWorkspace now2 id2 team name2 link2 (fst first) in
    List.length (select (team_is team) (workspaces (fst second))) = 1%nat
    /\ unique_slack_team_id (workspaces (fst second))
    /\ List.length (workspaces (fst second))
       = List.length (workspaces (fst first))
    /\ getWorkspaceBySlackTeamId team (fst second) = Some (snd second)
    /\ Workspace.id (snd second) = Workspace.id (snd first)
    /\ Workspace.createdAt (snd second) = Workspace.createdAt (snd first)
    /\ Workspace.updatedAt (snd first) = now1
    /\ Workspace.updatedAt (snd second) = now2
    /\ (now1 < now2 ->
        Workspace.updatedAt (snd first) < Workspace.updatedAt (snd second))
    /\ Workspace.slackTeamName (snd second) = name2
    /\ Workspace.notionWorkspaceId (snd second)
       = COALESCE link2 (Workspace.notionWorkspaceId (snd first))
    /\ (link2 = None ->
        Workspace.notionWorkspaceId (snd second)
        = Workspace.notionWorkspaceId (snd first)).
Proof.
  intros db now1 now2 id1 id2 team name1 name2 link1 link2 U.
  unfold upsertWorkspace, getWorkspaceBySlackTeamId.
  pose proof (upsert_workspace_sql_spec now1 id1 team name1 link1
                (workspaces db) U) as S1.
  destruct (upsert_workspace_sql now1 id1 team name1 link1 (workspaces db))
    as [tbl1 r1].
  cbn [fst snd] in S1. destruct S1 as (U1 & F1 & S1).
  cbn [fst snd workspaces].
  pose proof (upsert_workspace_sql_spec now2 id2 team name2 link2 tbl1 U1)
    as S2.
  destruct (upsert_workspace_sql now2 id2 team name2 link2 tbl1)
    as [tbl2 r2].
  cbn [fst snd] in S2. destruct S2 as (U2 & F2 & S2).
  cbn [fst snd workspaces].
  assert (In r1 tbl1 /\ Workspaces.slack_team_id r1 = team) as [In1 K1].
  { assert (In r1 (select (team_is team) tbl1)) as H
        by (rewrite F1; now left).
    apply filter_In in H as [H1 H2]. split; [exact H1|].
    now apply team_is_key. }
  assert (Workspaces.updated_at r1 = now1) as Up1.
  { destruct S1 as [(r & _ & _ & -> & _)|(_ & -> & _)]; reflexivity. }
  destruct S2 as [(r & Hr & Hk & -> & Hlen)|(Habs & _ & _)].
  - assert (r = r1) as ->.
    { apply (NoDup_key_unique Workspaces.slack_team_id tbl1); auto.
      congruence. }
    assert (Workspace.notionWorkspaceId
              (mapRowToWorkspace (workspace_do_update now2 name2 link2 r1))
            = COALESCE link2 (Workspace.notionWorkspaceId
                                (mapRowToWorkspace r1))) as Hlink
        by reflexivity.
    rewrite F2. cbn [List.length].
    repeat split; auto.
    + cbn. rewrite Up1. auto.
    + intros ->. exact Hlink.
  - exfalso. exact (Habs r1 In1 K1).
Qed.

(** The row of a thread that exists is merged into, for any [data]. *)
Lemma upsertMinnoSession_conflict now new_id workspaceId data db r :
  unique_slack_thread (minno_sessions db) ->
  In r (minno_sessions db) ->
  exists tbl',
    upsertMinnoSession now new_id workspaceId
      (MinnoSessions.slack_channel_id r) (MinnoSessions.slack_thread_ts r)
      data db
    = Returned
        (mkDatabase (workspaces db) tbl',
         mapRowToMinnoSession
           (minno_session_do_update now
              (data_field data SessionData.notionProjectId)
              (data_field data SessionData.notionTaskId)
              (data_field data SessionData.context)
              (Some (or_default (data_field data SessionData.status) active))
              r))
    /\ unique_slack_thread tbl'
    /\ select (thread_is (MinnoSessions.slack_channel_id r)
                         (MinnoSessions.slack_thread_ts r)) tbl'
       = [minno_session_do_update now
            (data_field data SessionData.notionProjectId)
            (data_field data SessionData.notionTaskId)
            (data_field data SessionData.context)
            (Some (or_default (data_field data SessionData.status) active))
            r]
    /\ List.length tbl' = List.length (minno_sessions db).
Proof.
  intros U Hr. unfold upsertMinnoSession.
  destruct (upsert_minno_session_sql_conflict now new_id workspaceId
              (data_field data SessionData.notionProjectId)
              (data_field data SessionData.notionTaskId)
              (data_field data SessionData.context)
              (Some (or_default (data_field data SessionData.status) active))
              db r U Hr) as (tbl' & -> & U' & F & L).
  exists tbl'. auto.
Qed.

(** C6. When a session of the thread exists, [upsertMinnoSession] for that
    thread with no context merges into the row of the thread: the table
    has as many rows as before and one for the thread, the row keeps the
    context it had, and it keeps its Notion project and task where the
    call gives none. *)
Theorem upsertMinnoSession_existing_thread_keeps_context_and_links :
  forall (db : Database) (r : MinnoSessions.row) (now : Timestamp)
         (new_id : UUID) (workspaceId : string)
         (data : option SessionData.t),
    unique_slack_thread (minno_sessions db) ->
    In r (minno_sessions db) ->
    data_field data SessionData.context = None ->
    exists db' s,
      upsertMinnoSession now new_id workspaceId
        (MinnoSessions.slack_channel_id r) (MinnoSessions.slack_thread_ts r)
        data db
      = Returned (db', s)
      /\ List.length (minno_sessions db') = List.length (minno_sessions db)
      /\ List.length
           (select (thread_is (MinnoSessions.slack_channel_id r)
                              (MinnoSessions.slack_thread_ts r))
                   (minno_sessions db')) = 1%nat
      /\ unique_slack_thread (minno_sessions db')
      /\ getMinnoSessionByThread (MinnoSessions.slack_channel_id r)
                                 (MinnoSessions.slack_thread_ts r) db'
         = Some s
      /\ MinnoSession.id s = MinnoSessions.id r
      /\ MinnoSession.context s = MinnoSessions.context r
      /\ (data_field data SessionData.notionProjectId = None ->
          MinnoSession.notionProjectId s = MinnoSessions.notion_project_id r)
      /\ (data_field data SessionData.notionTaskId = None ->
          MinnoSession.notionTaskId s = MinnoSessions.notion_task_id r).
Proof.
  intros db r now new_id workspaceId data U Hr Hctx.
  destruct (upsertMinnoSession_conflict now new_id workspaceId data db r U Hr)
    as (tbl' & E & U' & F & L).
  eexists. eexists. split; [exact E|].
  unfold getMinnoSessionByThread. cbn [minno_sessions]. rewrite F.
  repeat split; auto.
  - cbn. rewrite Hctx. reflexivity.
  - intros H. cbn. rewrite H. reflexivity.
  - intros H. cbn. rewrite H. reflexivity.
Qed.

(** With no status in the call, the row of an existing thread is given
    the status active, whatever status it had. *)
Lemma upsertMinnoSession_existing_thread_status :
  forall (db : Database) (r : MinnoSessions.row) (now : Timestamp)
         (new_id : UUID) (workspaceId : string)
         (data : option SessionData.t),
    unique_slack_thread (minno_sessions db) ->
    In r (minno_sessions db) ->
    exists db' s,
      upsertMinnoSession now new_id workspaceId
        (MinnoSessions.slack_channel_id r) (MinnoSessions.slack_thread_ts r)
        data db
      = Returned (db', s)
      /\ MinnoSession.status s
         = Some (or_default (data_field data SessionData.status) active).
Proof.
  intros db r now new_id workspaceId data U Hr.
  destruct (upsertMinnoSession_conflict now new_id workspaceId data db r U Hr)
    as (tbl' & E & _).
  eexists. eexists. split; [exact E|]. reflexivity.
Qed.

End SessionServiceFacts.

(** ** The properties on the sample data *)




(** A request signed 300.456 seconds before the clock reads, which is
    more than 300 seconds from the wall clock, is not answered 400: the
    clock of the middleware is in whole seconds, the difference it sees
    is 300, and the request is handed to the next handler. *)
Lemma slackVerify_passes_timestamp_300_456_seconds_old :
  (300 * 1000 < Date_now sample_world - 1699999823 * 1000)%Z
  /\ header_lookup "x-slack-request-timestamp" (headers just_stale_request)
     = Some "1699999823"
  /\ parseInt "1699999823" = Num 1699999823
  /\ slackVerify sample_hmac_sha256_hex_more sample_JSON_stringify
                 sample_secret (ret tt) just_stale_request sample_world
     = (logged sample_world
          (comparison sample_hmac_sha256_hex_more sample_JSON_stringify
             sample_secret "1699999823"
             "v0=416bb17b1c02c782275b80763a38dfaa444d3e0e006b062295f06025d4338379"
             just_stale_request),
        Returned tt).
Proof.
  split; [vm_compute; reflexivity|].
  split; [reflexivity|]. split; [vm_compute; reflexivity|].
  vm_compute. reflexivity.
Qed.

Lemma slackVerify_rejects_absent_or_stale_timestamp_witness :
  (exists message,
      slackVerify sample_hmac_sha256_hex sample_JSON_stringify sample_secret
                  (ret tt) no_timestamp_request sample_world
      = (logged sample_world [ResSend 400 (BodyText message)], Returned tt))
  /\ (exists message,
         slackVerify sample_hmac_sha256_hex sample_JSON_stringify
                     sample_secret (ret tt) stale_request sample_world
         = (logged sample_world [ResSend 400 (BodyText message)],
            Returned tt)).
Proof.
  split.
  - apply slackVerify_rejects_absent_or_stale_timestamp.
    left. reflexivity.
  - apply slackVerify_rejects_absent_or_stale_timestamp.
    right. exists "1699990000", 1699990000%Z.
    split; [reflexivity|]. split; [reflexivity|].
    vm_compute. reflexivity.
Defined.

Lemma slackVerify_length_mismatch_is_401_witness :
  (exists message,
      timingSafeEqual
        (Buffer_from "v0=abc")
        (Buffer_from
           (mySignature sample_hmac_sha256_hex sample_JSON_stringify
                        sample_secret "1700000000" short_signature_request))
      = Thrown (RangeError message))
  /\ slackVerify sample_hmac_sha256_hex sample_JSON_stringify sample_secret
                 (ret tt) short_signature_request sample_world
     = (logged sample_world
          (comparison sample_hmac_sha256_hex sample_JSON_stringify
             sample_secret "1700000000" "v0=abc" short_signature_request
           ++ [invalid_signature]),
        Returned tt).
Proof.
  apply slackVerify_length_mismatch_is_401.
  - reflexivity.
  - reflexivity.
  - discriminate.
  - discriminate.
  - reflexivity.
  - vm_compute. discriminate.
Defined.

Lemma slackVerify_unparseable_timestamp_not_rejected_witness :
  too_old sample_world "soon" = false
  /\ slackVerify sample_hmac_sha256_hex sample_JSON_stringify sample_secret
                 (ret tt) unparseable_timestamp_request sample_world
     = if String.eqb
            "v0=85148807f4dc57ee3eeac9cb40be86ea11092975d10dd117f8126916ca7ea5fd"
            (mySignature sample_hmac_sha256_hex sample_JSON_stringify
                         sample_secret "soon" unparseable_timestamp_request)
       then next_in_try (ret tt)
              (logged sample_world
                 (comparison sample_hmac_sha256_hex sample_JSON_stringify
                    sample_secret "soon"
                    "v0=85148807f4dc57ee3eeac9cb40be86ea11092975d10dd117f8126916ca7ea5fd"
                    unparseable_timestamp_request))
       else (logged sample_world
               (comparison sample_hmac_sha256_hex sample_JSON_stringify
                  sample_secret "soon"
                  "v0=85148807f4dc57ee3eeac9cb40be86ea11092975d10dd117f8126916ca7ea5fd"
                  unparseable_timestamp_request
                ++ [invalid_signature]),
             Returned tt).
Proof.
  apply slackVerify_unparseable_timestamp_not_rejected.
  - reflexivity.
  - reflexivity.
  - discriminate.
  - discriminate.
  - reflexivity.
Defined.

(** The request with the unparseable timestamp is in fact handed on: its
    signature is the computed one. *)
Example unparseable_timestamp_request_passes :
  log (fst (slackVerify sample_hmac_sha256_hex sample_JSON_stringify
                        sample_secret
                        (res_status_send_empty 200)
                        unparseable_timestamp_request sample_world))
  = comparison sample_hmac_sha256_hex sample_JSON_stringify sample_secret
      "soon"
      "v0=85148807f4dc57ee3eeac9cb40be86ea11092975d10dd117f8126916ca7ea5fd"
      unparseable_timestamp_request
    ++ [ResSend 200 BodyEmpty].
Proof. vm_compute. reflexivity. Qed.

(** The middleware signs the text [JSON.stringify] gives for the parsed
    body. The signature below is the HMAC-SHA256 signature of the same
    handshake written with a space after each colon and comma; a request
    that carries it is answered 401. *)
Example signature_over_other_spelling_is_401 :
  log (fst (slackVerify sample_hmac_sha256_hex sample_JSON_stringify
                        sample_secret (ret tt)
                        (slack_request
                           "v0=9db00ba41f486fcab4fab26a52eb60064e46847a52a7cb460e8763082ea8459d"
                           "1700000000")
                        sample_world))
  = comparison sample_hmac_sha256_hex sample_JSON_stringify sample_secret
      "1700000000"
      "v0=9db00ba41f486fcab4fab26a52eb60064e46847a52a7cb460e8763082ea8459d"
      signed_request
    ++ [invalid_signature].
Proof. vm_compute. reflexivity. Qed.

Lemma post_events_url_verification_echoes_challenge_witness :
  post_events sample_hmac_sha256_hex sample_JSON_stringify sample_secret
              signed_request sample_world
  = (logged sample_world
       (comparison sample_hmac_sha256_hex sample_JSON_stringify
          sample_secret "1700000000"
          "v0=0820d1f03f8e8c698eef6a014237b02c6e69159aa17a451e75c118119baa517d"
          signed_request
        ++ [ResSend 200
              (BodyJson (VObject [("challenge", VString "abc123")]))]),
     Returned tt)
  /\ db (fst (post_events sample_hmac_sha256_hex sample_JSON_stringify
                          sample_secret signed_request sample_world))
     = sample_db.
Proof.
  apply (post_events_url_verification_echoes_challenge
           sample_hmac_sha256_hex sample_JSON_stringify sample_secret
           signed_request sample_world "1700000000"
           "v0=0820d1f03f8e8c698eef6a014237b02c6e69159aa17a451e75c118119baa517d").
  - reflexivity.
  - reflexivity.
  - discriminate.
  - reflexivity.
  - reflexivity.
  - reflexivity.
Defined.

Lemma upsertWorkspace_twice_one_row_link_kept_witness :
  let first :=
    SessionService.upsertWorkspace 1700000000%Z "uuid-1" "T1234567890"
      "Acme Corp" None sample_db in
  let second :=
    SessionService.upsertWorkspace 1700000600%Z "uuid-2" "T1234567890"
      "Acme Corp" None (fst first) in
  List.length (select (SessionService.team_is "T1234567890")
                      (workspaces (fst second))) = 1%nat
  /\ Workspace.updatedAt (snd first) = 1700000000%Z
  /\ Workspace.updatedAt (snd second) = 1700000600%Z
  /\ Workspace.notionWorkspaceId (snd second) = Some "notion-workspace-1".
Proof.
  assert (unique_slack_team_id (workspaces sample_db)) as U.
  { unfold unique_slack_team_id. simpl. repeat constructor. intros []. }
  pose proof (upsertWorkspace_twice_one_row_link_kept
                sample_db 1700000000%Z 1700000600%Z "uuid-1" "uuid-2"
                "T1234567890" "Acme Corp" "Acme Corp" None None U) as H.
  cbv zeta in *.
  destruct H as (H1 & _ & _ & _ & _ & _ & H7 & H8 & _ & _ & H11 & _).
  split; [exact H1|]. split; [exact H7|]. split; [exact H8|].
  rewrite H11. reflexivity.
Defined.

Lemma upsertMinnoSession_existing_thread_keeps_context_and_links_witness :
  exists db' s,
    SessionService.upsertMinnoSession 1700000600%Z "uuid-3"
      "00000000-0000-0000-0000-000000000001"
      "C1234567890" "1699900000.000100" None sample_db
    = Returned (db', s)
    /\ List.length (minno_sessions db') = 1%nat
    /\ MinnoSession.context s = Some [("lastMessageId", VString "msg-42")]
    /\ MinnoSession.notionProjectId s = Some "notion-project-1"
    /\ MinnoSession.notionTaskId s = Some "notion-task-1".
Proof.
  assert (unique_slack_thread (minno_sessions sample_db)) as U.
  { unfold unique_slack_thread. simpl. repeat constructor. intros []. }
  destruct (upsertMinnoSession_existing_thread_keeps_context_and_links
              sample_db completed_session 1700000600%Z "uuid-3"
              "00000000-0000-0000-0000-000000000001" None
              U (or_introl eq_refl) eq_refl)
    as (db' & s & E & L & _ & _ & _ & _ & C & P & T).
  exists db', s. split; [exact E|].
  split; [exact L|]. split; [exact C|].
  split; [apply P | apply T]; reflexivity.
Defined.

(** C7. The session of the sample database is completed. A call of
    [upsertMinnoSession] for its thread that gives no status leaves it
    active: the stored status is not kept. *)
Theorem upsertMinnoSession_absent_status_resets_completed :
  In completed_session (minno_sessions sample_db)
  /\ MinnoSessions.status completed_session = Some completed
  /\ exists db' s,
       SessionService.upsertMinnoSession 1700000600%Z "uuid-3"
         "00000000-0000-0000-0000-000000000001"
         "C1234567890" "1699900000.000100" None sample_db
       = Returned (db', s)
       /\ MinnoSession.status s = Some active
       /\ SessionService.getMinnoSessionByThread
            "C1234567890" "1699900000.000100" db'
          = Some s.
Proof.
  split; [left; reflexivity|]. split; [reflexivity|].
  eexists. eexists. vm_compute. repeat split.
Qed.

(** On a thread without session the row is inserted, active unless the
    call says otherwise. *)
Example upsertMinnoSession_first_insert_defaults_active :
  match
    SessionService.upsertMinnoSession 1700000600%Z "uuid-4"
      "00000000-0000-0000-0000-000000000001"
      "C1234567890" "1700000500.000200" None sample_db
  with
  | Returned (db', s) =>
      MinnoSession.status s = Some active
      /\ List.length (minno_sessions db') = 2%nat
  | Thrown _ => False
  end.
Proof. vm_compute. split; reflexivity. Qed.

(** An event callback is acknowledged with an empty 200 before the event
    is looked at. *)
Example post_events_acknowledges_callback :
  log (fst (events_handler
              (mkRequest [] (VObject [("type", VString "event_callback");
                                      ("event", VString "e")]))
              sample_world))
  = [ResSend 200 BodyEmpty; ConsoleLog "Received Slack event:" (VString "e")].
Proof. reflexivity. Qed.

(* ================================================================== *)


(** * Further properties *)
(* ================================================================== *)

(** ** The verifier and the routes behind it *)

Section RouteFacts.

Variable hmac_sha256_hex : string -> string -> string.
Variable JSON_stringify : value -> string.
Variable signingSecret : string.
Variable JSON_parse : value -> completion value.

Local Open Scope Z_scope.

Local Notation "'verify'" :=
  (slackVerify hmac_sha256_hex JSON_stringify signingSecret).
Local Notation "'computed'" :=
  (mySignature hmac_sha256_hex JSON_stringify signingSecret).
Local Notation "'compared'" :=
  (comparison hmac_sha256_hex JSON_stringify signingSecret).

Lemma logged_nil w : logged w [] = w.
Proof. destruct w. unfold logged. simpl. now rewrite app_nil_r. Qed.

Lemma responses_app xs ys : responses (xs ++ ys) = responses xs ++ responses ys.
Proof. apply filter_app. Qed.

(** X3. A signature or timestamp header that is absent or empty is
    answered 400 at once: the clock is not read, nothing is signed or
    compared, and the next handler does not run. *)
Theorem slackVerify_absent_or_empty_header_is_400 :
  forall (next : Handler unit) (req : Request) (w : World),
    header_lookup "x-slack-signature" (headers req) = None
    \/ header_lookup "x-slack-signature" (headers req) = Some ""
    \/ header_lookup "x-slack-request-timestamp" (headers req) = None
    \/ header_lookup "x-slack-request-timestamp" (headers req) = Some "" ->
    verify next req w
    = (logged w [ResSend 400 (BodyText "Missing Slack signature headers")],
       Returned tt).
Proof.
  intros next req w H. apply slackVerify_missing.
  destruct H as [H|[H|[H|H]]]; rewrite H; auto.
Qed.

(** X6. A verified request of the events route that is not the handshake
    and has a body is acknowledged with an empty 200 before anything
    else; the event is logged after that, and only for an
    [event_callback]. *)
Theorem events_handler_acknowledges_first :
  forall (req : Request) (w : World),
    body req <> VNull -> body req <> VUndefined ->
    prop (body req) "type" <> VString "url_verification" ->
    exists rest,
      events_handler req w
      = (logged w (ResSend 200 BodyEmpty :: rest), Returned tt)
      /\ ((prop (body req) "type" = VString "event_callback"
           /\ rest = [ConsoleLog "Received Slack event:"
                                 (prop (body req) "event")])
          \/ (prop (body req) "type" <> VString "event_callback"
              /\ rest = [])).
Proof.
  intros req w Hnull Hundef Htype.
  assert (strict_eq_string (prop (body req) "type") "url_verification"
          = false) as Hv.
  { destruct (strict_eq_string _ _) eqn:E; [|reflexivity].
    apply strict_eq_string_true in E. contradiction. }
  assert (destructure (body req)
          = ret (prop (body req) "type", prop (body req) "challenge",
                 prop (body req) "event")) as Hd.
  { unfold destructure. destruct (body req); try reflexivity; contradiction. }
  unfold events_handler, try_catch, bind. rewrite Hd. unfold ret.
  rewrite Hv. unfold res_status_send_empty. rewrite emit_logged.
  destruct (strict_eq_string (prop (body req) "type") "event_callback")
    eqn:Hc.
  - apply strict_eq_string_true in Hc.
    rewrite emit_logged, logged_logged. eexists. split; [reflexivity|].
    left. auto.
  - unfold ret. eexists. split; [reflexivity|]. right. split; [|reflexivity].
    intros E. apply strict_eq_string_true in E. congruence.
Qed.

End RouteFacts.

(** ** The routes under [config.ts] *)

Section ConfiguredFacts.

Variable hmac_sha256_hex : string -> string -> string.
Variable JSON_stringify : value -> string.
Variable JSON_parse : value -> completion value.

Local Open Scope Z_scope.

Local Notation "'verify'" :=
  (Configured.slackVerify hmac_sha256_hex JSON_stringify).
Local Notation "'reaches'" := Configured.reaches_signature.
Local Notation "'verifies'" :=
  (Configured.verifies hmac_sha256_hex JSON_stringify).
Local Notation "'compared'" :=
  (comparison hmac_sha256_hex JSON_stringify).

(** With a secret the middleware is the one of the claims. *)
Lemma configured_some key next req w :
  verify (Some key) next req w
  = slackVerify hmac_sha256_hex JSON_stringify key next req w.
Proof.
  unfold Configured.slackVerify, slackVerify.
  destruct (negb _ || negb _); [reflexivity|].
  unfold bind, read_clock.
  destruct (number_gt _ _); reflexivity.
Qed.

Lemma configured_missing secret next req w :
  truthy (header_lookup "x-slack-signature" (headers req)) = false
  \/ truthy (header_lookup "x-slack-request-timestamp" (headers req)) = false ->
  verify secret next req w
  = (logged w [ResSend 400 (BodyText "Missing Slack signature headers")],
     Returned tt).
Proof.
  intros H. unfold Configured.slackVerify.
  destruct H as [H|H]; rewrite H; [reflexivity|].
  rewrite orb_true_r. reflexivity.
Qed.

Lemma configured_too_old secret next req w signature T :
  header_lookup "x-slack-signature" (headers req) = Some signature ->
  header_lookup "x-slack-request-timestamp" (headers req) = Some T ->
  signature <> "" -> T <> "" ->
  too_old w T = true ->
  verify secret next req w
  = (logged w [ResSend 400 (BodyText "Request timestamp is too old")],
     Returned tt).
Proof.
  intros Hs Ht Hs0 Ht0 Hold. unfold Configured.slackVerify. rewrite Hs, Ht.
  destruct signature as [|c1 s1]; [contradiction|].
  destruct T as [|c2 T']; [contradiction|].
  cbn [truthy negb orb as_string].
  unfold bind, read_clock. unfold too_old in Hold. rewrite Hold. reflexivity.
Qed.

(** Without a secret, a request that reaches the signature makes
    [createHmac] throw, outside the [try] block. *)
Lemma configured_unset_throws next req w signature T :
  reaches req w signature T ->
  verify None next req w
  = (w, Thrown (TypeError
                  "The key argument must be of type string. Received undefined")).
Proof.
  intros (Hs & Ht & Hs0 & Ht0 & Hold).
  unfold Configured.slackVerify. rewrite Hs, Ht.
  destruct signature as [|c1 s1]; [contradiction|].
  destruct T as [|c2 T']; [contradiction|].
  cbn [truthy negb orb as_string].
  unfold bind, read_clock. unfold too_old in Hold. rewrite Hold. reflexivity.
Qed.

(** The request reaches the signature, or is answered 400 before. *)
Lemma reaches_or_400 req w :
  (exists signature T, reaches req w signature T)
  \/ ((forall signature T, ~ reaches req w signature T)
      /\ exists message,
           forall secret next,
             verify secret next req w
             = (logged w [ResSend 400 (BodyText message)], Returned tt)).
Proof.
  destruct (header_lookup "x-slack-signature" (headers req))
    as [[|c1 s1]|] eqn:Hs;
    try (right; split;
         [ intros signature T (Hs' & _ & Hs0 & _); congruence
         | eexists; intros secret next; apply configured_missing; left;
           rewrite Hs; reflexivity ]).
  destruct (header_lookup "x-slack-request-timestamp" (headers req))
    as [[|c2 s2]|] eqn:Ht;
    try (right; split;
         [ intros signature T (_ & Ht' & _ & Ht0 & _); congruence
         | eexists; intros secret next; apply configured_missing; right;
           rewrite Ht; reflexivity ]).
  destruct (too_old w (String c2 s2)) eqn:Hold.
  - right. split.
    + intros signature T (_ & Ht' & _ & _ & Hold'). congruence.
    + eexists. intros secret next.
      apply (configured_too_old secret next req w _ _ Hs Ht);
        [discriminate | discriminate | exact Hold].
  - left. exists (String c1 s1), (String c2 s2).
    repeat split; auto; discriminate.
Qed.

(** The ways the middleware can go, for any secret and next handler. *)
Lemma configured_cases secret next req w :
  (exists key signature T,
      verifies secret req w key signature T
      /\ verify secret next req w
         = next_in_try next (logged w (compared key T signature req)))
  \/ (exists acts status message,
         (status = 400 \/ status = 401)
         /\ responses acts = []
         /\ (forall key signature T, ~ verifies secret req w key signature T)
         /\ (secret = None -> forall signature T, ~ reaches req w signature T)
         /\ forall next',
             verify secret next' req w
             = (logged w (acts ++ [ResSend status (BodyText message)]),
                Returned tt))
  \/ (secret = None
      /\ (exists signature T, reaches req w signature T)
      /\ exists message,
           forall next', verify secret next' req w
                         = (w, Thrown (TypeError message))).
Proof.
  destruct (reaches_or_400 req w)
    as [(signature & T & R)|(Hno & message & E)].
  - destruct secret as [key|].
    + pose proof R as (Hs & Ht & Hs0 & Ht0 & Hold).
      destruct (String.eqb_spec signature
                  (mySignature hmac_sha256_hex JSON_stringify key T req))
        as [Eq|Ne].
      * left. exists key, signature, T. split.
        -- split; [reflexivity|]. split; assumption.
        -- rewrite configured_some.
           rewrite (slackVerify_compares _ _ _ next req w _ _ Hs Ht);
             auto.
           rewrite Eq at 1. rewrite String.eqb_refl. reflexivity.
      * right. left.
        exists (compared key T signature req), 401, "Invalid signature".
        split; [now right|]. split; [reflexivity|]. split; [|split].
        -- intros key' signature' T' (Hk & (Hs' & Ht' & _) & Hsig).
           injection Hk as <-. congruence.
        -- discriminate.
        -- intros next'. rewrite configured_some.
           rewrite (slackVerify_compares _ _ _ next' req w _ _ Hs Ht);
             auto.
           destruct (String.eqb_spec signature
                       (mySignature hmac_sha256_hex JSON_stringify key T
                                    req)); [contradiction|].
           reflexivity.
    + right. right. split; [reflexivity|]. split; [eauto|].
      eexists. intros next'. exact (configured_unset_throws next' req w _ _ R).
  - right. left. exists [], 400, message.
    split; [now left|]. split; [reflexivity|]. split; [|split].
    + intros key signature T (_ & R & _). exact (Hno _ _ R).
    + intros _. exact Hno.
    + intros next'. apply E.
Qed.


(** X2. The middleware runs the next handler only for a request that
    verifies: the secret is set, both headers are there, the timestamp
    passes the freshness test and the signature header is the signature
    computed under the secret. Every other request is answered with one
    response, 400 or 401, that does not depend on the next handler, or,
    when the secret is not set and the request reaches the signature,
    ends in the [TypeError] of [createHmac] with nothing sent; in neither
    case does the next handler run. *)
Theorem slackVerify_hands_on_only_verified :
  forall (secret : option string) (next : Handler unit) (req : Request)
         (w : World),
    (exists key signature T,
        Configured.verifies hmac_sha256_hex JSON_stringify secret req w
                            key signature T
        /\ Configured.slackVerify hmac_sha256_hex JSON_stringify secret
                                  next req w
           = next_in_try next
               (logged w
                  (comparison hmac_sha256_hex JSON_stringify key T
                              signature req)))
    \/ (exists acts status message,
           (status = 400 \/ status = 401)
           /\ responses acts = []
           /\ (forall key signature T,
                  ~ Configured.verifies hmac_sha256_hex JSON_stringify
                      secret req w key signature T)
           /\ forall next',
               Configured.slackVerify hmac_sha256_hex JSON_stringify secret
                                      next' req w
               = (logged w (acts ++ [ResSend status (BodyText message)]),
                  Returned tt))
    \/ (secret = None
        /\ (exists signature T,
               Configured.reaches_signature req w signature T)
        /\ exists message,
             forall next',
               Configured.slackVerify hmac_sha256_hex JSON_stringify secret
                                      next' req w
               = (w, Thrown (TypeError message))).
Proof.
  intros secret next req w.
  destruct (configured_cases secret next req w)
    as [H|[(acts & status & message & H1 & H2 & H3 & _ & H5)|H]].
  - left. exact H.
  - right. left. exists acts, status, message. auto.
  - right. right. exact H.
Qed.

(** What the handler of the events route does, by the body. *)
Lemma events_handler_run req w :
  exists acts,
    events_handler req w = (logged w acts, Returned tt)
    /\ (List.length (responses acts) <= 1)%nat
    /\ (forall status payload,
           In (ResSend status payload) acts -> status = 200)
    /\ (responses acts = [] <-> body req = VNull \/ body req = VUndefined).
Proof.
  unfold events_handler, try_catch, bind, destructure.
  destruct (body req) as [| |b|x|s|xs|props] eqn:Hb;
    try (eexists; split; [reflexivity|]; cbn;
         split; [lia|]; split;
         [intros ? ? [E|[]]; discriminate E | split; auto]).
  all: unfold ret; cbn [prop];
    match goal with
    | |- context [strict_eq_string ?t "url_verification"] =>
        destruct (strict_eq_string t "url_verification")
    end;
    [ eexists; split; [reflexivity|]; cbn; split; [lia|]; split;
      [ intros ? ? [E|[]]; now inversion E
      | split; [discriminate | intros [E|E]; discriminate E] ]
    | match goal with
      | |- context [strict_eq_string ?t "event_callback"] =>
          destruct (strict_eq_string t "event_callback")
      end;
      ( eexists; unfold res_status_send_empty;
        rewrite !emit_logged, ?logged_logged;
        split; [reflexivity|]; cbn; split; [lia|]; split;
        [ intros ? ? H;
          repeat (destruct H as [H|H]; [now inversion H|]); destruct H
        | split; [discriminate | intros [E|E]; discriminate E] ] ) ].
Qed.

(** What the handler of the interactive route does. *)
Lemma interactive_handler_run req w :
  exists acts,
    interactive_handler JSON_parse req w = (logged w acts, Returned tt)
    /\ (List.length (responses acts) <= 1)%nat
    /\ (forall status payload,
           In (ResSend status payload) acts -> status = 200)
    /\ (responses acts = [] <->
        body req = VNull \/ body req = VUndefined
        \/ exists e, JSON_parse (prop (body req) "payload") = Thrown e)
    /\ (responses acts = [] ->
        exists e,
          acts = [ConsoleError "Error handling Slack interactive event:" e]).
Proof.
  unfold interactive_handler, try_catch, bind, member.
  destruct (body req) as [| |b|x|s|xs|props] eqn:Hb;
    try (eexists; split; [reflexivity|]; cbn;
         split; [lia|]; split;
         [intros ? ? [E|[]]; discriminate E
         | split; [split; auto | intros _; eexists; reflexivity]]).
  all: unfold ret, lift;
    match goal with
    | |- context [JSON_parse ?t] => destruct (JSON_parse t) as [payload|e] eqn:P
    end;
    [ eexists; unfold res_status_send_empty;
      rewrite !emit_logged, ?logged_logged;
      split; [reflexivity|]; cbn; split; [lia|]; split;
      [ intros ? ? H;
        repeat (destruct H as [H|H]; [now inversion H|]); destruct H
      | split;
        [ split;
          [ discriminate
          | intros [E|[E|(e & E)]]; discriminate E ]
        | discriminate ] ]
    | eexists; rewrite emit_logged; split; [reflexivity|]; cbn;
      split; [lia|]; split;
      [ intros ? ? [E|[]]; discriminate E
      | split;
        [ split; [intros _; right; right; exists e; reflexivity | reflexivity]
        | intros _; eexists; reflexivity ] ] ].
Qed.

(** A route behind the middleware whose handler returns after at most
    one response, with status 200, and is silent in one case. *)
Lemma configured_route_run (handler : Handler unit) (silent : Prop)
      secret req w :
  (forall w1, exists acts,
      handler w1 = (logged w1 acts, Returned tt)
      /\ (List.length (responses acts) <= 1)%nat
      /\ (forall status payload,
             In (ResSend status payload) acts -> status = 200)
      /\ (responses acts = [] <-> silent)) ->
  exists acts result,
    verify secret handler req w = (logged w acts, result)
    /\ (List.length (responses acts) <= 1)%nat
    /\ (forall status payload,
           In (ResSend status payload) acts ->
           status = 200 \/ status = 400 \/ status = 401)
    /\ (result = Returned tt
        \/ (acts = [] /\ exists message, result = Thrown (TypeError message)))
    /\ (result <> Returned tt <->
        secret = None /\ exists signature T, reaches req w signature T)
    /\ (result = Returned tt ->
        (responses acts = [] <->
         (exists key signature T, verifies secret req w key signature T)
         /\ silent))
    /\ (forall key signature T,
           verifies secret req w key signature T ->
           exists acts',
             handler (logged w (compared key T signature req))
             = (logged (logged w (compared key T signature req)) acts',
                Returned tt)
             /\ acts = compared key T signature req ++ acts').
Proof.
  intros Hh.
  destruct (configured_cases secret handler req w)
    as [(key & signature & T & V & E)
       |[(pre & status & message & Hst & Hpre & Hnv & Hnr & E)
        |(Hnone & Hr & message & E)]].
  - rewrite E. unfold next_in_try, try_catch.
    destruct (Hh (logged w (compared key T signature req)))
      as (acts & Ea & Hlen & Hstat & Hsilent).
    rewrite Ea.
    exists (compared key T signature req ++ acts), (Returned tt).
    rewrite logged_logged, responses_app.
    change (responses (compared key T signature req)) with (@nil Action).
    cbn [app].
    split; [reflexivity|]. split; [exact Hlen|].
    split; [|split; [now left|split; [|split]]].
    + intros status payload Hin. apply in_app_or in Hin as [Hin|Hin].
      * destruct Hin as [Hin|[Hin|[]]]; discriminate Hin.
      * left. exact (Hstat _ _ Hin).
    + split; [intros H; now contradiction H|].
      intros (Hnone & _). destruct V as (Hk & _). congruence.
    + intros _. rewrite Hsilent. split; [|tauto].
      intros Hs. split; [eauto|exact Hs].
    + intros key' signature' T' V'.
      destruct V as (Hk & (Hs & Ht & _) & Hsig).
      destruct V' as (Hk' & (Hs' & Ht' & _) & Hsig').
      assert (key' = key) as -> by congruence.
      assert (signature' = signature) as -> by congruence.
      assert (T' = T) as -> by congruence.
      exists acts. split; [exact Ea|reflexivity].
  - exists (pre ++ [ResSend status (BodyText message)]), (Returned tt).
    rewrite responses_app, Hpre.
    split; [apply E|]. split; [cbn; lia|].
    split; [|split; [now left|split; [|split]]].
    + intros status' payload Hin. apply in_app_or in Hin as [Hin|Hin].
      * exfalso.
        assert (In (ResSend status' payload) (responses pre)) as H
            by (apply filter_In; split; [exact Hin | reflexivity]).
        rewrite Hpre in H. exact H.
      * destruct Hin as [Hin|[]]. inversion Hin; subst.
        destruct Hst; auto.
    + split; [intros H; now contradiction H|].
      intros (Hnone & signature & T & R). exfalso. exact (Hnr Hnone _ _ R).
    + intros _. split; [discriminate|].
      intros ((key & signature & T & V) & _). exfalso. exact (Hnv _ _ _ V).
    + intros key signature T V. exfalso. exact (Hnv _ _ _ V).
  - exists [], (Thrown (TypeError message)).
    rewrite logged_nil. split; [apply E|]. split; [cbn; lia|].
    split; [intros ? ? []|].
    split; [right; split; [reflexivity|eauto]|]. split; [|split].
    + split; [auto|discriminate].
    + discriminate.
    + intros key signature T (Hk & _). congruence.
Qed.

(** X4. [POST /slack/events] sends at most one response, with status
    200, 400 or 401, and leaves the database as it was. It returns
    without an exception unless the signing secret is not set and the
    request reaches the signature: then, and only then, the [TypeError]
    of [createHmac] leaves the route, with nothing sent. When the route
    returns, no response has been sent exactly when the request verifies
    and its body is [null] or [undefined]. *)
Theorem post_events_one_response_at_most :
  forall (secret : option string) (req : Request) (w : World),
    exists acts result,
      Configured.post_events hmac_sha256_hex JSON_stringify secret req w
      = (logged w acts, result)
      /\ (List.length (responses acts) <= 1)%nat
      /\ (forall status payload,
             In (ResSend status payload) acts ->
             status = 200 \/ status = 400 \/ status = 401)
      /\ (result = Returned tt
          \/ (acts = []
              /\ exists message, result = Thrown (TypeError message)))
      /\ (result <> Returned tt <->
          secret = None
          /\ exists signature T,
               Configured.reaches_signature req w signature T)
      /\ (result = Returned tt ->
          (responses acts = [] <->
           (exists key signature T,
               Configured.verifies hmac_sha256_hex JSON_stringify secret
                                   req w key signature T)
           /\ (body req = VNull \/ body req = VUndefined)))
      /\ db (fst (Configured.post_events hmac_sha256_hex JSON_stringify
                                         secret req w))
         = db w.
Proof.
  intros secret req w. unfold Configured.post_events.
  destruct (configured_route_run (events_handler req)
              (body req = VNull \/ body req = VUndefined) secret req w
              (events_handler_run req))
    as (acts & result & E & H1 & H2 & H3 & H4 & H5 & _).
  exists acts, result. rewrite E. auto 10.
Qed.

(** X5. [POST /slack/interactive] sends at most one response, with
    status 200, 400 or 401, and returns without an exception unless the
    signing secret is not set and the request reaches the signature.
    When it returns, no response has been sent exactly when the request
    verifies and its body is [null] or [undefined] or [JSON.parse]
    throws on its [payload]; and then the error is logged after the
    comparison of the signatures, and nothing else is done. *)
Theorem post_interactive_one_response_at_most :
  forall (secret : option string) (req : Request) (w : World),
    exists acts result,
      Configured.post_interactive hmac_sha256_hex JSON_stringify JSON_parse
                                  secret req w
      = (logged w acts, result)
      /\ (List.length (responses acts) <= 1)%nat
      /\ (forall status payload,
             In (ResSend status payload) acts ->
             status = 200 \/ status = 400 \/ status = 401)
      /\ (result = Returned tt
          \/ (acts = []
              /\ exists message, result = Thrown (TypeError message)))
      /\ (result <> Returned tt <->
          secret = None
          /\ exists signature T,
               Configured.reaches_signature req w signature T)
      /\ (result = Returned tt ->
          (responses acts = [] <->
           (exists key signature T,
               Configured.verifies hmac_sha256_hex JSON_stringify secret
                                   req w key signature T)
           /\ (body req = VNull \/ body req = VUndefined
               \/ exists e,
                    JSON_parse (prop (body req) "payload") = Thrown e)))
      /\ (forall key signature T,
             Configured.verifies hmac_sha256_hex JSON_stringify secret
                                 req w key signature T ->
             body req = VNull \/ body req = VUndefined
             \/ (exists e,
                    JSON_parse (prop (body req) "payload") = Thrown e) ->
             exists e,
               acts
               = comparison hmac_sha256_hex JSON_stringify key T signature
                            req
                 ++ [ConsoleError "Error handling Slack interactive event:"
                                  e]).
Proof.
  intros secret req w. unfold Configured.post_interactive.
  destruct (configured_route_run (interactive_handler JSON_parse req)
              (body req = VNull \/ body req = VUndefined
               \/ exists e, JSON_parse (prop (body req) "payload") = Thrown e)
              secret req w)
    as (acts & result & E & H1 & H2 & H3 & H4 & H5 & H6).
  { intros w1.
    destruct (interactive_handler_run req w1)
      as (acts & Ea & Hlen & Hstat & Hsilent & _).
    exists acts. auto. }
  exists acts, result. rewrite E.
  split; [reflexivity|]. split; [exact H1|]. split; [exact H2|].
  split; [exact H3|]. split; [exact H4|]. split; [exact H5|].
  intros key signature T V Hsilent.
  destruct (H6 key signature T V) as (acts' & Ea & ->).
  destruct (interactive_handler_run req
              (logged w (compared key T signature req)))
    as (acts2 & Ea2 & _ & _ & Hs2 & Hlog).
  rewrite Ea in Ea2. injection Ea2 as Eq.
  assert (acts' = acts2) as ->.
  { unfold logged in Eq. cbn [log db Date_now] in Eq.
    try (injection Eq as Eq). now apply app_inv_head in Eq. }
  destruct (Hlog (proj2 Hs2 Hsilent)) as (e & ->).
  exists e. reflexivity.
Qed.

End ConfiguredFacts.

(** ** The schemas accept exactly the payloads that hold the fields *)

Section DecodeFacts.
Import Zod.

Lemma ap_success_inv {A B} (tf : ZodType (A -> B)) (ta : ZodType A) p v b :
  ap tf ta p v = success b ->
  exists f a, tf p v = success f /\ ta p v = success a /\ b = f a.
Proof.
  unfold ap. destruct (tf p v) as [f|e1], (ta p v) as [a|e2]; simpl;
    intros H; try discriminate H.
  injection H as <-. exists f, a. auto.
Qed.

Lemma ap_success {A B} (tf : ZodType (A -> B)) (ta : ZodType A) p v f a :
  tf p v = success f -> ta p v = success a -> ap tf ta p v = success (f a).
Proof. unfold ap. intros -> ->. reflexivity. Qed.

Lemma field_string_inv k p v s :
  field k string p v = success s -> prop v k = VString s.
Proof.
  unfold field, string. destruct (prop v k); intros H; try discriminate H.
  now injection H as ->.
Qed.

Lemma field_string k p v s :
  prop v k = VString s -> field k string p v = success s.
Proof. unfold field, string. now intros ->. Qed.

Lemma field_literal_inv k lit p v s :
  field k (literal lit) p v = success s -> prop v k = VString lit.
Proof.
  unfold field, literal.
  destruct (strict_eq_string (prop v k) lit) eqn:E; intros H;
    [|discriminate H].
  now apply strict_eq_string_true.
Qed.

Lemma field_literal k lit p v :
  prop v k = VString lit -> field k (literal lit) p v = success lit.
Proof.
  unfold field, literal. intros ->. simpl. now rewrite String.eqb_refl.
Qed.

Lemma field_optional_string_inv k p v o :
  field k (optional string) p v = success o -> optional_string (prop v k) o.
Proof.
  unfold field, optional, string.
  destruct (prop v k); simpl; intros H; try discriminate H;
    injection H as <-; reflexivity.
Qed.

Lemma field_optional_string k p v o :
  optional_string (prop v k) o -> field k (optional string) p v = success o.
Proof.
  unfold field, optional, string, optional_string.
  destruct o; intros ->; reflexivity.
Qed.

Lemma object_success_inv {A} (shape : ZodType A) p v a :
  object shape p v = success a ->
  (exists props, v = VObject props) /\ shape p v = success a.
Proof.
  unfold object. destruct v; intros H; try discriminate H.
  split; [eexists; reflexivity | exact H].
Qed.

Lemma union_from_success {A} (options : list (ZodType A)) p v a :
  forall errs,
    union_from options errs p v = success a ->
    exists o, In o options /\ o p v = success a.
Proof.
  induction options as [|o rest IH]; simpl; intros errs H.
  - discriminate H.
  - destruct (o p v) as [d|e] eqn:E.
    + injection H as ->. exists o. auto.
    + destruct (IH _ H) as (o' & Hin & Ho'). exists o'. auto.
Qed.

(** Take a successful shape apart, key by key. *)
Ltac peel H :=
  lazymatch type of H with
  | ap (pure _) _ _ _ = success _ =>
      let f := fresh "f" in
      let a := fresh "a" in
      let Hf := fresh "Hf" in
      apply ap_success_inv in H; destruct H as (f & a & Hf & H & ->);
      injection Hf as <-
  | ap _ _ _ _ = success _ =>
      let f := fresh "f" in
      let a := fresh "a" in
      let Hf := fresh "Hf" in
      apply ap_success_inv in H; destruct H as (f & a & Hf & H & ->);
      peel Hf
  end.

Ltac read_fields :=
  repeat match goal with
    | H : field _ string _ _ = success _ |- _ =>
        apply field_string_inv in H
    | H : field _ (literal _) _ _ = success _ |- _ =>
        apply field_literal_inv in H
    | H : field _ (optional string) _ _ = success _ |- _ =>
        apply field_optional_string_inv in H
    end.

Lemma AppMentionEventSchema_inv p v e :
  AppMentionEventSchema p v = success e ->
  (exists props, v = VObject props) /\ app_mention_fields v e.
Proof.
  unfold AppMentionEventSchema. intros H.
  apply object_success_inv in H as [Hobj H]. split; [exact Hobj|].
  peel H. read_fields. unfold app_mention_fields. simpl. auto 10.
Qed.

Lemma MessageEventSchema_inv p v e :
  MessageEventSchema p v = success e ->
  (exists props, v = VObject props) /\ message_fields v e.
Proof.
  unfold MessageEventSchema. intros H.
  apply object_success_inv in H as [Hobj H]. split; [exact Hobj|].
  peel H. read_fields. unfold message_fields. simpl. auto 12.
Qed.

Lemma ReactionItemSchema_inv p v i :
  ReactionItemSchema p v = success i ->
  (exists props, v = VObject props)
  /\ prop v "type" = VString (ReactionItem.type i)
  /\ prop v "channel" = VString (ReactionItem.channel i)
  /\ prop v "ts" = VString (ReactionItem.ts i).
Proof.
  unfold ReactionItemSchema. intros H.
  apply object_success_inv in H as [Hobj H]. split; [exact Hobj|].
  peel H. read_fields. simpl. auto.
Qed.

Lemma ReactionAddedEventSchema_inv p v e :
  ReactionAddedEventSchema p v = success e ->
  (exists props, v = VObject props) /\ reaction_added_fields v e.
Proof.
  unfold ReactionAddedEventSchema. intros H.
  apply object_success_inv in H as [Hobj H]. split; [exact Hobj|].
  peel H. read_fields.
  match goal with
  | Hi : field "item" ReactionItemSchema _ _ = success _ |- _ =>
      unfold field in Hi; apply ReactionItemSchema_inv in Hi;
      destruct Hi as (Hio & Hi1 & Hi2 & Hi3)
  end.
  unfold reaction_added_fields. simpl. auto 12.
Qed.

(** Fill a shape in from the fields of the payload. *)
Ltac fill_fields :=
  unfold ap, pure;
  repeat match goal with
    | H : prop ?v ?k = VString ?s
      |- context [field ?k string ?p ?v] =>
        rewrite (field_string k p v s H)
    | H : prop ?v ?k = VString ?lit
      |- context [field ?k (literal ?lit) ?p ?v] =>
        rewrite (field_literal k lit p v H)
    | H : optional_string (prop ?v ?k) ?o
      |- context [field ?k (optional string) ?p ?v] =>
        rewrite (field_optional_string k p v o H)
    end.

Lemma AppMentionEventSchema_accepts p v e :
  (exists props, v = VObject props) -> app_mention_fields v e ->
  AppMentionEventSchema p v = success e.
Proof.
  intros [props ->] (H1 & H2 & H3 & H4 & H5 & H6 & H7).
  unfold AppMentionEventSchema, object.
  destruct e as [user text ts channel event_ts thread_ts].
  cbn [AppMentionEvent.user AppMentionEvent.text AppMentionEvent.ts
       AppMentionEvent.channel AppMentionEvent.event_ts
       AppMentionEvent.thread_ts] in *.
  fill_fields. reflexivity.
Qed.

Lemma MessageEventSchema_accepts p v e :
  (exists props, v = VObject props) -> message_fields v e ->
  MessageEventSchema p v = success e.
Proof.
  intros [props ->] (H1 & H2 & H3 & H4 & H5 & H6 & H7 & H8 & H9).
  unfold MessageEventSchema, object.
  destruct e as [subtype user text ts channel event_ts thread_ts bot_id].
  cbn [MessageEvent.subtype MessageEvent.user MessageEvent.text
       MessageEvent.ts MessageEvent.channel MessageEvent.event_ts
       MessageEvent.thread_ts MessageEvent.bot_id] in *.
  fill_fields. reflexivity.
Qed.

Lemma ReactionAddedEventSchema_accepts p v e :
  (exists props, v = VObject props) -> reaction_added_fields v e ->
  ReactionAddedEventSchema p v = success e.
Proof.
  intros [props ->] (H1 & H2 & H3 & [iprops Hi] & H5 & H6 & H7 & H8).
  unfold ReactionAddedEventSchema, object.
  destruct e as [user reaction [itype ichannel its] event_ts].
  cbn [ReactionAddedEvent.user ReactionAddedEvent.reaction
       ReactionAddedEvent.item ReactionAddedEvent.event_ts
       ReactionItem.type ReactionItem.channel ReactionItem.ts] in *.
  assert (field "item" ReactionItemSchema p (VObject props)
          = success (ReactionItem.mk itype ichannel its)) as Hitem.
  { unfold field. rewrite Hi in *.
    unfold ReactionItemSchema, object. fill_fields. reflexivity. }
  fill_fields. rewrite Hitem. reflexivity.
Qed.

Lemma SlackEventSchema_inv p v e :
  SlackEventSchema p v = success e -> event_fields v e.
Proof.
  unfold SlackEventSchema, union. intros H.
  apply union_from_success in H as (o & Hin & Ho).
  destruct Hin as [<-|[<-|[<-|[]]]]; peel Ho.
  - apply AppMentionEventSchema_inv in Ho. exact Ho.
  - apply MessageEventSchema_inv in Ho. exact Ho.
  - apply ReactionAddedEventSchema_inv in Ho. exact Ho.
Qed.

Lemma SlackEventSchema_accepts p v e :
  event_fields v e -> SlackEventSchema p v = success e.
Proof.
  unfold SlackEventSchema, union.
  intros [Hobj H]. simpl. unfold ap at 1, pure at 1.
  destruct e as [a|m|r]; simpl in H.
  - now rewrite (AppMentionEventSchema_accepts p v a Hobj H).
  - assert (is_failure (AppMentionEventSchema p v) = true) as F1.
    { apply AppMentionEventSchema_tag. destruct H as [-> _]. discriminate. }
    destruct (AppMentionEventSchema p v); [discriminate F1|]. simpl.
    unfold ap at 1, pure at 1.
    now rewrite (MessageEventSchema_accepts p v m Hobj H).
  - assert (is_failure (AppMentionEventSchema p v) = true) as F1.
    { apply AppMentionEventSchema_tag. destruct H as [-> _]. discriminate. }
    assert (is_failure (MessageEventSchema p v) = true) as F2.
    { apply MessageEventSchema_tag. destruct H as [-> _]. discriminate. }
    destruct (AppMentionEventSchema p v); [discriminate F1|]. simpl.
    unfold ap at 1, pure at 1.
    destruct (MessageEventSchema p v); [discriminate F2|]. simpl.
    unfold ap at 1, pure at 1.
    now rewrite (ReactionAddedEventSchema_accepts p v r Hobj H).
Qed.

(** X7. [SlackEventSchema] accepts a payload as a typed event exactly when
    the payload is an object that holds the fields of the event, with
    the [type] of its kind: every field of the result is the one of the
    payload, and a payload that holds the fields is not refused. *)
Theorem SlackEventSchema_accepts_iff_fields :
  forall (p : Path) (v : value) (e : SlackEvent),
    SlackEventSchema p v = success e <-> event_fields v e.
Proof.
  intros p v e. split.
  - apply SlackEventSchema_inv.
  - apply SlackEventSchema_accepts.
Qed.

Lemma field_number_inv k p v x :
  field k number p v = success x ->
  prop v k = VNumber x /\ PrimFloat.is_nan x = false.
Proof.
  unfold field, number. destruct (prop v k); intros H; try discriminate H.
  destruct (PrimFloat.is_nan x0) eqn:E; [discriminate H|].
  injection H as <-. auto.
Qed.

Lemma field_number k p v x :
  prop v k = VNumber x -> PrimFloat.is_nan x = false ->
  field k number p v = success x.
Proof. unfold field, number. intros -> ->. reflexivity. Qed.

Lemma field_optional_absent {A} k (t : ZodType A) p v :
  prop v k = VUndefined -> field k (optional t) p v = success None.
Proof. unfold field, optional. now intros ->. Qed.

Lemma field_optional_inv {A} k (t : ZodType A) p v o :
  field k (optional t) p v = success o ->
  (o = None <-> prop v k = VUndefined).
Proof.
  unfold field, optional.
  destruct (prop v k) eqn:E; intros H;
    try (destruct (t _ _); simpl in H; [injection H as <- | discriminate H];
         split; discriminate).
  injection H as <-. split; reflexivity.
Qed.

(** X8. An envelope that [parseSlackEventWrapper] returns was read off the
    body: the body is an object of [type] event_callback, each field of
    the envelope is the like-named field of the body, the event time is
    a number other than NaN, and the event holds the fields of the nested
    payload. Conversely a body that holds these fields, with no
    [authorizations], is returned as that envelope. *)
Theorem parseSlackEventWrapper_reads_the_body :
  (forall (body : value) (w : SlackEventWrapper.t),
      parseSlackEventWrapper body = Returned w ->
      (exists props, body = VObject props)
      /\ prop body "type" = VString "event_callback"
      /\ prop body "token" = VString (SlackEventWrapper.token w)
      /\ prop body "team_id" = VString (SlackEventWrapper.team_id w)
      /\ prop body "api_app_id" = VString (SlackEventWrapper.api_app_id w)
      /\ prop body "event_id" = VString (SlackEventWrapper.event_id w)
      /\ prop body "event_time" = VNumber (SlackEventWrapper.event_time w)
      /\ PrimFloat.is_nan (SlackEventWrapper.event_time w) = false
      /\ event_fields (prop body "event") (extractEvent w)
      /\ (SlackEventWrapper.authorizations w = None
          <-> prop body "authorizations" = VUndefined))
  /\ (forall (body : value) (w : SlackEventWrapper.t),
         (exists props, body = VObject props) ->
         prop body "type" = VString "event_callback" ->
         prop body "token" = VString (SlackEventWrapper.token w) ->
         prop body "team_id" = VString (SlackEventWrapper.team_id w) ->
         prop body "api_app_id" = VString (SlackEventWrapper.api_app_id w) ->
         prop body "event_id" = VString (SlackEventWrapper.event_id w) ->
         prop body "event_time" = VNumber (SlackEventWrapper.event_time w) ->
         PrimFloat.is_nan (SlackEventWrapper.event_time w) = false ->
         event_fields (prop body "event") (extractEvent w) ->
         prop body "authorizations" = VUndefined ->
         SlackEventWrapper.authorizations w = None ->
         parseSlackEventWrapper body = Returned w).
Proof.
  split.
  - intros body w H.
    unfold parseSlackEventWrapper, zod_parse, safeParse in H.
    destruct (SlackEventWrapperSchema [] body) as [d|err] eqn:E;
      [injection H as -> | discriminate H].
    unfold SlackEventWrapperSchema in E.
    apply object_success_inv in E as [Hobj E]. split; [exact Hobj|].
    peel E. read_fields.
    repeat match goal with
      | H : field _ number _ _ = success _ |- _ =>
          apply field_number_inv in H; destruct H
      | H : field "authorizations" _ _ _ = success _ |- _ =>
          apply field_optional_inv in H
      | H : field "event" SlackEventSchema _ _ = success _ |- _ =>
          unfold field in H; apply SlackEventSchema_inv in H
      end.
    unfold extractEvent. simpl. auto 12.
  - intros body w [props ->] Ht H1 H2 H3 H4 H5 Hn He Ha Hw.
    unfold parseSlackEventWrapper, zod_parse, safeParse.
    unfold SlackEventWrapperSchema, object.
    destruct w as [token team_id api_app_id event event_id event_time auths].
    unfold extractEvent in He.
    cbn [SlackEventWrapper.token SlackEventWrapper.team_id
         SlackEventWrapper.api_app_id SlackEventWrapper.event
         SlackEventWrapper.event_id SlackEventWrapper.event_time
         SlackEventWrapper.authorizations] in *.
    subst auths.
    assert (field "event" SlackEventSchema [] (VObject props) = success event)
      as Hev by (unfold field; now apply SlackEventSchema_accepts).
    fill_fields.
    rewrite Hev, (field_number _ _ _ _ H5 Hn), (field_optional_absent _ _ _ _ Ha).
    reflexivity.
Qed.

Lemma lookup_app k a b :
  lookup k b = VUndefined -> lookup k (a ++ b) = lookup k a.
Proof.
  intros Hb. induction a as [|[k' v] a IH]; simpl; [exact Hb|].
  destruct (String.eqb k k'); [reflexivity | exact IH].
Qed.

Lemma SlackEventWrapperSchema_shape_only p a b :
  (forall k, In k wrapper_keys -> lookup k a = lookup k b) ->
  SlackEventWrapperSchema p (VObject a) = SlackEventWrapperSchema p (VObject b).
Proof.
  intros H. unfold SlackEventWrapperSchema, object, ap, field, pure.
  cbn [prop].
  rewrite (H "token"), (H "team_id"), (H "api_app_id"), (H "event"),
    (H "type"), (H "event_id"), (H "event_time"), (H "authorizations");
    [reflexivity | simpl; auto 10 ..].
Qed.

(** X9. Keys outside the shape of the envelope do not matter: a body with
    further properties, none of them under a key of the shape, is parsed
    as the body without them, to the same envelope or the same error. *)
Theorem parseSlackEventWrapper_ignores_unknown_keys :
  forall (props extra : list (String.string * value)),
    (forall k, In k wrapper_keys -> lookup k extra = VUndefined) ->
    parseSlackEventWrapper (VObject (props ++ extra))
    = parseSlackEventWrapper (VObject props).
Proof.
  intros props extra H.
  unfold parseSlackEventWrapper, zod_parse, safeParse.
  rewrite (SlackEventWrapperSchema_shape_only [] (props ++ extra) props);
    [reflexivity|].
  intros k Hk. apply lookup_app. exact (H k Hk).
Qed.

(** X10. On a message event that came out of the schema, the helpers
    answer from the payload: it is a thread message exactly when the
    payload has a [thread_ts] other than its [ts], a bot message exactly
    when the payload has a [bot_id], and a user message otherwise. *)
Theorem message_helpers_on_parsed_event :
  forall (p : Path) (v : value) (m : MessageEvent.t),
    SlackEventSchema p v = success (Message m) ->
    (isThreadMessage m = true
     <-> exists parent own,
           prop v "thread_ts" = VString parent
           /\ prop v "ts" = VString own
           /\ parent <> own)
    /\ (isBotMessage m = true <-> prop v "bot_id" <> VUndefined)
    /\ (isUserMessage m = true <-> prop v "bot_id" = VUndefined).
Proof.
  intros p v m H. apply SlackEventSchema_inv in H as [_ H].
  destruct H as (_ & _ & _ & _ & Hts & _ & _ & Hth & Hbot).
  unfold isUserMessage, isBotMessage, isThreadMessage.
  destruct m as [subtype user text ts channel event_ts thread_ts bot_id].
  cbn [MessageEvent.ts MessageEvent.thread_ts MessageEvent.bot_id] in *.
  split; [|split].
  - destruct thread_ts as [parent|]; simpl in Hth.
    + destruct (String.eqb_spec parent ts) as [->|Hne]; simpl.
      * split; [discriminate|].
        intros (parent & own & E1 & E2 & Hne).
        rewrite Hth in E1. rewrite Hts in E2. congruence.
      * split; [|reflexivity]. intros _. exists parent, ts. auto.
    + split; [discriminate|].
      intros (parent & own & E1 & _). rewrite Hth in E1. discriminate E1.
  - destruct bot_id; simpl in Hbot; rewrite Hbot.
    + split; [discriminate | reflexivity].
    + split; [discriminate | intros F; now contradiction F].
  - destruct bot_id; simpl in Hbot; rewrite Hbot; simpl.
    + split; discriminate.
    + split; reflexivity.
Qed.

Lemma MessageSchema_channel p v m :
  MessageSchema p v = success m ->
  prop v "channel" = VString (SlackMessage.channel m)
  /\ prop v "type" = VString "message"
  /\ prop v "text" = VString (SlackMessage.text m)
  /\ prop v "ts" = VString (SlackMessage.ts m).
Proof.
  unfold MessageSchema. intros H.
  apply object_success_inv in H as [_ H].
  peel H. read_fields. simpl. auto.
Qed.

Lemma parse_replies_counts channel msgs :
  (List.length (fst (parse_replies channel msgs))
   + List.length (snd (parse_replies channel msgs)))%nat
  = List.length msgs
  /\ forall m, In m (snd (parse_replies channel msgs)) ->
               SlackMessage.channel m = channel.
Proof.
  induction msgs as [|msg rest [IHlen IHch]]; simpl.
  - split; [reflexivity | intros m []].
  - destruct (parse_replies channel rest) as [warnings messages].
    simpl in IHlen, IHch.
    unfold zod_parse, safeParse.
    destruct (MessageSchema [] (with_channel msg channel)) as [parsed|err]
      eqn:E; simpl.
    + split; [lia|]. intros m [<-|Hin]; [|now apply IHch].
      apply MessageSchema_channel in E as [E _].
      unfold with_channel in E. simpl in E. now injection E as <-.
    + split; [lia | exact IHch].
Qed.

(** X11. [getThreadHistory] fails when the API call reports failure, and
    only then. Otherwise it returns: every reply is either in the result
    or warned about, none is both, and each returned message carries the
    channel that was asked for. A reply that fails validation does not
    abort the others. *)
Theorem getThreadHistory_partial_success :
  forall (channel : String.string) (result : RepliesResponse.t),
    (RepliesResponse.ok result = false ->
     getThreadHistory channel (Returned result)
     = Failed (Error ("Failed to get thread history: "
                      ++ interpolate (RepliesResponse.error result))))
    /\ (RepliesResponse.ok result = true ->
        exists warnings messages,
          getThreadHistory channel (Returned result)
          = Done (warnings, messages)
          /\ (List.length warnings + List.length messages)%nat
             = List.length
                 (match RepliesResponse.messages result with
                  | Some msgs => msgs
                  | None => []
                  end)
          /\ forall m, In m messages -> SlackMessage.channel m = channel).
Proof.
  intros channel result. unfold getThreadHistory. split; intros ->; simpl.
  - reflexivity.
  - destruct (parse_replies_counts channel
                (match RepliesResponse.messages result with
                 | Some msgs => msgs
                 | None => []
                 end)) as [Hlen Hch].
    destruct (parse_replies channel _) as [warnings messages].
    exists warnings, messages. auto.
Qed.

Lemma MessageSchema_props_only p a b :
  (forall k, lookup k a = lookup k b) ->
  MessageSchema p (VObject a) = MessageSchema p (VObject b).
Proof.
  intros H. unfold MessageSchema, object, ap, field, pure. cbn [prop].
  now rewrite !H.
Qed.

(** X12. The channel a reply names itself is not looked at: a reply is
    validated with the channel that was asked for, so a reply that names
    another channel, or none, gives the same messages and warnings. *)
Theorem parse_replies_overrides_channel :
  forall (channel : String.string) (own : value)
         (msg : list (String.string * value))
         (rest : list (list (String.string * value))),
    parse_replies channel ((("channel", own) :: msg) :: rest)
    = parse_replies channel (msg :: rest).
Proof.
  intros channel own msg rest. simpl.
  unfold zod_parse, safeParse, with_channel.
  rewrite (MessageSchema_props_only []
             (("channel", VString channel) :: ("channel", own) :: msg)
             (("channel", VString channel) :: msg)); [reflexivity|].
  intros k. simpl. destruct (String.eqb k "channel"); reflexivity.
Qed.

End DecodeFacts.

(** ** The session store: lookups, frames and references *)

Section UpdateConflictingMore.

Context {A : Type} (conflicts : A -> bool) (set : A -> A).

Lemma update_conflicting_source (tbl tbl' : list A) r' :
  update_conflicting conflicts set tbl = Some (tbl', r') ->
  exists r, In r tbl /\ conflicts r = true /\ r' = set r.
Proof.
  revert tbl'. induction tbl as [|x tbl IH]; simpl; intros tbl' H.
  - discriminate H.
  - destruct (conflicts x) eqn:Cx.
    + injection H as <- <-. exists x. auto.
    + destruct (update_conflicting conflicts set tbl) as [[rest r'']|];
        [|discriminate H].
      injection H as <- <-.
      destruct (IH rest eq_refl) as (r & Hr & Hc & E). exists r. auto.
Qed.

Lemma update_conflicting_frame (q : A -> bool) (tbl tbl' : list A) r' :
  update_conflicting conflicts set tbl = Some (tbl', r') ->
  (forall r, conflicts r = true -> q r = false /\ q (set r) = false) ->
  filter q tbl' = filter q tbl.
Proof.
  intros H Hq. revert tbl' H.
  induction tbl as [|x tbl IH]; simpl; intros tbl' H.
  - discriminate H.
  - destruct (conflicts x) eqn:Cx.
    + injection H as <- <-. simpl.
      destruct (Hq x Cx) as [-> ->]. reflexivity.
    + destruct (update_conflicting conflicts set tbl) as [[rest r'']|];
        [|discriminate H].
      injection H as <- <-. simpl. now rewrite (IH rest eq_refl).
Qed.

Lemma update_conflicting_map {B} (g : A -> B) (tbl tbl' : list A) r' :
  update_conflicting conflicts set tbl = Some (tbl', r') ->
  (forall r, g (set r) = g r) ->
  map g tbl' = map g tbl.
Proof.
  intros H Hg. revert tbl' H.
  induction tbl as [|x tbl IH]; simpl; intros tbl' H.
  - discriminate H.
  - destruct (conflicts x) eqn:Cx.
    + injection H as <- <-. simpl. now rewrite Hg.
    + destruct (update_conflicting conflicts set tbl) as [[rest r'']|];
        [|discriminate H].
      injection H as <- <-. simpl. now rewrite (IH rest eq_refl).
Qed.

Lemma update_conflicting_absent (tbl : list A) :
  update_conflicting conflicts set tbl = None ->
  forall r, In r tbl -> conflicts r = false.
Proof.
  induction tbl as [|x tbl IH]; simpl; intros H r Hr; [contradiction|].
  destruct (conflicts x) eqn:Cx; [discriminate H|].
  destruct (update_conflicting conflicts set tbl) as [[rest r'']|];
    [discriminate H|].
  destruct Hr as [<-|Hr]; [exact Cx | now apply IH].
Qed.

End UpdateConflictingMore.

Section StoreFacts.

Import SessionService.
Local Open Scope Z_scope.

Lemma references_kept {A B} (g : A -> B) (tbl tbl' : list A) :
  (forall x, In x (map g tbl) -> In x (map g tbl')) ->
  forall a, In a tbl -> exists a', In a' tbl' /\ g a' = g a.
Proof.
  intros H a Ha.
  assert (In (g a) (map g tbl')) as Hin by (apply H; now apply in_map).
  apply in_map_iff in Hin as (a' & E & Ha'). exists a'. auto.
Qed.

Lemma team_is_other team other r :
  other <> team -> team_is team r = true -> team_is other r = false.
Proof.
  intros Hne H. apply team_is_key in H.
  destruct (team_is other r) eqn:E; [|reflexivity].
  apply team_is_key in E. congruence.
Qed.

(** X13. After [upsertWorkspace] the workspace it returns is the one
    found under its Slack team, the workspaces of the other teams are
    found as before, the uniqueness of team ids still holds, no session
    is touched, and every session still references a workspace. *)
Theorem upsertWorkspace_lookup_and_frame :
  forall (db : Database) (now : Timestamp) (new_id : UUID)
         (team name : string) (link : option string),
    unique_slack_team_id (workspaces db) ->
    let db' := fst (upsertWorkspace now new_id team name link db) in
    let w := snd (upsertWorkspace now new_id team name link db) in
    getWorkspaceBySlackTeamId team db' = Some w
    /\ Workspace.slackTeamId w = team
    /\ Workspace.slackTeamName w = name
    /\ Workspace.updatedAt w = now
    /\ (forall other, other <> team ->
          getWorkspaceBySlackTeamId other db'
          = getWorkspaceBySlackTeamId other db)
    /\ unique_slack_team_id (workspaces db')
    /\ minno_sessions db' = minno_sessions db
    /\ (sessions_reference_workspaces db ->
        sessions_reference_workspaces db').
Proof.
  intros db now new_id team name link U.
  pose proof (upsert_workspace_sql_spec now new_id team name link
                (workspaces db) U) as S.
  unfold upsertWorkspace, getWorkspaceBySlackTeamId.
  unfold upsert_workspace_sql, select in *.
  destruct (update_conflicting (team_is team)
              (workspace_do_update now name link) (workspaces db))
    as [[tbl' r']|] eqn:E;
    cbn [fst snd workspaces minno_sessions] in *;
    destruct S as (U' & F & S).
  - destruct S as [(r & Hr & Hk & -> & Hlen)|(Habs & _)].
    2:{ destruct (update_conflicting_source _ _ _ _ _ E) as (r & Hr & Hc & _).
        apply team_is_key in Hc. exfalso. exact (Habs r Hr Hc). }
    rewrite F. repeat split; auto.
    + intros other Hne.
      rewrite (update_conflicting_frame _ _ (team_is other) _ _ _ E);
        [reflexivity|].
      intros x Hx. split.
      * exact (team_is_other team other x Hne Hx).
      * apply (team_is_other team other); [exact Hne|].
        apply team_is_key. rewrite workspace_do_update_key.
        now apply team_is_key.
    + intros FK s Hs. destruct (FK s Hs) as (w0 & Hw0 & Hid).
      destruct (references_kept Workspaces.id (workspaces db) tbl'
                  ltac:(rewrite (update_conflicting_map _ _ Workspaces.id
                                   _ _ _ E (fun _ => eq_refl)); auto)
                  w0 Hw0) as (w1 & Hw1 & Hid1).
      exists w1. split; [exact Hw1 | congruence].
  - destruct S as [(r & Hr & Hk & _)|(Habs & _ & _)].
    1:{ pose proof (update_conflicting_absent _ _ _ E r Hr) as Hc.
        apply (proj2 (team_is_key team r)) in Hk. congruence. }
    rewrite F. repeat split; auto.
    + intros other Hne. rewrite filter_app. simpl.
      rewrite (team_is_other team other); [now rewrite app_nil_r | exact Hne|].
      now apply team_is_key.
    + intros FK s Hs. destruct (FK s Hs) as (w0 & Hw0 & Hid).
      exists w0. split; [apply in_or_app; now left | exact Hid].
Qed.

Lemma thread_is_other c t c' t' r :
  (c', t') <> (c, t) -> thread_is c t r = true -> thread_is c' t' r = false.
Proof.
  intros Hne H. apply thread_is_key in H.
  destruct (thread_is c' t' r) eqn:E; [|reflexivity].
  apply thread_is_key in E. congruence.
Qed.

(** X14. When [upsertMinnoSession] returns, the session it returns is the
    one found under its thread, the sessions of the other threads are
    found as before, threads are still unique, the table has grown by
    one row at most, no workspace is touched, and every session still
    references a workspace. *)
Theorem upsertMinnoSession_lookup_and_frame :
  forall (db db' : Database) (s : MinnoSession.t) (now : Timestamp)
         (new_id : UUID) (workspaceId c t : string)
         (data : option SessionData.t),
    unique_slack_thread (minno_sessions db) ->
    upsertMinnoSession now new_id workspaceId c t data db
    = Returned (db', s) ->
    getMinnoSessionByThread c t db' = Some s
    /\ MinnoSession.slackChannelId s = c
    /\ MinnoSession.slackThreadTs s = t
    /\ MinnoSession.updatedAt s = now
    /\ (forall c' t', (c', t') <> (c, t) ->
          getMinnoSessionByThread c' t' db'
          = getMinnoSessionByThread c' t' db)
    /\ unique_slack_thread (minno_sessions db')
    /\ (List.length (minno_sessions db')
        <= S (List.length (minno_sessions db)))%nat
    /\ workspaces db' = workspaces db
    /\ (sessions_reference_workspaces db ->
        sessions_reference_workspaces db').
Proof.
  intros db db' s now new_id workspaceId c t data U H.
  unfold upsertMinnoSession, upsert_minno_session_sql in H.
  unfold getMinnoSessionByThread, select.
  set (p4 := data_field data SessionData.notionProjectId) in *.
  set (p5 := data_field data SessionData.notionTaskId) in *.
  set (p6 := data_field data SessionData.context) in *.
  set (p7 := Some (or_default (data_field data SessionData.status) active))
    in *.
  destruct (update_conflicting (thread_is c t)
              (minno_session_do_update now p4 p5 p6 p7) (minno_sessions db))
    as [[tbl' r']|] eqn:E.
  - injection H as <- <-. cbn [minno_sessions workspaces].
    destruct (update_conflicting_source _ _ _ _ _ E) as (r & Hr & Hc & ->).
    apply thread_is_key in Hc.
    destruct (update_conflicting_hit thread_key (c, t) (thread_is c t)
                (minno_session_do_update now p4 p5 p6 p7)
                (thread_is_key c t)
                (minno_session_do_update_key now p4 p5 p6 p7)
                (minno_sessions db) r U Hr Hc)
      as (tbl'' & E' & Hkeys & Hfilter & Hlen).
    rewrite E in E'. injection E' as <-.
    rewrite Hfilter.
    assert (MinnoSessions.slack_channel_id r = c
            /\ MinnoSessions.slack_thread_ts r = t) as [Hch Hth]
        by (unfold thread_key in Hc; now injection Hc).
    repeat split; auto.
    + intros c' t' Hne.
      rewrite (update_conflicting_frame _ _ (thread_is c' t') _ _ _ E);
        [reflexivity|].
      intros x Hx. split.
      * exact (thread_is_other c t c' t' x Hne Hx).
      * apply (thread_is_other c t c' t'); [exact Hne|].
        apply thread_is_key. rewrite minno_session_do_update_key.
        now apply thread_is_key.
    + unfold unique_slack_thread. now rewrite Hkeys.
    + rewrite Hlen. lia.
    + intros FK s Hs.
      assert (exists s0, In s0 (minno_sessions db)
                         /\ MinnoSessions.workspace_id s0
                            = MinnoSessions.workspace_id s)
        as (s0 & Hs0 & Hws).
      { apply (references_kept MinnoSessions.workspace_id tbl'
                 (minno_sessions db)); [|exact Hs].
        rewrite (update_conflicting_map _ _ MinnoSessions.workspace_id
                   _ _ _ E (fun _ => eq_refl)). auto. }
      destruct (FK s0 Hs0) as (w & Hw & Hid).
      exists w. split; [exact Hw | congruence].
  - destruct (existsb (fun w => String.eqb (Workspaces.id w) workspaceId)
                      (workspaces db)) eqn:Ex; [|discriminate H].
    injection H as <- <-. cbn [minno_sessions workspaces].
    pose proof (update_conflicting_absent _ _ _ E) as Habs.
    assert (forall x, In x (minno_sessions db) -> thread_key x <> (c, t))
      as Habs'.
    { intros x Hx Hk. apply thread_is_key in Hk.
      rewrite (Habs x Hx) in Hk. discriminate Hk. }
    destruct (append_new_row thread_key (c, t) (thread_is c t)
                (thread_is_key c t) (minno_sessions db)
                (MinnoSessions.mk new_id workspaceId c t p4 p5 p6 p7 now now)
                U Habs' eq_refl) as [U' F].
    rewrite F. repeat split; auto.
    + intros c' t' Hne. rewrite filter_app. simpl.
      rewrite (thread_is_other c t c' t'); [now rewrite app_nil_r | exact Hne|].
      now apply thread_is_key.
    + rewrite length_app. simpl. lia.
    + intros FK s Hs. apply in_app_or in Hs as [Hs|[<-|[]]].
      * exact (FK s Hs).
      * apply existsb_exists in Ex as (w & Hw & Hid).
        exists w. split; [exact Hw|]. now apply String.eqb_eq.
Qed.

(** X15. For a thread that has no session, [upsertMinnoSession] inserts
    one when the workspace exists: one row is appended and returned. Its
    id is the new one; workspace, channel and thread are those of the
    call; the Notion ids are those of [data], absent when [data] is; the
    status is the one of [data], or active when [data] has none; both
    timestamps are the time of the call; and it has a context exactly
    when [data] has one (what the JSONB column makes of the document is
    not said). When no workspace has the given id the statement fails
    with a database error and nothing is returned. *)
Theorem upsertMinnoSession_new_thread :
  forall (db : Database) (now : Timestamp) (new_id : UUID)
         (workspaceId c t : string) (data : option SessionData.t),
    (forall r, In r (minno_sessions db) -> thread_key r <> (c, t)) ->
    ((exists w, In w (workspaces db) /\ Workspaces.id w = workspaceId) ->
     exists db' s r,
       upsertMinnoSession now new_id workspaceId c t data db
       = Returned (db', s)
       /\ s = mapRowToMinnoSession r
       /\ db' = mkDatabase (workspaces db) (minno_sessions db ++ [r])
       /\ MinnoSession.id s = new_id
       /\ MinnoSession.workspaceId s = workspaceId
       /\ MinnoSession.slackChannelId s = c
       /\ MinnoSession.slackThreadTs s = t
       /\ MinnoSession.notionProjectId s
          = match data with
            | Some d => SessionData.notionProjectId d
            | None => None
            end
       /\ MinnoSession.notionTaskId s
          = match data with
            | Some d => SessionData.notionTaskId d
            | None => None
            end
       /\ MinnoSession.status s
          = Some match data with
                 | Some d =>
                     match SessionData.status d with
                     | Some status => status
                     | None => active
                     end
                 | None => active
                 end
       /\ (MinnoSession.context s = None
           <-> match data with
               | Some d => SessionData.context d = None
               | None => True
               end)
       /\ MinnoSession.createdAt s = now
       /\ MinnoSession.updatedAt s = now)
    /\ ((forall w, In w (workspaces db) -> Workspaces.id w <> workspaceId) ->
        exists message,
          upsertMinnoSession now new_id workspaceId c t data db
          = Thrown (DatabaseError message)).
Proof.
  intros db now new_id workspaceId c t data Habs.
  unfold upsertMinnoSession, upsert_minno_session_sql.
  rewrite (update_conflicting_miss thread_key (c, t) (thread_is c t) _
             (thread_is_key c t) (minno_sessions db) Habs).
  split.
  - intros (w & Hw & Hid).
    assert (existsb (fun w => String.eqb (Workspaces.id w) workspaceId)
                    (workspaces db) = true) as ->.
    { apply existsb_exists. exists w. split; [exact Hw|].
      now apply String.eqb_eq. }
    eexists _, _, _. split; [reflexivity|].
    split; [reflexivity|]. split; [reflexivity|].
    cbn [mapRowToMinnoSession MinnoSession.id MinnoSession.workspaceId
         MinnoSession.slackChannelId MinnoSession.slackThreadTs
         MinnoSession.notionProjectId MinnoSession.notionTaskId
         MinnoSession.status MinnoSession.context MinnoSession.createdAt
         MinnoSession.updatedAt MinnoSessions.id MinnoSessions.workspace_id
         MinnoSessions.slack_channel_id MinnoSessions.slack_thread_ts
         MinnoSessions.notion_project_id MinnoSessions.notion_task_id
         MinnoSessions.status MinnoSessions.context
         MinnoSessions.created_at MinnoSessions.updated_at].
    destruct data as [d|]; cbn [data_field or_default].
    + destruct (SessionData.status d); repeat split; auto.
    + repeat split; auto.
  - intros Hnone.
    assert (existsb (fun w => String.eqb (Workspaces.id w) workspaceId)
                    (workspaces db) = false) as ->.
    { destruct (existsb _ _) eqn:Ex; [|reflexivity].
      apply existsb_exists in Ex as (w & Hw & Hid).
      apply String.eqb_eq in Hid. exfalso. exact (Hnone w Hw Hid). }
    eexists. reflexivity.
Qed.

End StoreFacts.

(** ** Ordered queries *)

Section OrderBy.

Context {A : Type} (le : A -> A -> bool).

Lemma insert_ordered_perm x l : Permutation (insert_ordered le x l) (x :: l).
Proof.
  induction l as [|y l IH]; simpl.
  - apply Permutation_refl.
  - destruct (le x y).
    + apply Permutation_refl.
    + apply perm_trans with (y :: x :: l).
      * now apply perm_skip.
      * apply perm_swap.
Qed.

Lemma order_by_perm l : Permutation (order_by le l) l.
Proof.
  induction l as [|x l IH]; simpl.
  - apply perm_nil.
  - apply perm_trans with (x :: order_by le l).
    + apply insert_ordered_perm.
    + now apply perm_skip.
Qed.

Lemma order_by_In x l : In x (order_by le l) <-> In x l.
Proof.
  split; apply Permutation_in;
    [apply order_by_perm | apply Permutation_sym, order_by_perm].
Qed.

Lemma order_by_length l : List.length (order_by le l) = List.length l.
Proof. apply Permutation_length, order_by_perm. Qed.

Hypothesis le_total : forall a b, le a b = true \/ le b a = true.
Hypothesis le_trans :
  forall a b c, le a b = true -> le b c = true -> le a c = true.

Lemma insert_ordered_sorted x l :
  StronglySorted (fun a b => le a b = true) l ->
  StronglySorted (fun a b => le a b = true) (insert_ordered le x l).
Proof.
  induction 1 as [|y l Hl IH Hy]; simpl.
  - repeat constructor.
  - destruct (le x y) eqn:E.
    + constructor; [constructor; assumption|].
      constructor; [exact E|].
      eapply Forall_impl; [|exact Hy]. intros z Hz. now apply le_trans with y.
    + constructor; [exact IH|].
      assert (le y x = true) as Hyx
          by (destruct (le_total x y); congruence).
      apply Forall_forall. intros z Hz.
      apply (Permutation_in _ (insert_ordered_perm x l)) in Hz.
      destruct Hz as [<-|Hz]; [exact Hyx|].
      rewrite Forall_forall in Hy. now apply Hy.
Qed.

Lemma order_by_sorted l :
  StronglySorted (fun a b => le a b = true) (order_by le l).
Proof.
  induction l as [|x l IH]; simpl.
  - constructor.
  - now apply insert_ordered_sorted.
Qed.

Lemma insert_ordered_before_last y x l :
  le y x = true ->
  insert_ordered le y (l ++ [x]) = insert_ordered le y l ++ [x].
Proof.
  intros H. induction l as [|z l IH]; simpl.
  - now rewrite H.
  - destruct (le y z); [reflexivity|]. now rewrite IH.
Qed.

(** A row that [le] puts after all the others comes last. *)
Lemma order_by_last x l :
  (forall y, In y l -> le y x = true) ->
  order_by le (l ++ [x]) = order_by le l ++ [x].
Proof.
  induction l as [|y l IH]; simpl; intros H; [reflexivity|].
  rewrite IH by (intros z Hz; apply H; now right).
  apply insert_ordered_before_last. apply H. now left.
Qed.

End OrderBy.

Lemma StronglySorted_map {A B} (f : A -> B) (R : B -> B -> Prop) l :
  StronglySorted (fun a b => R (f a) (f b)) l ->
  StronglySorted R (map f l).
Proof.
  induction 1 as [|x l Hl IH Hx]; simpl; constructor; [exact IH|].
  apply Forall_map. exact Hx.
Qed.

Lemma filter_unique {A K} (key : A -> K) (k : K) (c : A -> bool) tbl r :
  (forall x, c x = true <-> key x = k) ->
  NoDup (map key tbl) -> In r tbl -> key r = k ->
  filter c tbl = [r].
Proof.
  intros Hc. induction tbl as [|x tbl IH]; simpl; intros ND Hin Hk;
    [contradiction|].
  apply NoDup_cons_iff in ND as [Hx ND].
  destruct (c x) eqn:Cx.
  - apply Hc in Cx.
    assert (x = r) as ->.
    { destruct Hin as [E|Hin]; [exact E|].
      exfalso. apply Hx. rewrite Cx, <- Hk. now apply in_map. }
    f_equal. apply (filter_none key k c Hc).
    intros y Hy E. apply Hx. rewrite Hk, <- E. now apply in_map.
  - destruct Hin as [->|Hin].
    + apply Hc in Hk. congruence.
    + now apply IH.
Qed.

Section StatusFacts.

Import SessionService SessionStore.
Local Open Scope Z_scope.

Lemma session_id_is_key sid r :
  String.eqb (MinnoSessions.id r) sid = true <-> MinnoSessions.id r = sid.
Proof. apply String.eqb_eq. Qed.

Lemma mapRowToMinnoSession_inj a b :
  mapRowToMinnoSession a = mapRowToMinnoSession b -> a = b.
Proof.
  destruct a, b. unfold mapRowToMinnoSession. simpl.
  intros H. injection H as -> -> -> -> -> -> -> -> -> ->. reflexivity.
Qed.

Lemma status_is_spec x r :
  status_is x r = true <-> MinnoSessions.status r = Some x.
Proof.
  unfold status_is. destruct (MinnoSessions.status r) as [s|].
  - destruct s, x; simpl; split; intros H; (reflexivity || discriminate H).
  - split; discriminate.
Qed.

Lemma update_where_other {B} (cond : B -> bool) (set : B -> B) tbl x :
  In x tbl -> cond x = false -> In x (fst (update_where cond set tbl)).
Proof.
  intros Hin Hc. unfold update_where. simpl.
  apply in_map_iff. exists x. now rewrite Hc.
Qed.

Lemma update_where_hit {B} (cond : B -> bool) (set : B -> B) tbl x :
  In x tbl -> cond x = true -> In (set x) (fst (update_where cond set tbl)).
Proof.
  intros Hin Hc. unfold update_where. simpl.
  apply in_map_iff. exists x. now rewrite Hc.
Qed.

Lemma update_where_map {B C} (g : B -> C) (cond : B -> bool) (set : B -> B)
      tbl :
  (forall r, g (set r) = g r) ->
  map g (fst (update_where cond set tbl)) = map g tbl.
Proof.
  intros Hg. unfold update_where. simpl. rewrite map_map.
  apply map_ext. intros r. destruct (cond r); [apply Hg | reflexivity].
Qed.

(** X16. [updateSessionStatus] with an id written as the database prints
    uuids that no session has fails with "Session not found". When a
    session has the id, the session returned is that one with the new
    status and the time of the call as [updatedAt], and its id,
    workspace, channel, thread, Notion ids, context and [createdAt] as
    they were; its row is in the table afterwards, the rows of the other
    sessions are the ones before, and the workspaces stay as they
    were. *)
Theorem updateSessionStatus_sets_status :
  forall (db : Database) (now : Timestamp) (sessionId : string)
         (status : Status),
    (printed_uuid sessionId = true ->
     (forall r, In r (minno_sessions db) -> MinnoSessions.id r <> sessionId) ->
     updateSessionStatus now sessionId status db
     = Failed (Error "Session not found"))
    /\ (forall r,
           unique_session_ids db ->
           In r (minno_sessions db) ->
           MinnoSessions.id r = sessionId ->
           exists db' s r',
             updateSessionStatus now sessionId status db = Done (db', s)
             /\ s = mapRowToMinnoSession r'
             /\ In r' (minno_sessions db')
             /\ MinnoSession.status s = Some status
             /\ MinnoSession.updatedAt s = now
             /\ MinnoSession.id s = sessionId
             /\ MinnoSession.workspaceId s = MinnoSessions.workspace_id r
             /\ MinnoSession.slackChannelId s
                = MinnoSessions.slack_channel_id r
             /\ MinnoSession.slackThreadTs s = MinnoSessions.slack_thread_ts r
             /\ MinnoSession.notionProjectId s
                = MinnoSessions.notion_project_id r
             /\ MinnoSession.notionTaskId s = MinnoSessions.notion_task_id r
             /\ MinnoSession.context s = MinnoSessions.context r
             /\ MinnoSession.createdAt s = MinnoSessions.created_at r
             /\ (forall x, In x (minno_sessions db) ->
                           MinnoSessions.id x <> sessionId ->
                           In x (minno_sessions db'))
             /\ (forall x, In x (minno_sessions db') ->
                           x = r'
                           \/ (In x (minno_sessions db)
                               /\ MinnoSessions.id x <> sessionId))
             /\ List.length (minno_sessions db')
                = List.length (minno_sessions db)
             /\ map thread_key (minno_sessions db')
                = map thread_key (minno_sessions db)
             /\ map MinnoSessions.id (minno_sessions db')
                = map MinnoSessions.id (minno_sessions db)
             /\ workspaces db' = workspaces db).
Proof.
  intros db now sessionId status. unfold updateSessionStatus. split.
  - intros _ Habs. unfold update_where, select.
    rewrite (filter_none MinnoSessions.id sessionId _
               (session_id_is_key sessionId) _ Habs).
    reflexivity.
  - intros r U Hr Hid.
    pose proof (update_where_hit
                  (fun r => String.eqb (MinnoSessions.id r) sessionId)
                  (set_status now status) (minno_sessions db) r Hr
                  (proj2 (session_id_is_key sessionId r) Hid)) as Hhit.
    pose proof (fun x Hx Hne =>
                  update_where_other
                    (fun r => String.eqb (MinnoSessions.id r) sessionId)
                    (set_status now status) (minno_sessions db) x Hx
                    (conflicts_false MinnoSessions.id sessionId _
                       (session_id_is_key sessionId) x Hne)) as Hother.
    pose proof (update_where_map thread_key
                  (fun r => String.eqb (MinnoSessions.id r) sessionId)
                  (set_status now status) (minno_sessions db)
                  (fun _ => eq_refl)) as Hkeys.
    pose proof (update_where_map MinnoSessions.id
                  (fun r => String.eqb (MinnoSessions.id r) sessionId)
                  (set_status now status) (minno_sessions db)
                  (fun _ => eq_refl)) as Hids.
    assert (forall x,
               In x (fst (update_where
                            (fun r => String.eqb (MinnoSessions.id r)
                                                 sessionId)
                            (set_status now status) (minno_sessions db))) ->
               x = set_status now status r
               \/ (In x (minno_sessions db)
                   /\ MinnoSessions.id x <> sessionId)) as Hback.
    { intros x Hx. unfold update_where in Hx. cbn [fst] in Hx.
      apply in_map_iff in Hx as (x0 & Ex & Hx0).
      destruct (String.eqb_spec (MinnoSessions.id x0) sessionId) as [E|E].
      - left. subst x. f_equal.
        apply (NoDup_key_unique MinnoSessions.id (minno_sessions db));
          auto. congruence.
      - right. subst x. auto. }
    unfold update_where, select in *. cbn [fst] in *.
    rewrite (filter_unique MinnoSessions.id sessionId _ _ r
               (session_id_is_key sessionId) U Hr Hid).
    cbn [map].
    exists (mkDatabase (workspaces db)
              (map (fun r0 =>
                      if String.eqb (MinnoSessions.id r0) sessionId
                      then set_status now status r0 else r0)
                   (minno_sessions db))),
           (mapRowToMinnoSession (set_status now status r)),
           (set_status now status r).
    cbn [minno_sessions workspaces].
    split; [reflexivity|]. split; [reflexivity|]. split; [exact Hhit|].
    split; [reflexivity|]. split; [reflexivity|]. split; [exact Hid|].
    do 7 (split; [reflexivity|]).
    split; [exact Hother|]. split; [exact Hback|].
    split; [apply length_map|]. auto.
Qed.

Lemma updated_at_desc_total a b :
  updated_at_desc a b = true \/ updated_at_desc b a = true.
Proof. unfold updated_at_desc. lia. Qed.

Lemma updated_at_desc_trans a b c :
  updated_at_desc a b = true -> updated_at_desc b c = true ->
  updated_at_desc a c = true.
Proof. unfold updated_at_desc. lia. Qed.

(** X17. [getActiveSessionsForWorkspace] returns the sessions of the
    workspace whose status is active, all of them and no other, each
    once per row, the most recently updated first. *)
Theorem getActiveSessionsForWorkspace_active_sorted :
  forall (workspaceId : string) (db : Database),
    (forall s,
        In s (getActiveSessionsForWorkspace workspaceId db)
        <-> exists r, In r (minno_sessions db)
                      /\ s = mapRowToMinnoSession r
                      /\ MinnoSessions.workspace_id r = workspaceId
                      /\ MinnoSessions.status r = Some active)
    /\ StronglySorted
         (fun a b => MinnoSession.updatedAt b <= MinnoSession.updatedAt a)
         (getActiveSessionsForWorkspace workspaceId db)
    /\ Permutation
         (getActiveSessionsForWorkspace workspaceId db)
         (map mapRowToMinnoSession
              (select (fun r =>
                         String.eqb (MinnoSessions.workspace_id r) workspaceId
                         && status_is active r)
                      (minno_sessions db))).
Proof.
  intros workspaceId db. unfold getActiveSessionsForWorkspace, select.
  split; [|split].
  - intros s. rewrite in_map_iff. split.
    + intros (r & <- & Hr). apply order_by_In in Hr.
      apply filter_In in Hr as [Hr Hc].
      apply andb_true_iff in Hc as [Hw Hs].
      exists r. repeat split; auto.
      * now apply String.eqb_eq.
      * now apply status_is_spec.
    + intros (r & Hr & -> & Hw & Hs). exists r. split; [reflexivity|].
      apply order_by_In, filter_In. split; [exact Hr|].
      apply andb_true_iff. split.
      * now apply String.eqb_eq.
      * now apply status_is_spec.
  - apply StronglySorted_map.
    eapply StronglySorted_ind
      with (P := StronglySorted
                   (fun a b =>
                      MinnoSession.updatedAt (mapRowToMinnoSession b)
                      <= MinnoSession.updatedAt (mapRowToMinnoSession a)));
      [constructor | | apply (order_by_sorted updated_at_desc
                               updated_at_desc_total updated_at_desc_trans)].
    intros a l _ IH Ha. constructor; [exact IH|].
    eapply Forall_impl; [|exact Ha].
    intros b Hb. unfold updated_at_desc in Hb. simpl. lia.
  - apply Permutation_map, order_by_perm.
Qed.

End StatusFacts.

(** ** Messages *)

Lemma StronglySorted_app_inv {A} (R : A -> A -> Prop) l1 l2 :
  StronglySorted R (l1 ++ l2) ->
  StronglySorted R l1 /\ StronglySorted R l2
  /\ forall a b, In a l1 -> In b l2 -> R a b.
Proof.
  induction l1 as [|x l1 IH]; simpl; intros H.
  - split; [constructor|]. split; [exact H|]. intros a b [].
  - apply StronglySorted_inv in H as [H Hx].
    destruct (IH H) as (S1 & S2 & Hab).
    apply Forall_app in Hx as [Hx1 Hx2].
    split; [now constructor|]. split; [exact S2|].
    intros a b [<-|Ha] Hb.
    + rewrite Forall_forall in Hx2. now apply Hx2.
    + now apply Hab.
Qed.

Lemma StronglySorted_snoc {A} (R : A -> A -> Prop) l x :
  StronglySorted R l -> (forall y, In y l -> R y x) ->
  StronglySorted R (l ++ [x]).
Proof.
  induction 1 as [|y l Hl IH Hy]; simpl; intros H.
  - repeat constructor.
  - constructor.
    + apply IH. intros z Hz. apply H. now right.
    + apply Forall_app. split; [exact Hy|].
      constructor; [|constructor]. apply H. now left.
Qed.

Lemma StronglySorted_rev {A} (R : A -> A -> Prop) l :
  StronglySorted R l -> StronglySorted (fun a b => R b a) (rev l).
Proof.
  induction 1 as [|x l Hl IH Hx]; simpl.
  - constructor.
  - apply StronglySorted_snoc; [exact IH|].
    intros y Hy. apply in_rev in Hy.
    rewrite Forall_forall in Hx. now apply Hx.
Qed.

Section MessageFacts.

Import SessionStore.
Local Open Scope Z_scope.

Lemma of_session_spec sid r :
  of_session sid r = true <-> ConversationMessages.session_id r = sid.
Proof. apply String.eqb_eq. Qed.

Lemma timestamp_asc_total a b :
  timestamp_asc a b = true \/ timestamp_asc b a = true.
Proof. unfold timestamp_asc. lia. Qed.

Lemma timestamp_asc_trans a b c :
  timestamp_asc a b = true -> timestamp_asc b c = true ->
  timestamp_asc a c = true.
Proof. unfold timestamp_asc. lia. Qed.

Lemma timestamp_desc_total a b :
  timestamp_desc a b = true \/ timestamp_desc b a = true.
Proof. unfold timestamp_desc. lia. Qed.

Lemma timestamp_desc_trans a b c :
  timestamp_desc a b = true -> timestamp_desc b c = true ->
  timestamp_desc a c = true.
Proof. unfold timestamp_desc. lia. Qed.

(** X18. [addMessage] to a session that exists appends one message and
    returns it: its id is the new one, its session, role, content and
    Slack timestamp are those of the call, its time is the time of the
    call, and it has metadata exactly when the call has (what the JSONB
    column makes of the document is not said). The messages of the
    session are then the ones before and the new one, the new one last
    when every message of the session is earlier than the call; the
    messages of the other sessions and the sessions are as before, and
    every message still references a session. For a session id that no
    session has, the statement fails with a database error. *)
Theorem addMessage_appends :
  forall (t : Tables) (now : Timestamp) (new_id : UUID) (sessionId : string)
         (role : Role.t) (content : string) (metadata : option Jsonb)
         (slackMessageTs : option string),
    ((exists s, In s (minno_sessions (database t))
                /\ MinnoSessions.id s = sessionId) ->
     exists t' m r,
       addMessage now new_id sessionId role content metadata slackMessageTs t
       = Done (t', m)
       /\ m = mapRowToMessage r
       /\ database t' = database t
       /\ conversation_messages t' = conversation_messages t ++ [r]
       /\ ConversationMessage.id m = new_id
       /\ ConversationMessage.sessionId m = sessionId
       /\ ConversationMessage.role m = role
       /\ ConversationMessage.content m = content
       /\ ConversationMessage.timestamp m = now
       /\ ConversationMessage.slackMessageTs m = slackMessageTs
       /\ (ConversationMessage.metadata m = None <-> metadata = None)
       /\ Permutation (getSessionMessages sessionId t')
                      (getSessionMessages sessionId t ++ [m])
       /\ ((forall x, In x (conversation_messages t) ->
                      ConversationMessages.session_id x = sessionId ->
                      ConversationMessages.timestamp x < now) ->
           getSessionMessages sessionId t'
           = getSessionMessages sessionId t ++ [m])
       /\ (forall other, other <> sessionId ->
             getSessionMessages other t' = getSessionMessages other t)
       /\ (messages_reference_sessions t -> messages_reference_sessions t'))
    /\ ((forall s, In s (minno_sessions (database t)) ->
                   MinnoSessions.id s <> sessionId) ->
        exists message,
          addMessage now new_id sessionId role content metadata
                     slackMessageTs t
          = Failed (Raised (DatabaseError message))).
Proof.
  intros t now new_id sessionId role content metadata slackMessageTs.
  unfold addMessage. split.
  - intros (s & Hs & Hid).
    set (r := ConversationMessages.mk new_id sessionId role content metadata
                                      now slackMessageTs).
    assert (existsb (fun s => String.eqb (MinnoSessions.id s) sessionId)
                    (minno_sessions (database t)) = true) as ->.
    { apply existsb_exists. exists s. split; [exact Hs|].
      now apply String.eqb_eq. }
    assert (of_session sessionId r = true) as Hr
        by (apply of_session_spec; reflexivity).
    exists (mkTables (database t) (conversation_messages t ++ [r])),
           (mapRowToMessage r), r.
    split; [reflexivity|]. do 9 (split; [reflexivity|]).
    split; [reflexivity|].
    unfold getSessionMessages, select. cbn [conversation_messages].
    rewrite filter_app. simpl. rewrite Hr.
    split; [|split; [|split]].
    + rewrite <- (map_app mapRowToMessage _ [r]).
      apply Permutation_map.
      apply perm_trans
        with (filter (of_session sessionId) (conversation_messages t) ++ [r]).
      * apply order_by_perm.
      * apply Permutation_app_tail, Permutation_sym, order_by_perm.
    + intros Hlast. rewrite order_by_last; [now rewrite map_app|].
      intros y Hy. apply filter_In in Hy as [Hin Hy].
      apply of_session_spec in Hy. unfold timestamp_asc.
      apply Z.leb_le. simpl. apply Z.lt_le_incl. now apply Hlast.
    + intros other Hne. rewrite filter_app. simpl.
      assert (of_session other r = false) as ->.
      { destruct (of_session other r) eqn:E; [|reflexivity].
        apply of_session_spec in E. simpl in E. congruence. }
      now rewrite app_nil_r.
    + intros FK m Hm. cbn [conversation_messages database] in *.
      apply in_app_or in Hm as [Hm|[<-|[]]].
      * exact (FK m Hm).
      * exists s. auto.
  - intros Hnone.
    assert (existsb (fun s => String.eqb (MinnoSessions.id s) sessionId)
                    (minno_sessions (database t)) = false) as ->.
    { destruct (existsb _ _) eqn:Ex; [|reflexivity].
      apply existsb_exists in Ex as (s & Hs & Hid).
      apply String.eqb_eq in Hid. exfalso. exact (Hnone s Hs Hid). }
    eexists. reflexivity.
Qed.

(** X19. [getRecentMessages] with a limit [n] from 0 to below 2^63 (10
    when none is given) returns the [n] latest messages of the session,
    or all of them when there are fewer, the earliest first: what it
    leaves out are messages of the session none of which is later than
    one it returns. A negative limit, and one from 2^63 on, is refused
    by the database. *)
Theorem getRecentMessages_latest_in_order :
  forall (sessionId : string) (limit : option Z) (t : Tables),
    let n := match limit with Some n => n | None => 10 end in
    (n < 0 \/ 2 ^ 63 <= n ->
     exists message,
       getRecentMessages sessionId limit t
       = Failed (Raised (DatabaseError message)))
    /\ (0 <= n < 2 ^ 63 ->
        exists recent,
          getRecentMessages sessionId limit t = Done recent
          /\ List.length recent
             = Nat.min (Z.to_nat n)
                       (List.length (getSessionMessages sessionId t))
          /\ StronglySorted
               (fun a b =>
                  ConversationMessage.timestamp a
                  <= ConversationMessage.timestamp b)
               recent
          /\ exists older,
               Permutation (older ++ recent)
                           (getSessionMessages sessionId t)
               /\ forall o r, In o older -> In r recent ->
                    ConversationMessage.timestamp o
                    <= ConversationMessage.timestamp r).
Proof.
  intros sessionId limit t n. unfold getRecentMessages. fold n.
  change (2 ^ 63) with 9223372036854775808. split.
  - intros Hn. destruct (Z.ltb_spec n 0) as [L|L]; [eexists; reflexivity|].
    destruct (Z.ltb_spec 9223372036854775807 n) as [B|B];
      [eexists; reflexivity|lia].
  - intros [Hn Hb]. apply Z.ltb_ge in Hn. rewrite Hn.
    assert ((9223372036854775807 <? n) = false) as -> by (apply Z.ltb_ge; lia).
    unfold getSessionMessages, select.
    set (F := filter (of_session sessionId) (conversation_messages t)).
    set (L := order_by timestamp_desc F).
    pose proof (order_by_sorted timestamp_desc timestamp_desc_total
                  timestamp_desc_trans F) as SL. fold L in SL.
    rewrite <- (firstn_skipn (Z.to_nat n) L) in SL.
    apply StronglySorted_app_inv in SL as (S1 & _ & Hcross).
    eexists. split; [reflexivity|]. split; [|split].
    + rewrite length_map, length_rev, length_firstn, length_map.
      unfold L. now rewrite !order_by_length.
    + apply StronglySorted_map. apply StronglySorted_rev in S1.
      eapply StronglySorted_ind
        with (P := StronglySorted
                     (fun a b =>
                        ConversationMessage.timestamp (mapRowToMessage a)
                        <= ConversationMessage.timestamp (mapRowToMessage b)));
        [constructor | | exact S1].
      intros a l _ IH Ha. constructor; [exact IH|].
      eapply Forall_impl; [|exact Ha].
      intros b Hb'. unfold timestamp_desc in Hb'. simpl. lia.
    + exists (map mapRowToMessage (skipn (Z.to_nat n) L)). split.
      * rewrite <- map_app. apply Permutation_map.
        apply perm_trans with L.
        -- rewrite <- (firstn_skipn (Z.to_nat n) L) at 3.
           apply perm_trans
             with (rev (firstn (Z.to_nat n) L) ++ skipn (Z.to_nat n) L).
           ++ apply Permutation_app_comm.
           ++ apply Permutation_app_tail, Permutation_sym, Permutation_rev.
        -- apply perm_trans with F.
           ++ apply order_by_perm.
           ++ apply Permutation_sym, order_by_perm.
      * intros o r Ho Hr.
        apply in_map_iff in Ho as (o' & <- & Ho).
        apply in_map_iff in Hr as (r' & <- & Hr).
        apply in_rev in Hr.
        pose proof (Hcross r' o' Hr Ho) as H.
        unfold timestamp_desc in H. simpl. lia.
Qed.

End MessageFacts.

(** ** Cleanup statements *)

Lemma filter_all {A} (f : A -> bool) l :
  (forall x, In x l -> f x = true) -> filter f l = l.
Proof.
  induction l as [|x l IH]; simpl; intros H; [reflexivity|].
  rewrite (H x (or_introl eq_refl)). f_equal. apply IH.
  intros y Hy. apply H. now right.
Qed.

Section CleanupFacts.

Import Cleanup.
Local Open Scope Z_scope.

Lemma delete_where_In {A} (cond : A -> bool) tbl r :
  In r (delete_where cond tbl) <-> In r tbl /\ cond r = false.
Proof.
  unfold delete_where. rewrite filter_In, negb_true_iff. reflexivity.
Qed.

Lemma cascade_In deleted msgs m :
  In m (cascade deleted msgs)
  <-> In m msgs
      /\ forall s, In s deleted ->
           MinnoSessions.id s <> ConversationMessages.session_id m.
Proof.
  unfold cascade. rewrite delete_where_In. split.
  - intros [Hm Hex]. split; [exact Hm|]. intros s Hs Hid.
    assert (existsb (fun s => String.eqb (MinnoSessions.id s)
                                (ConversationMessages.session_id m))
                    deleted = true) as E.
    { apply existsb_exists. exists s. split; [exact Hs|].
      now apply String.eqb_eq. }
    congruence.
  - intros [Hm Hno]. split; [exact Hm|].
    destruct (existsb _ deleted) eqn:E; [|reflexivity].
    apply existsb_exists in E as (s & Hs & Hid).
    apply String.eqb_eq in Hid. exfalso. exact (Hno s Hs Hid).
Qed.

Lemma delete_sessions_references cond t :
  messages_reference_sessions t ->
  messages_reference_sessions (delete_sessions cond t).
Proof.
  intros FK m Hm. unfold delete_sessions in *.
  cbn [conversation_messages database minno_sessions] in *.
  apply cascade_In in Hm as [Hm Hno].
  destruct (FK m Hm) as (s & Hs & Hid).
  exists s. split; [|exact Hid].
  apply delete_where_In. split; [exact Hs|].
  destruct (cond s) eqn:E; [|reflexivity].
  exfalso. apply (Hno s); [|exact Hid].
  unfold select. apply filter_In. auto.
Qed.

Lemma delete_sessions_messages cond t m :
  unique_session_ids (database t) ->
  In m (conversation_messages t) ->
  (exists s, In s (minno_sessions (database (delete_sessions cond t)))
             /\ MinnoSessions.id s = ConversationMessages.session_id m) ->
  In m (conversation_messages (delete_sessions cond t)).
Proof.
  intros U Hm (s & Hs & Hid). unfold delete_sessions in *.
  cbn [conversation_messages database minno_sessions] in *.
  apply delete_where_In in Hs as [Hs Hc].
  apply cascade_In. split; [exact Hm|].
  intros s' Hs' Hid'. unfold select in Hs'.
  apply filter_In in Hs' as [Hs' Hc'].
  assert (s' = s).
  { apply (NoDup_key_unique MinnoSessions.id
             (minno_sessions (database t))); auto. congruence. }
  congruence.
Qed.

Lemma delete_where_unique cond d :
  unique_session_ids d ->
  unique_session_ids
    (mkDatabase (workspaces d) (delete_where cond (minno_sessions d))).
Proof.
  unfold unique_session_ids, delete_where. cbn [minno_sessions].
  generalize (minno_sessions d). intros l.
  induction l as [|x l IH]; simpl; intros H; [constructor|].
  inversion H as [|? ? Hx Hl]; subst.
  destruct (negb (cond x)); simpl; [|now apply IH].
  constructor; [|now apply IH].
  intros Hin. apply Hx. apply in_map_iff in Hin as (y & Hy & Hin).
  apply filter_In in Hin as [Hin _]. apply in_map_iff. eauto.
Qed.

(** X20. Deleting the archived sessions last updated before the cutoff
    keeps exactly the other sessions, and of the messages exactly the
    ones of a session that is kept: the messages of a deleted session go
    with it and no other message does. The workspaces are untouched, the
    session ids stay unique and every message still references a
    session. *)
Theorem delete_archived_takes_messages_along :
  forall (cutoff : Timestamp) (t : Tables),
    unique_session_ids (database t) ->
    messages_reference_sessions t ->
    let t' := delete_archived cutoff t in
    (forall s, In s (minno_sessions (database t'))
       <-> In s (minno_sessions (database t))
           /\ ~ (MinnoSessions.status s = Some archived
                 /\ MinnoSessions.updated_at s < cutoff))
    /\ (forall m, In m (conversation_messages t')
          <-> In m (conversation_messages t)
              /\ exists s, In s (minno_sessions (database t'))
                   /\ MinnoSessions.id s = ConversationMessages.session_id m)
    /\ workspaces (database t') = workspaces (database t)
    /\ unique_session_ids (database t')
    /\ messages_reference_sessions t'.
Proof.
  intros cutoff t U FK t'. subst t'. unfold delete_archived.
  split; [|split; [|split; [|split]]].
  - intros s. unfold delete_sessions. cbn [database minno_sessions].
    rewrite delete_where_In.
    rewrite andb_false_iff. unfold older_than.
    rewrite Z.ltb_ge.
    split; intros [Hs H]; (split; [exact Hs|]).
    + intros [Ha Hlt]. destruct H as [H|H]; [|lia].
      apply (status_is_spec archived s) in Ha. congruence.
    + destruct (status_is archived s) eqn:E; [|now left].
      right. apply (status_is_spec archived s) in E.
      destruct (Z_lt_le_dec (MinnoSessions.updated_at s) cutoff) as [L|L];
        [|lia].
      exfalso. apply H. auto.
  - intros m. split.
    + intros Hm. split.
      * unfold delete_sessions in Hm. cbn [conversation_messages] in Hm.
        now apply cascade_In in Hm as [Hm _].
      * exact (delete_sessions_references _ t FK m Hm).
    + intros [Hm Hs]. now apply delete_sessions_messages.
  - reflexivity.
  - apply (delete_where_unique _ (database t) U).
  - now apply delete_sessions_references.
Qed.

(** X21. Archiving restarts the retention clock. A completed session that
    the archive statement run at [now] archives is there after the delete
    statement run at [later] with a retention of [keep], as long as
    [later - keep <= now], however long before [now] the session was last
    touched: the trigger stamps the archived row with the time of the
    archive statement. Its messages stay too. *)
Theorem archived_session_outlives_its_age :
  forall (now cutoff later keep : Timestamp) (t : Tables)
         (r : MinnoSessions.row),
    In r (minno_sessions (database t)) ->
    MinnoSessions.status r = Some completed ->
    MinnoSessions.updated_at r < cutoff ->
    later - keep <= now ->
    unique_session_ids (database t) ->
    let t' := delete_archived (later - keep) (archive_completed now cutoff t) in
    In (SessionStore.set_status now archived r) (minno_sessions (database t'))
    /\ forall m, In m (conversation_messages t) ->
         ConversationMessages.session_id m = MinnoSessions.id r ->
         In m (conversation_messages t').
Proof.
  intros now cutoff later keep t r Hr Hst Hold Hkeep U t'. subst t'.
  assert (status_is completed r && older_than cutoff r = true) as Hc.
  { apply andb_true_iff. split; [now apply status_is_spec|].
    now apply Z.ltb_lt. }
  assert (In (SessionStore.set_status now archived r)
             (minno_sessions (database (archive_completed now cutoff t))))
    as Hin.
  { unfold archive_completed. cbn [database minno_sessions].
    apply in_map_iff. exists r. rewrite Hc. split; [reflexivity|exact Hr]. }
  assert (In (SessionStore.set_status now archived r)
             (minno_sessions
                (database (delete_archived (later - keep)
                             (archive_completed now cutoff t))))) as Hkept.
  { unfold delete_archived, delete_sessions.
    cbn [database minno_sessions]. apply delete_where_In.
    split; [exact Hin|]. apply andb_false_iff. right.
    unfold older_than. apply Z.ltb_ge. simpl. exact Hkeep. }
  split; [exact Hkept|].
  intros m Hm Hid. unfold delete_archived.
  apply delete_sessions_messages.
  - unfold unique_session_ids, archive_completed in *.
    cbn [database minno_sessions]. rewrite map_map.
    erewrite map_ext; [exact U|].
    intros a. destruct (status_is completed a && older_than cutoff a);
      reflexivity.
  - exact Hm.
  - exists (SessionStore.set_status now archived r).
    split; [exact Hkept|]. simpl. now rewrite Hid.
Qed.

(** X22. Deleting the sessions without messages deletes no message: the
    messages are as before, the sessions that stay are exactly the ones
    some message references, and every message still references a
    session. *)
Theorem delete_sessions_without_messages_keeps_messages :
  forall (t : Tables),
    let t' := delete_sessions_without_messages t in
    conversation_messages t' = conversation_messages t
    /\ (forall s, In s (minno_sessions (database t'))
          <-> In s (minno_sessions (database t))
              /\ exists m, In m (conversation_messages t)
                   /\ ConversationMessages.session_id m = MinnoSessions.id s)
    /\ (messages_reference_sessions t -> messages_reference_sessions t').
Proof.
  intros t t'. subst t'. unfold delete_sessions_without_messages.
  split; [|split].
  - unfold delete_sessions. cbn [conversation_messages].
    unfold cascade, delete_where. apply filter_all.
    intros m Hm. apply negb_true_iff.
    destruct (existsb _ _) eqn:E; [|reflexivity].
    apply existsb_exists in E as (s & Hs & Hid).
    unfold select in Hs. apply filter_In in Hs as [_ Hc].
    apply negb_true_iff in Hc. apply String.eqb_eq in Hid.
    assert (existsb (fun m => String.eqb (ConversationMessages.session_id m)
                                         (MinnoSessions.id s))
                    (conversation_messages t) = true) as E'.
    { apply existsb_exists. exists m. split; [exact Hm|].
      now apply String.eqb_eq. }
    congruence.
  - intros s. unfold delete_sessions. cbn [database minno_sessions].
    rewrite delete_where_In, negb_false_iff, existsb_exists.
    split; intros [Hs (m & Hm & Hid)]; (split; [exact Hs|]); exists m;
      (split; [exact Hm|]); now apply String.eqb_eq.
  - apply delete_sessions_references.
Qed.

End CleanupFacts.

(** ** A status update, then the list of active sessions *)

Lemma order_by_head {A} (le : A -> A -> bool) l x :
  (forall a b, le a b = true \/ le b a = true) ->
  (forall a b c, le a b = true -> le b c = true -> le a c = true) ->
  In x l ->
  (forall y, In y l -> le y x = true -> y = x) ->
  exists rest, order_by le l = x :: rest.
Proof.
  intros total trans Hx Hmax.
  pose proof (order_by_sorted le total trans l) as S.
  assert (In x (order_by le l)) as Hin by now apply order_by_In.
  assert (forall y, In y (order_by le l) -> In y l) as Hback
      by (intros y Hy; now apply order_by_In in Hy).
  destruct (order_by le l) as [|h rest]; [contradiction|].
  destruct Hin as [->|Hin]; [now exists rest|].
  apply StronglySorted_inv in S as [_ Hh].
  rewrite Forall_forall in Hh.
  rewrite (Hmax h (Hback h (or_introl eq_refl)) (Hh x Hin)).
  now exists rest.
Qed.

Section StatusThenList.

Import SessionService SessionStore.
Local Open Scope Z_scope.

Lemma active_rows_In workspaceId db r :
  In r (order_by updated_at_desc
          (select (fun r =>
                     String.eqb (MinnoSessions.workspace_id r) workspaceId
                     && status_is active r)
                  (minno_sessions db)))
  <-> In r (minno_sessions db)
      /\ MinnoSessions.workspace_id r = workspaceId
      /\ MinnoSessions.status r = Some active.
Proof.
  rewrite order_by_In. unfold select.
  rewrite filter_In, andb_true_iff, String.eqb_eq, status_is_spec.
  reflexivity.
Qed.

Lemma updated_rows_In now sessionId status tbl y :
  In y (fst (update_where
               (fun r => String.eqb (MinnoSessions.id r) sessionId)
               (set_status now status) tbl))
  <-> exists y0, In y0 tbl
        /\ ((MinnoSessions.id y0 = sessionId /\ y = set_status now status y0)
            \/ (MinnoSessions.id y0 <> sessionId /\ y = y0)).
Proof.
  unfold update_where. cbn [fst]. rewrite in_map_iff.
  split; intros (y0 & H1 & H2).
  - exists y0. split; [exact H2|].
    destruct (String.eqb_spec (MinnoSessions.id y0) sessionId) as [E|E];
      [left|right]; auto.
  - exists y0. split; [|exact H1].
    destruct H2 as [[E ->]|[E ->]].
    + apply String.eqb_eq in E. now rewrite E.
    + apply String.eqb_neq in E. now rewrite E.
Qed.

(** X23. After [updateSessionStatus] has set the status of a session, the
    list of the active sessions of its workspace follows: with a status
    other than active the session is not in the list; with active it is
    in the list, and first when every other session was last updated
    before the call. The sessions with another id are in the list of a
    workspace exactly when they were before. *)
Theorem updateSessionStatus_then_active_sessions :
  forall (db : Database) (now : Timestamp) (sessionId : string)
         (status : Status) (r : MinnoSessions.row),
    unique_session_ids db ->
    In r (minno_sessions db) ->
    MinnoSessions.id r = sessionId ->
    exists db' s,
      updateSessionStatus now sessionId status db = Done (db', s)
      /\ (status <> active ->
          forall x,
            In x (getActiveSessionsForWorkspace
                    (MinnoSessions.workspace_id r) db') ->
            MinnoSession.id x <> sessionId)
      /\ (status = active ->
          In s (getActiveSessionsForWorkspace
                  (MinnoSessions.workspace_id r) db')
          /\ ((forall x, In x (minno_sessions db) ->
                         MinnoSessions.id x <> sessionId ->
                         MinnoSessions.updated_at x < now) ->
              exists rest,
                getActiveSessionsForWorkspace
                  (MinnoSessions.workspace_id r) db' = s :: rest))
      /\ (forall workspaceId x,
            MinnoSession.id x <> sessionId ->
            (In x (getActiveSessionsForWorkspace workspaceId db')
             <-> In x (getActiveSessionsForWorkspace workspaceId db))).
Proof.
  intros db now sessionId status r U Hr Hid.
  assert (forall y0, In y0 (minno_sessions db) ->
                     MinnoSessions.id y0 = sessionId -> y0 = r) as Honly.
  { intros y0 Hy0 E.
    apply (NoDup_key_unique MinnoSessions.id (minno_sessions db)); auto.
    congruence. }
  pose proof (updated_rows_In now sessionId status (minno_sessions db))
    as Hrows.
  unfold updateSessionStatus, getActiveSessionsForWorkspace.
  destruct (update_where _ _ _) as [tbl' rows] eqn:Eu.
  assert (rows = [set_status now status r]) as ->.
  { unfold update_where in Eu. injection Eu as _ <-. unfold select.
    now rewrite (filter_unique MinnoSessions.id sessionId _ _ r
                   (session_id_is_key sessionId) U Hr Hid). }
  cbn [fst] in Hrows.
  exists (mkDatabase (workspaces db) tbl'),
         (mapRowToMinnoSession (set_status now status r)).
  split; [reflexivity|]. cbn [minno_sessions].
  split; [|split].
  - intros Hst x Hx. apply in_map_iff in Hx as (y & <- & Hy).
    apply (active_rows_In _ (mkDatabase (workspaces db) tbl')) in Hy
      as (Hy & _ & Hact).
    cbn [minno_sessions] in Hy.
    apply Hrows in Hy as (y0 & Hy0 & [[E ->]|[E ->]]).
    + simpl in Hact. congruence.
    + exact E.
  - intros ->. split.
    + apply in_map.
      apply (active_rows_In _ (mkDatabase (workspaces db) tbl')).
      cbn [minno_sessions]. split; [|split; reflexivity].
      apply Hrows. exists r. split; [exact Hr|]. left. auto.
    + intros Hbefore.
      destruct (order_by_head updated_at_desc
                  (select (fun r0 =>
                             String.eqb (MinnoSessions.workspace_id r0)
                                        (MinnoSessions.workspace_id r)
                             && status_is active r0) tbl')
                  (set_status now active r)
                  updated_at_desc_total updated_at_desc_trans)
        as (rest & ->).
      * apply (order_by_In updated_at_desc).
        apply (active_rows_In _ (mkDatabase (workspaces db) tbl')).
        cbn [minno_sessions]. split; [|split; reflexivity].
        apply Hrows. exists r. split; [exact Hr|]. left. auto.
      * intros y Hy Hle. unfold select in Hy.
        apply filter_In in Hy as [Hy _].
        apply Hrows in Hy as (y0 & Hy0 & [[E ->]|[E ->]]).
        -- now rewrite (Honly y0 Hy0 E).
        -- pose proof (Hbefore y0 Hy0 E) as Hlt.
           unfold updated_at_desc in Hle. simpl in Hle. lia.
      * exists (map mapRowToMinnoSession rest). reflexivity.
  - intros workspaceId x Hx. rewrite !in_map_iff.
    split; intros (y & <- & Hy); exists y; (split; [reflexivity|]).
    + apply (active_rows_In _ (mkDatabase (workspaces db) tbl')) in Hy
        as (Hy & Hw & Hact).
      cbn [minno_sessions] in Hy.
      apply Hrows in Hy as (y0 & Hy0 & [[E ->]|[E ->]]).
      * exfalso. apply Hx. simpl. exact E.
      * apply active_rows_In. auto.
    + apply active_rows_In in Hy as (Hy & Hw & Hact).
      apply (active_rows_In _ (mkDatabase (workspaces db) tbl')).
      cbn [minno_sessions]. split; [|split; assumption].
      apply Hrows. exists y. split; [exact Hy|]. right.
      split; [|reflexivity]. intros E. apply Hx. simpl. exact E.
Qed.

End StatusThenList.

(** ** Migrations *)

Lemma endsWith_spec s suffix :
  endsWith s suffix = true <-> exists stem, s = (stem ++ suffix)%string.
Proof.
  induction s as [|c s IH].
  - change (endsWith EmptyString suffix)
      with (String.eqb EmptyString suffix || false).
    rewrite orb_false_r, String.eqb_eq. split.
    + intros <-. now exists EmptyString.
    + intros ([|d stem] & H); [exact H|discriminate H].
  - change (endsWith (String c s) suffix)
      with (String.eqb (String c s) suffix || endsWith s suffix).
    rewrite orb_true_iff, IH, String.eqb_eq. split.
    + intros [<-|[stem ->]].
      * now exists EmptyString.
      * now exists (String c stem).
    + intros ([|d stem] & H).
      * left. exact H.
      * right. injection H as -> ->. now exists stem.
Qed.

Lemma string_compare_refl s : String.compare s s = Eq.
Proof.
  induction s as [|c s IH]; simpl; [reflexivity|].
  unfold Ascii.compare. now rewrite N.compare_refl.
Qed.

Lemma string_leb_trans a : forall b c,
  String.leb a b = true -> String.leb b c = true -> String.leb a c = true.
Proof.
  unfold String.leb.
  induction a as [|x a IH]; intros [|y b] [|z c]; simpl; try easy.
  unfold Ascii.compare.
  destruct (N.compare_spec (N_of_ascii x) (N_of_ascii y)) as [E1|L1|G1];
    destruct (N.compare_spec (N_of_ascii y) (N_of_ascii z)) as [E2|L2|G2];
    destruct (N.compare_spec (N_of_ascii x) (N_of_ascii z)) as [E3|L3|G3];
    try easy; try lia.
  apply IH.
Qed.

Lemma is_digit_value c :
  is_digit c = true -> exists d, digit_value c = Some d /\ (0 <= d <= 9)%Z
                                 /\ d = (Z.of_N (N_of_ascii c) - 48)%Z.
Proof.
  unfold is_digit, digit_value.
  destruct (_ && _) eqn:E; [|discriminate]. intros _.
  apply andb_true_iff in E as [L U].
  eexists. split; [reflexivity|]. lia.
Qed.

Lemma migration_number_le f g :
  three_digits_underscore f = true ->
  three_digits_underscore g = true ->
  String.leb f g = true ->
  (migration_number f <= migration_number g)%Z.
Proof.
  destruct f as [|a [|b [|c [|u f]]]]; try discriminate.
  destruct g as [|a' [|b' [|c' [|u' g]]]]; try discriminate.
  unfold three_digits_underscore, migration_number.
  rewrite !andb_true_iff.
  intros [[[Ha Hb] Hc] _] [[[Ha' Hb'] Hc'] _].
  apply is_digit_value in Ha as (x & -> & Bx & Ex),
                          Hb as (y & -> & By & Ey),
                          Hc as (z & -> & Bz & Ez),
                          Ha' as (x' & -> & Bx' & Ex'),
                          Hb' as (y' & -> & By' & Ey'),
                          Hc' as (z' & -> & Bz' & Ez').
  unfold String.leb. cbn [String.compare]. unfold Ascii.compare.
  destruct (N.compare_spec (N_of_ascii a) (N_of_ascii a')) as [E1|L1|G1];
    [|lia|discriminate].
  destruct (N.compare_spec (N_of_ascii b) (N_of_ascii b')) as [E2|L2|G2];
    [|lia|discriminate].
  destruct (N.compare_spec (N_of_ascii c) (N_of_ascii c')) as [E3|L3|G3];
    [|lia|discriminate].
  lia.
Qed.

Lemma sorted_by_number l :
  Forall (fun f => three_digits_underscore f = true) l ->
  StronglySorted (fun f g => String.leb f g = true) l ->
  StronglySorted (fun f g => (migration_number f <= migration_number g)%Z) l.
Proof.
  intros Hall3 S. induction S as [|f l Hl IH Hf]; [constructor|].
  apply Forall_cons_iff in Hall3 as [Hf3 Hl3].
  constructor; [now apply IH|].
  rewrite Forall_forall in *. intros g Hg.
  apply migration_number_le; auto.
Qed.

Lemma StronglySorted_filter {A} (R : A -> A -> Prop) (f : A -> bool) l :
  StronglySorted R l -> StronglySorted R (filter f l).
Proof.
  induction 1 as [|x l Hl IH Hx]; simpl; [constructor|].
  destruct (f x); [|exact IH]. constructor; [exact IH|].
  rewrite Forall_forall in *. intros y Hy.
  apply filter_In in Hy as [Hy _]. now apply Hx.
Qed.

Section MigrationFacts.

Import Migrations.

Variables (Schema Err : Type).
Variable client_query : string -> Schema -> Err + Schema.
Variable readFileSync : string -> Err + string.
Variable unique_violation : Err.

Local Notation "'run'" :=
  (runMigrations Schema Err client_query readFileSync unique_violation).
Local Notation "'loop'" :=
  (run_files Schema Err client_query readFileSync unique_violation).
Local Notation "'run_each'" := (run_all Schema Err client_query readFileSync).
Local Notation "'fails'" := (fails_on Schema Err client_query readFileSync).

(** The files that a run has to apply. *)
Local Notation "'pending' names dir" :=
  (filter (fun f => negb (has names f)) (sort (filter is_migration_file dir)))
  (at level 10, names at level 9, dir at level 9).

Lemma has_spec names file : has names file = true <-> In file names.
Proof.
  unfold has. rewrite existsb_exists. split.
  - intros (x & Hx & E). apply String.eqb_eq in E. now subst.
  - intros H. exists file. split; [exact H|apply String.eqb_refl].
Qed.

Lemma has_false names file : has names file = false <-> ~ In file names.
Proof.
  rewrite <- has_spec. destruct (has names file); split; intros H;
    try reflexivity; try discriminate.
  now contradiction H.
Qed.

Lemma run_files_spec appliedNames files : forall st out,
  NoDup files ->
  (forall f, In f files -> ~ In f appliedNames -> ~ In f (fst st)) ->
  exists done remaining st' more thrown,
    loop appliedNames files st out = (st', out ++ more, thrown)
    /\ filter (fun f => negb (has appliedNames f)) files = done ++ remaining
    /\ fst st' = fst st ++ done
    /\ run_each done (snd st) = Some (snd st')
    /\ ~ In Release more
    /\ (forall e, ~ In (LogError "Error running migrations:" e) more)
    /\ match thrown with
       | None => remaining = []
       | Some e => exists f rest, remaining = f :: rest /\ fails f (snd st') e
       end.
Proof.
  induction files as [|file files IH]; intros st out ND Hfresh.
  - exists [], [], st, [], None. simpl. rewrite !app_nil_r.
    repeat split; auto.
  - apply NoDup_cons_iff in ND as [Hfile ND]. cbn [run_files filter].
    destruct (has appliedNames file) eqn:Hhas; cbn [negb].
    + apply IH; [exact ND|]. intros f Hf. apply Hfresh. now right.
    + set (out1 := out ++ [Log ("Running migration: " ++ file)]).
      destruct (readFileSync file) as [e|sql] eqn:Hread.
      { exists [], (file :: filter (fun f => negb (has appliedNames f)) files),
               st, [Log ("Running migration: " ++ file)], (Some e).
        simpl. rewrite app_nil_r. repeat split; auto.
        - intros [H|[]]. discriminate H.
        - intros e' [H|[]]. discriminate H.
        - eexists _, _. split; [reflexivity|]. now left. }
      destruct (client_query sql (snd st)) as [e|schema'] eqn:Hq.
      { exists [], (file :: filter (fun f => negb (has appliedNames f)) files),
               st, [Log ("Running migration: " ++ file)], (Some e).
        simpl. rewrite app_nil_r. repeat split; auto.
        - intros [H|[]]. discriminate H.
        - intros e' [H|[]]. discriminate H.
        - eexists _, _. split; [reflexivity|]. right. eauto. }
      unfold insert_name.
      assert (has (fst st) file = false) as ->.
      { apply has_false. apply Hfresh; [now left|]. now apply has_false. }
      destruct (IH (fst st ++ [file], schema')
                   (out1 ++ [Log ("Migration " ++ file ++ " completed")]) ND)
        as (done & remaining & st' & more & thrown
            & Hrun & Hsplit & Hnames & Hall & Hrel & Herr & Hthrown).
      { intros f Hf Hnot. cbn [fst]. intros Hin.
        apply in_app_or in Hin as [Hin|[<-|[]]].
        - revert Hin. apply Hfresh; [now right|exact Hnot].
        - contradiction. }
      exists (file :: done), remaining, st',
             (Log ("Running migration: " ++ file)
                :: Log ("Migration " ++ file ++ " completed") :: more),
             thrown.
      split; [|split; [|split; [|split; [|split; [|split]]]]].
      * rewrite Hrun. unfold out1. now rewrite <- !app_assoc.
      * simpl. now rewrite Hsplit.
      * rewrite Hnames. cbn [fst]. now rewrite <- app_assoc.
      * simpl. rewrite Hread, Hq. exact Hall.
      * intros [H|[H|H]]; [discriminate H|discriminate H|auto].
      * intros e [H|[H|H]]; [discriminate H|discriminate H|].
        now apply (Herr e).
      * exact Hthrown.
Qed.

Lemma sort_NoDup dir : NoDup dir -> NoDup (sort (filter is_migration_file dir)).
Proof.
  intros ND. unfold sort.
  eapply Permutation_NoDup; [apply Permutation_sym, order_by_perm|].
  now apply NoDup_filter.
Qed.

Lemma run_outcome dir pg :
  NoDup dir ->
  exists done remaining s' more thrown,
    run dir pg
    = (mkPg (Some (applied_names pg ++ done)) s',
       more ++ match thrown with
               | None => [Release]
               | Some e => [LogError "Error running migrations:" e; Release]
               end,
       thrown)
    /\ pending (applied_names pg) dir = done ++ remaining
    /\ run_each done (schema pg) = Some s'
    /\ ~ In Release more
    /\ (forall e, ~ In (LogError "Error running migrations:" e) more)
    /\ match thrown with
       | None => remaining = []
       | Some e => exists f rest, remaining = f :: rest /\ fails f s' e
       end.
Proof.
  intros ND. unfold runMigrations.
  destruct (run_files_spec (applied_names pg)
              (sort (filter is_migration_file dir))
              (applied_names pg, schema pg) [] (sort_NoDup dir ND))
    as (done & remaining & st' & more & thrown
        & Hrun & Hsplit & Hnames & Hall & Hrel & Herr & Hthrown).
  { intros f _ H. exact H. }
  rewrite Hrun. cbn [fst snd app] in *.
  exists done, remaining, (snd st'), more, thrown.
  rewrite <- Hnames.
  split; [now destruct thrown|]. auto 10.
Qed.

Lemma pending_In names dir f :
  In f (pending names dir)
  <-> In f dir /\ is_migration_file f = true /\ ~ In f names.
Proof.
  rewrite filter_In. unfold sort. rewrite order_by_In, filter_In.
  rewrite negb_true_iff, has_false. tauto.
Qed.

Lemma pending_sorted names dir :
  StronglySorted (fun f g => String.leb f g = true) (pending names dir).
Proof.
  apply StronglySorted_filter. unfold sort.
  apply order_by_sorted.
  - apply String.leb_total.
  - intros a b c. apply string_leb_trans.
Qed.

(** X24. [runMigrations] is all or nothing for each migration, and stops
    at the first one that fails. Of the migration files not yet recorded,
    taken in order, it applies a first part: afterwards the [migrations]
    table holds the names it held and the names of that part, and the
    database is the one that running that part in order gives. When
    nothing is thrown that part is all of them. When an error is thrown
    it is the error of reading or running the next file, on the database
    as the part before it left it; that file is not recorded and none
    after it is run. The client is released at the end in both cases,
    and the error is logged once, when there is one. *)
Theorem runMigrations_all_or_nothing :
  forall (dir : list string) (pg : Pg Schema),
    NoDup dir ->
    exists done remaining s' more thrown,
      run dir pg
      = (mkPg (Some (applied_names pg ++ done)) s',
         more ++ match thrown with
                 | None => [Release]
                 | Some e => [LogError "Error running migrations:" e; Release]
                 end,
         thrown)
      /\ pending (applied_names pg) dir = done ++ remaining
      /\ run_each done (schema pg) = Some s'
      /\ ~ In Release more
      /\ (forall e, ~ In (LogError "Error running migrations:" e) more)
      /\ match thrown with
         | None => remaining = []
         | Some e => exists f rest, remaining = f :: rest /\ fails f s' e
         end.
Proof. exact run_outcome. Qed.

(** X25. When [runMigrations] returns without an error, the names it has
    added to the [migrations] table are the names in the directory that
    end in [.sql], start with three digits and an underscore, and were
    not in the table, each once; they were applied in the order of their
    names, which is the order of their numbers. *)
Theorem runMigrations_applies_numbered_files_in_order :
  forall (dir : list string) (pg pg' : Pg Schema) (out : list (Output Err)),
    NoDup dir ->
    run dir pg = (pg', out, None) ->
    exists applied,
      migrations pg' = Some (applied_names pg ++ applied)
      /\ run_each applied (schema pg) = Some (schema pg')
      /\ (forall f, In f applied
            <-> In f dir
                /\ (exists stem, f = (stem ++ ".sql")%string)
                /\ three_digits_underscore f = true
                /\ ~ In f (applied_names pg))
      /\ NoDup applied
      /\ StronglySorted (fun f g => String.leb f g = true) applied
      /\ StronglySorted
           (fun f g => (migration_number f <= migration_number g)%Z) applied.
Proof.
  intros dir pg pg' out ND Hrun.
  destruct (run_outcome dir pg ND)
    as (done & remaining & s' & more & thrown
        & Hrun' & Hsplit & Hall & _ & _ & Hthrown).
  rewrite Hrun in Hrun'. injection Hrun' as -> _ <-.
  subst remaining. rewrite app_nil_r in Hsplit.
  exists done. cbn [migrations schema].
  split; [reflexivity|]. split; [exact Hall|].
  rewrite <- Hsplit.
  split; [|split; [|split]].
  - intros f. rewrite pending_In. unfold is_migration_file.
    rewrite andb_true_iff, endsWith_spec. tauto.
  - apply NoDup_filter, sort_NoDup, ND.
  - apply pending_sorted.
  - pose proof (pending_sorted (applied_names pg) dir) as S.
    assert (Forall (fun f => three_digits_underscore f = true)
                   (pending (applied_names pg) dir)) as Hall3.
    { apply Forall_forall. intros f Hf. apply pending_In in Hf as (_ & Hf & _).
      unfold is_migration_file in Hf. now apply andb_true_iff in Hf. }
    now apply sorted_by_number.
Qed.

(** X26. Running the migrations again after a run that returned without
    an error does nothing: no file is read or run, and the database and
    the [migrations] table stay as the first run left them. *)
Theorem runMigrations_again_does_nothing :
  forall (dir : list string) (pg pg' : Pg Schema) (out : list (Output Err)),
    NoDup dir ->
    run dir pg = (pg', out, None) ->
    run dir pg' = (pg', [Release], None).
Proof.
  intros dir pg pg' out ND Hrun.
  destruct (run_outcome dir pg ND)
    as (done & remaining & s' & more & thrown
        & Hrun' & Hsplit & Hall & _ & _ & Hthrown).
  rewrite Hrun in Hrun'. injection Hrun' as -> _ <-.
  subst remaining. rewrite app_nil_r in Hsplit.
  unfold runMigrations. cbn [applied_names migrations schema].
  set (names := applied_names pg ++ done).
  assert (forall files st,
             (forall f, In f files -> In f names) ->
             loop names files st [] = (st, [], None)) as Hskip.
  { induction files as [|f files IH]; intros st Hin; [reflexivity|].
    simpl. rewrite (proj2 (has_spec names f) (Hin f (or_introl eq_refl))).
    apply IH. intros g Hg. apply Hin. now right. }
  rewrite Hskip; [reflexivity|].
  intros f Hf. unfold names. apply in_or_app.
  destruct (has (applied_names pg) f) eqn:E.
  - left. now apply has_spec.
  - right. rewrite <- Hsplit. apply filter_In. split; [exact Hf|].
    now rewrite E.
Qed.

End MigrationFacts.

(** ** The further properties on the sample data *)

Lemma sample_db_unique_thread : unique_slack_thread (minno_sessions sample_db).
Proof. unfold unique_slack_thread. simpl. repeat constructor. intros []. Qed.

Lemma sample_db_unique_team : unique_slack_team_id (workspaces sample_db).
Proof. unfold unique_slack_team_id. simpl. repeat constructor. intros []. Qed.

Lemma sample_tables_unique : unique_session_ids (database sample_tables).
Proof.
  unfold unique_session_ids. simpl. repeat constructor.
  - intros [H|[]]. discriminate H.
  - intros [].
Qed.

Lemma sample_tables_references : messages_reference_sessions sample_tables.
Proof.
  intros m [<-|[<-|[<-|[]]]].
  - exists completed_session. split; [now left|reflexivity].
  - exists completed_session. split; [now left|reflexivity].
  - exists archived_session. split; [right; now left|reflexivity].
Qed.

Lemma sample_dirs_NoDup : NoDup sample_dir /\ NoDup broken_dir.
Proof.
  split; repeat constructor; simpl;
    repeat (let H := fresh in intros [H|H]; [discriminate H|revert H]);
    intros [].
Qed.

Lemma slackVerify_absent_or_empty_header_is_400_witness :
  slackVerify sample_hmac_sha256_hex sample_JSON_stringify sample_secret
              (ret tt) no_timestamp_request sample_world
  = (logged sample_world
       [ResSend 400 (BodyText "Missing Slack signature headers")],
     Returned tt).
Proof.
  apply slackVerify_absent_or_empty_header_is_400.
  right. right. left. reflexivity.
Defined.

Lemma events_handler_acknowledges_first_witness :
  exists rest,
    events_handler (mkRequest [] (VObject mention_props)) sample_world
    = (logged sample_world (ResSend 200 BodyEmpty :: rest), Returned tt)
    /\ rest = [ConsoleLog "Received Slack event:"
                          (prop (VObject mention_props) "event")].
Proof.
  destruct (events_handler_acknowledges_first
              (mkRequest [] (VObject mention_props)) sample_world)
    as (rest & E & [[_ R]|[N _]]).
  - discriminate.
  - discriminate.
  - discriminate.
  - exists rest. split; [exact E|exact R].
  - exfalso. apply N. reflexivity.
Defined.

Lemma parseSlackEventWrapper_reads_the_body_witness :
  prop (VObject mention_props) "team_id" = VString "T1234567890"
  /\ event_fields (prop (VObject mention_props) "event")
                  (extractEvent mention_wrapper).
Proof.
  destruct (proj1 parseSlackEventWrapper_reads_the_body
              (VObject mention_props) mention_wrapper eq_refl)
    as (_ & _ & _ & T & _ & _ & _ & _ & E & _).
  split; [exact T|exact E].
Defined.

Lemma parseSlackEventWrapper_ignores_unknown_keys_witness :
  parseSlackEventWrapper
    (VObject (mention_props ++ [("is_ext_shared_channel", VBool false)]))
  = parseSlackEventWrapper (VObject mention_props).
Proof.
  apply parseSlackEventWrapper_ignores_unknown_keys.
  intros k Hk. simpl in Hk.
  repeat (destruct Hk as [<-|Hk]; [reflexivity|]).
  contradiction.
Defined.

Lemma message_helpers_on_parsed_event_witness :
  (isThreadMessage thread_reply_event = true
   <-> exists parent own,
         prop thread_reply "thread_ts" = VString parent
         /\ prop thread_reply "ts" = VString own
         /\ parent <> own)
  /\ (isBotMessage thread_reply_event = true
      <-> prop thread_reply "bot_id" <> VUndefined)
  /\ (isUserMessage thread_reply_event = true
      <-> prop thread_reply "bot_id" = VUndefined).
Proof.
  apply (message_helpers_on_parsed_event [] thread_reply thread_reply_event).
  reflexivity.
Defined.

Lemma getThreadHistory_partial_success_witness :
  exists warnings messages,
    getThreadHistory "C1" (Returned two_replies) = Done (warnings, messages)
    /\ (List.length warnings + List.length messages)%nat = 2%nat.
Proof.
  destruct (proj2 (getThreadHistory_partial_success "C1" two_replies)
                  eq_refl)
    as (warnings & messages & E & L & _).
  exists warnings, messages. split; [exact E|exact L].
Defined.

Lemma upsertWorkspace_lookup_and_frame_witness :
  SessionService.getWorkspaceBySlackTeamId "T0987654321"
    (fst (SessionService.upsertWorkspace 1700000000%Z "uuid-1" "T0987654321"
            "Globex" None sample_db))
  = Some (snd (SessionService.upsertWorkspace 1700000000%Z "uuid-1"
                 "T0987654321" "Globex" None sample_db))
  /\ SessionService.getWorkspaceBySlackTeamId "T1234567890"
       (fst (SessionService.upsertWorkspace 1700000000%Z "uuid-1"
               "T0987654321" "Globex" None sample_db))
     = SessionService.getWorkspaceBySlackTeamId "T1234567890" sample_db.
Proof.
  destruct (upsertWorkspace_lookup_and_frame
              sample_db 1700000000%Z "uuid-1" "T0987654321" "Globex" None
              sample_db_unique_team)
    as (H1 & _ & _ & _ & H5 & _).
  split; [exact H1|]. apply H5. discriminate.
Defined.

Lemma upsertMinnoSession_lookup_and_frame_witness :
  match
    SessionService.upsertMinnoSession 1700000000%Z "uuid-1"
      "00000000-0000-0000-0000-000000000001"
      "C1234567890" "1699900000.000100" None sample_db
  with
  | Returned (db', s) =>
      SessionService.getMinnoSessionByThread
        "C1234567890" "1699900000.000100" db' = Some s
      /\ MinnoSession.updatedAt s = 1700000000%Z
  | Thrown _ => False
  end.
Proof.
  destruct (SessionService.upsertMinnoSession _ _ _ _ _ _ _)
    as [[db' s]|e] eqn:E.
  - destruct (upsertMinnoSession_lookup_and_frame
                sample_db db' s 1700000000%Z "uuid-1"
                "00000000-0000-0000-0000-000000000001"
                "C1234567890" "1699900000.000100" None
                sample_db_unique_thread E)
      as (H1 & _ & _ & H4 & _).
    split; [exact H1|exact H4].
  - vm_compute in E. discriminate E.
Defined.

Lemma upsertMinnoSession_new_thread_witness :
  exists db' s,
    SessionService.upsertMinnoSession 1700000000%Z
      "10000000-0000-0000-0000-000000000009"
      "00000000-0000-0000-0000-000000000001"
      "C1234567890" "1700000000.000200" None sample_db
    = Returned (db', s)
    /\ List.length (minno_sessions db') = 2%nat
    /\ MinnoSession.status s = Some active
    /\ MinnoSession.updatedAt s = 1700000000%Z.
Proof.
  destruct (proj1 (upsertMinnoSession_new_thread
                     sample_db 1700000000%Z
                     "10000000-0000-0000-0000-000000000009"
                     "00000000-0000-0000-0000-000000000001"
                     "C1234567890" "1700000000.000200" None
                     ltac:(intros r [<-|[]]; discriminate))
                  (ex_intro _ acme (conj (or_introl eq_refl) eq_refl)))
    as (db' & s & r & E & _ & Hdb & _ & _ & _ & _ & _ & _ & Hst & _ & _ & Hup).
  exists db', s. split; [exact E|]. split; [|split; [exact Hst|exact Hup]].
  rewrite Hdb. reflexivity.
Defined.

Lemma updateSessionStatus_sets_status_witness :
  SessionStore.updateSessionStatus
    1700000000%Z "10000000-0000-0000-0000-000000000009" active
    (database sample_tables)
  = Failed (Error "Session not found")
  /\ exists db' s,
       SessionStore.updateSessionStatus
         1700000000%Z "10000000-0000-0000-0000-000000000001" active
         (database sample_tables)
       = Done (db', s)
       /\ MinnoSession.status s = Some active
       /\ MinnoSession.updatedAt s = 1700000000%Z
       /\ workspaces db' = [acme].
Proof.
  split.
  - apply (proj1 (updateSessionStatus_sets_status
                    (database sample_tables) 1700000000%Z
                    "10000000-0000-0000-0000-000000000009" active)).
    + reflexivity.
    + intros r [<-|[<-|[]]]; discriminate.
  - destruct (proj2 (updateSessionStatus_sets_status
                       (database sample_tables) 1700000000%Z
                       "10000000-0000-0000-0000-000000000001" active)
                    completed_session sample_tables_unique
                    (or_introl eq_refl) eq_refl)
      as (db' & s & r' & E & _ & _ & Hst & Hup & H).
    exists db', s. split; [exact E|]. split; [exact Hst|].
    split; [exact Hup|]. apply H.
Defined.

Lemma addMessage_appends_witness :
  exists t' m,
    SessionStore.addMessage 1699900300%Z
      "20000000-0000-0000-0000-000000000004"
      "10000000-0000-0000-0000-000000000001"
      Role.user "Thanks." None None sample_tables
    = Done (t', m)
    /\ ConversationMessage.content m = "Thanks."
    /\ ConversationMessage.metadata m = None
    /\ SessionStore.getSessionMessages
         "10000000-0000-0000-0000-000000000001" t'
       = SessionStore.getSessionMessages
           "10000000-0000-0000-0000-000000000001" sample_tables
         ++ [m].
Proof.
  destruct (proj1 (addMessage_appends
                     sample_tables 1699900300%Z
                     "20000000-0000-0000-0000-000000000004"
                     "10000000-0000-0000-0000-000000000001"
                     Role.user "Thanks." None None)
                  (ex_intro _ completed_session
                            (conj (or_introl eq_refl) eq_refl)))
    as (t' & m & r & E & _ & _ & _ & _ & _ & _ & Hc & _ & _ & Hmd & _ & Hlast
        & _).
  exists t', m. split; [exact E|]. split; [exact Hc|].
  split; [apply Hmd; reflexivity|].
  apply Hlast. intros x [<-|[<-|[<-|[]]]] _; simpl; lia.
Defined.

Lemma getRecentMessages_latest_in_order_witness :
  exists recent,
    SessionStore.getRecentMessages
      "10000000-0000-0000-0000-000000000001" (Some 1%Z) sample_tables
    = Done recent
    /\ List.length recent = 1%nat.
Proof.
  destruct (proj2 (getRecentMessages_latest_in_order
                     "10000000-0000-0000-0000-000000000001" (Some 1%Z)
                     sample_tables)
                  ltac:(lia))
    as (recent & E & L & _).
  exists recent. split; [exact E|exact L].
Defined.

Lemma delete_archived_takes_messages_along_witness :
  workspaces (database (Cleanup.delete_archived 1695000000%Z sample_tables))
  = [acme]
  /\ messages_reference_sessions
       (Cleanup.delete_archived 1695000000%Z sample_tables)
  /\ ~ In old_note
          (conversation_messages
             (Cleanup.delete_archived 1695000000%Z sample_tables)).
Proof.
  destruct (delete_archived_takes_messages_along
              1695000000%Z sample_tables
              sample_tables_unique sample_tables_references)
    as (Hs & Hm & Hw & _ & Hfk).
  split; [exact Hw|]. split; [exact Hfk|].
  intros Hin. apply Hm in Hin as (_ & s & Hin & Hid).
  apply Hs in Hin as ([<-|[<-|[]]] & Hkeep).
  - discriminate Hid.
  - apply Hkeep. split; [reflexivity|]. simpl. lia.
Defined.

Lemma archived_session_outlives_its_age_witness :
  In (SessionStore.set_status 1703000000%Z archived completed_session)
     (minno_sessions
        (database
           (Cleanup.delete_archived (1710000000 - 7776000)%Z
              (Cleanup.archive_completed 1703000000%Z 1700408000%Z
                 sample_tables))))
  /\ In question
        (conversation_messages
           (Cleanup.delete_archived (1710000000 - 7776000)%Z
              (Cleanup.archive_completed 1703000000%Z 1700408000%Z
                 sample_tables))).
Proof.
  destruct (archived_session_outlives_its_age
              1703000000%Z 1700408000%Z 1710000000%Z 7776000%Z
              sample_tables completed_session
              (or_introl eq_refl) eq_refl ltac:(simpl; lia) ltac:(lia)
              sample_tables_unique)
    as (H1 & H2).
  split; [exact H1|]. apply H2; [now left|reflexivity].
Defined.

Lemma updateSessionStatus_then_active_sessions_witness :
  exists db' s,
    SessionStore.updateSessionStatus
      1700000000%Z "10000000-0000-0000-0000-000000000001" active
      (database sample_tables)
    = Done (db', s)
    /\ exists rest,
         SessionStore.getActiveSessionsForWorkspace
           "00000000-0000-0000-0000-000000000001" db'
         = s :: rest.
Proof.
  destruct (updateSessionStatus_then_active_sessions
              (database sample_tables) 1700000000%Z
              "10000000-0000-0000-0000-000000000001" active
              completed_session sample_tables_unique
              (or_introl eq_refl) eq_refl)
    as (db' & s & E & _ & Hact & _).
  exists db', s. split; [exact E|].
  apply (Hact eq_refl).
  intros x [<-|[<-|[]]] Hne.
  - contradiction Hne. reflexivity.
  - simpl. lia.
Defined.

Lemma runMigrations_all_or_nothing_witness :
  exists done s',
    fst (fst (Migrations.runMigrations
                (list string) string sample_client_query
                sample_readFileSync "duplicate key" broken_dir sample_pg))
    = Migrations.mkPg (Some (["001_init.sql"] ++ done)) s'
    /\ snd (Migrations.runMigrations
              (list string) string sample_client_query
              sample_readFileSync "duplicate key" broken_dir sample_pg)
       = Some "syntax error"
    /\ Migrations.run_all (list string) string sample_client_query
         sample_readFileSync done ["001_init.sql"]
       = Some s'.
Proof.
  destruct (runMigrations_all_or_nothing
              (list string) string sample_client_query sample_readFileSync
              "duplicate key" broken_dir sample_pg (proj2 sample_dirs_NoDup))
    as (done & remaining & s' & more & thrown & E & _ & Hall & _).
  exists done, s'. rewrite E. cbn [fst snd].
  split; [reflexivity|]. split; [|exact Hall].
  assert (snd (Migrations.runMigrations
                 (list string) string sample_client_query
                 sample_readFileSync "duplicate key" broken_dir sample_pg)
          = Some "syntax error") as T by (vm_compute; reflexivity).
  rewrite E in T. exact T.
Defined.

Lemma runMigrations_applies_numbered_files_in_order_witness :
  exists applied,
    Migrations.migrations
      (fst (fst (Migrations.runMigrations
                   (list string) string sample_client_query
                   sample_readFileSync "duplicate key" sample_dir sample_pg)))
    = Some (["001_init.sql"] ++ applied)
    /\ (In "002_add_indexes.sql" applied
        /\ ~ In "README.md" applied /\ ~ In "001_init.sql" applied).
Proof.
  destruct (Migrations.runMigrations
              (list string) string sample_client_query
              sample_readFileSync "duplicate key" sample_dir sample_pg)
    as [[pg' out] [e|]] eqn:E.
  - vm_compute in E. discriminate E.
  - destruct (runMigrations_applies_numbered_files_in_order
                (list string) string sample_client_query sample_readFileSync
                "duplicate key" sample_dir sample_pg pg' out
                (proj1 sample_dirs_NoDup) E)
      as (applied & Hm & _ & Hin & _).
    exists applied. split; [exact Hm|]. split; [|split].
    + apply Hin. split; [right; now left|].
      split; [now exists "002_add_indexes"|].
      split; [reflexivity|]. intros [H|[]]. discriminate H.
    + intros H. apply Hin in H as (_ & _ & H & _). discriminate H.
    + intros H. apply Hin in H as (_ & _ & _ & H). apply H. now left.
Defined.

Lemma runMigrations_again_does_nothing_witness :
  let first :=
    Migrations.runMigrations
      (list string) string sample_client_query
      sample_readFileSync "duplicate key" sample_dir sample_pg in
  Migrations.runMigrations
    (list string) string sample_client_query
    sample_readFileSync "duplicate key" sample_dir (fst (fst first))
  = (fst (fst first), [Migrations.Release], None).
Proof.
  cbv zeta.
  destruct (Migrations.runMigrations
              (list string) string sample_client_query
              sample_readFileSync "duplicate key" sample_dir sample_pg)
    as [[pg' out] [e|]] eqn:E.
  - vm_compute in E. discriminate E.
  - cbn [fst].
    exact (runMigrations_again_does_nothing
             (list string) string sample_client_query sample_readFileSync
             "duplicate key" sample_dir sample_pg pg' out
             (proj1 sample_dirs_NoDup) E).
Defined.

(** ** From a first contact to its first message *)

Lemma update_conflicting_result_In {A} (conflicts : A -> bool) (set : A -> A)
      (tbl tbl' : list A) r' :
  update_conflicting conflicts set tbl = Some (tbl', r') -> In r' tbl'.
Proof.
  revert tbl'. induction tbl as [|x tbl IH]; simpl; intros tbl' H.
  - discriminate H.
  - destruct (conflicts x).
    + injection H as <- <-. now left.
    + destruct (update_conflicting conflicts set tbl) as [[rest r'']|];
        [|discriminate H].
      injection H as <- <-. right. now apply IH.
Qed.

Section FirstContact.

Import SessionService SessionStore.

Lemma upsert_workspace_sql_In now new_id team name link tbl :
  In (snd (upsert_workspace_sql now new_id team name link tbl))
     (fst (upsert_workspace_sql now new_id team name link tbl)).
Proof.
  unfold upsert_workspace_sql.
  destruct (update_conflicting _ _ tbl) as [[tbl' r']|] eqn:E; simpl.
  - exact (update_conflicting_result_In _ _ _ _ _ E).
  - apply in_or_app. right. now left.
Qed.

Lemma workspace_id_is_key id r :
  String.eqb (Workspaces.id r) id = true <-> Workspaces.id r = id.
Proof. apply String.eqb_eq. Qed.


(** X28. The workspace that [upsertWorkspace] returns is the one
    [getWorkspace] finds under its id afterwards, when the ids of the
    workspaces are unique and the id drawn for a new row is not in use;
    the ids are unique afterwards too, and every id that was in the
    table still is. *)
Theorem getWorkspace_after_upsertWorkspace :
  forall (db : Database) (now : Timestamp) (new_id : UUID)
         (team name : string) (link : option string),
    unique_workspace_ids db ->
    (forall r, In r (workspaces db) -> Workspaces.id r <> new_id) ->
    let db' := fst (upsertWorkspace now new_id team name link db) in
    let w := snd (upsertWorkspace now new_id team name link db) in
    getWorkspace (Workspace.id w) db' = Some w
    /\ unique_workspace_ids db'
    /\ (forall id, In id (map Workspaces.id (workspaces db)) ->
                   In id (map Workspaces.id (workspaces db'))).
Proof.
  intros db now new_id team name link U Hfresh db' w. subst db' w.
  unfold upsertWorkspace, getWorkspace, unique_workspace_ids in *.
  pose proof (upsert_workspace_sql_In now new_id team name link
                (workspaces db)) as Hin.
  unfold upsert_workspace_sql in *.
  destruct (update_conflicting _ _ (workspaces db)) as [[tbl' r']|] eqn:E;
    cbn [fst snd workspaces] in *.
  - pose proof (update_conflicting_map _ _ Workspaces.id _ _ _ E
                  (fun _ => eq_refl)) as Hids.
    rewrite Hids. split; [|split; [exact U|auto]].
    unfold select.
    change (Workspace.id (mapRowToWorkspace r')) with (Workspaces.id r').
    rewrite (filter_unique Workspaces.id (Workspaces.id r') _ tbl' r'
               (workspace_id_is_key _)); auto.
    now rewrite Hids.
  - assert (NoDup (map Workspaces.id
                       (workspaces db
                        ++ [Workspaces.mk new_id team name link now now]))) as ND.
    { rewrite map_app. simpl.
      apply NoDup_app; [exact U | repeat constructor; intros [] | ].
      intros y Hy [<-|[]].
      apply in_map_iff in Hy as (x & Ex & Hx). exact (Hfresh x Hx Ex). }
    split; [|split; [exact ND|]].
    + unfold select.
      change (Workspace.id
                (mapRowToWorkspace
                   (Workspaces.mk new_id team name link now now)))
        with new_id.
      rewrite (filter_unique Workspaces.id new_id _ _
                 (Workspaces.mk new_id team name link now now)
                 (workspace_id_is_key _)); auto.
    + intros id Hid. rewrite map_app. apply in_or_app. now left.
Qed.

End FirstContact.

Lemma getWorkspace_after_upsertWorkspace_witness :
  SessionStore.getWorkspace
    (Workspace.id (snd (SessionService.upsertWorkspace
                          1700000000%Z "00000000-0000-0000-0000-000000000002"
                          "T0987654321" "Globex" None sample_db)))
    (fst (SessionService.upsertWorkspace
            1700000000%Z "00000000-0000-0000-0000-000000000002"
            "T0987654321" "Globex" None sample_db))
  = Some (snd (SessionService.upsertWorkspace
                 1700000000%Z "00000000-0000-0000-0000-000000000002"
                 "T0987654321" "Globex" None sample_db)).
Proof.
  apply (getWorkspace_after_upsertWorkspace
           sample_db 1700000000%Z "00000000-0000-0000-0000-000000000002"
           "T0987654321" "Globex" None).
  - unfold unique_workspace_ids. simpl. repeat constructor. intros [].
  - intros r [<-|[]]. discriminate.
Defined.

